(** * Partner tips distribution tool: extraction and allocation core

    A shallow embedding of the code that reads partner records out of OCR
    text and turns a cash total into per-partner payouts and notes, followed
    by the properties of the specification that were checked against it.

    What is embedded, and where it comes from:
    - the math helpers, [breakdownBills], [runCalculations] (the variant that
      rounds to the nearest dollar and the one that rounds up) and
      [redistributeBills] of the main script;
    - [stripMetadataTokens], [parseByTokenBuckets], [parseColumnarFormat]
      and [parseOcrToPartners] of the main script, with the regular
      expressions they use;
    - [parseHoursValue] and [isValidPartnerEntry] of the table extraction;
    - [calculateHolidaySplitTips] and [normalizeNameKey] of
      [holiday-dashboard.js], and the calculator of the other two-period
      module with its [matchPartners];
    - further code of the same files, after these: the editable partner
      table, HTML escaping, and the extraction of records in the two-period
      modules and from layout tables.

    Conventions of the embedding.
    - A JavaScript number that the code only ever uses as a whole number
      (a dollar payout, a count of notes) is a [Z]; any other finite number
      is an exact rational [Q].  The arithmetic of these definitions is
      exact, and the [1e-8] the code adds before flooring and rounding is
      the rational [1/10^8].
    - Where a property depends on the rounding of the machine the code is
      embedded a second time with that rounding.  [Float64] is binary64
      arithmetic on exact values, every operation rounded to the nearest
      double, with [breakdownBills], [truncateToTwoDecimals],
      [roundToTwoDecimals] and the hourly rate and decimal tips of
      [runCalculations] on top of it; the properties of the bill breakdown
      and of the truncated rate are proved of these.  [Binary64] has the
      same helpers over the primitive floats, to evaluate examples and to
      check the rounding of [Float64] against the machine.
    - A value that may fail to be a finite number (what [parseFloat] gives,
      what [isFinite] guards) is an [option Q], [None] standing for every
      value [isFinite] rejects.
    - A JavaScript string is a [string], read as a sequence of code units
      below 256.
    - Module-level mutable variables are passed and returned explicitly;
      writes to the page and to the console are left out. *)

From Stdlib Require Import ZArith QArith Qround Qabs Qpower Lqa List Bool Lia.
From Stdlib Require Import String Ascii.
From Stdlib Require Import Permutation Sorted.
From Stdlib Require Import Floats.PrimFloat Floats.SpecFloat Floats.FloatOps.
From Stdlib Require Uint63 Qcanon.
Import ListNotations.

Set Implicit Arguments.

(** ** The numeric builtins the code relies on *)

Module JsMath.

Definition floor (x : Q) : Z := Qfloor x.

Definition ceil (x : Q) : Z := Qceiling x.

(** [Math.round] rounds to the nearest integer, ties towards +infinity. *)
Definition round (x : Q) : Z := Qfloor (x + (1 # 2)).

Definition max (a b : Z) : Z := Z.max a b.

Definition min (a b : Z) : Z := Z.min a b.

(** The literal [1e-8]. *)
Definition eps : Q := 1 # 100000000.

Definition gtb (a b : Q) : bool := negb (Qle_bool a b).
Definition ltb (a b : Q) : bool := negb (Qle_bool b a).
Definition leb (a b : Q) : bool := Qle_bool a b.

End JsMath.

(** ** Records shared by the allocation code *)

Record Bills : Type := mkBills {
  twenties : Z;
  tens : Z;
  fives : Z;
  ones : Z
}.

Definition billsValue (b : Bills) : Z :=
  (20 * twenties b + 10 * tens b + 5 * fives b + ones b)%Z.

Definition billsCount (b : Bills) : Z :=
  (twenties b + tens b + fives b + ones b)%Z.

(** A row of the editable partner table: [{ id, name, number, hours }]. *)
Record Partner : Type := mkPartner {
  p_id : Z;
  p_name : string;
  p_number : string;
  p_hours : option Q
}.

(** One element of [results] in [runCalculations]. *)
Record CalcResult : Type := mkCalcResult {
  r_name : string;
  r_number : string;
  r_hours : Q;
  decimalTip : Q;
  wholeDollarPayout : Z;
  breakdown : Bills
}.

(** What one run of [runCalculations] computes and hands to the renderers. *)
Record CalcRun : Type := mkCalcRun {
  totalHours : Q;
  hourlyRateRaw : Q;
  hourlyRateTruncated : Q;
  results : list CalcResult;
  sumDecimalTips : Q;
  sumWholeDollarPayout : Z;
  totalsBills : Bills
}.

(** [runCalculations] either alerts and returns early, or completes. *)
Inductive CalcOutcome : Type :=
| AlertInvalidTotalTips
| AlertInvalidTotalHours
| Calculated (run : CalcRun).

(** ** Math helpers and bill breakdown (the same text in every variant) *)

Definition truncateToTwoDecimals (value : Q) : Q :=
  inject_Z (JsMath.floor (value * 100 + JsMath.eps)) / 100.

Definition roundToTwoDecimals (value : Q) : Q :=
  inject_Z (JsMath.round (value * 100 + JsMath.eps)) / 100.

Definition breakdownBills (amountWholeDollars : Q) : Bills :=
  let remaining := JsMath.max 0%Z (JsMath.floor amountWholeDollars) in
  let twenties := JsMath.floor (inject_Z remaining / 20) in
  let remaining := (remaining - twenties * 20)%Z in
  let tens := JsMath.floor (inject_Z remaining / 10) in
  let remaining := (remaining - tens * 10)%Z in
  let fives := JsMath.floor (inject_Z remaining / 5) in
  let remaining := (remaining - fives * 5)%Z in
  let ones := remaining in
  mkBills twenties tens fives ones.

(** ** The main calculation, parameterised by its whole-dollar step *)

(** [partners.reduce((sum, p) => isFinite(h) ? sum + h : sum, 0)] *)
Definition sumFiniteHours (partners : list Partner) : Q :=
  fold_left (fun sum p =>
               match p_hours p with
               | Some h => sum + h
               | None => sum
               end) partners 0.

Definition safeHoursOf (p : Partner) : Q :=
  match p_hours p with
  | Some hours => if JsMath.gtb hours 0 then hours else 0
  | None => 0
  end.

Definition addBills (a b : Bills) : Bills :=
  mkBills (twenties a + twenties b)%Z (tens a + tens b)%Z
          (fives a + fives b)%Z (ones a + ones b)%Z.

Definition zeroBills : Bills := mkBills 0%Z 0%Z 0%Z 0%Z.

Definition sumBills (l : list Bills) : Bills :=
  fold_right addBills zeroBills l.

Definition nonNegBills (b : Bills) : Prop :=
  (0 <= twenties b /\ 0 <= tens b /\ 0 <= fives b /\ 0 <= ones b)%Z.

(** Note for note, [a] takes no more than [b] holds. *)
Definition leBills (a b : Bills) : Prop :=
  (twenties a <= twenties b /\ tens a <= tens b
   /\ fives a <= fives b /\ ones a <= ones b)%Z.

Section RunCalculations.

(** The expression that turns [decimalTip] into [wholeDollarPayout]. *)
Variable wholeDollarOf : Q -> Z.

Definition partnerResult (rate : Q) (p : Partner) : CalcResult :=
  let safeHours := safeHoursOf p in
  let rawTip := rate * safeHours in
  let decimalTip := roundToTwoDecimals rawTip in
  let wholeDollarPayout := wholeDollarOf decimalTip in
  mkCalcResult (p_name p) (p_number p) safeHours decimalTip
               wholeDollarPayout
               (breakdownBills (inject_Z wholeDollarPayout)).

Definition runCalculationsWith (totalTipsVal : option Q)
           (partners : list Partner) : CalcOutcome :=
  match totalTipsVal with
  | None => AlertInvalidTotalTips
  | Some tips =>
      if JsMath.leb tips 0 then AlertInvalidTotalTips
      else
        let totalHours := sumFiniteHours partners in
        if JsMath.leb totalHours 0 then AlertInvalidTotalHours
        else
          let hourlyRateRaw := tips / totalHours in
          let hourlyRateTruncated := truncateToTwoDecimals hourlyRateRaw in
          let results := map (partnerResult hourlyRateTruncated) partners in
          Calculated
            (mkCalcRun totalHours hourlyRateRaw hourlyRateTruncated results
               (fold_left (fun s r => s + decimalTip r) results 0)
               (fold_left (fun s r => (s + wholeDollarPayout r)%Z) results 0%Z)
               (fold_left (fun t r => addBills t (breakdown r))
                          results zeroBills))
  end.

End RunCalculations.

(** The tool as deployed: nearest whole dollar,
    [decimalTip > 0 ? Math.round(decimalTip + 1e-8) : 0]. *)
Module App.

Definition wholeDollarNearest (decimalTip : Q) : Z :=
  if JsMath.gtb decimalTip 0
  then JsMath.round (decimalTip + JsMath.eps) else 0%Z.

Definition runCalculations := runCalculationsWith wholeDollarNearest.

End App.

(** The earlier variant: next whole dollar up,
    [decimalTip > 0 ? Math.ceil(decimalTip - 1e-8) : 0]. *)
Module AppCeil.

Definition wholeDollarUp (decimalTip : Q) : Z :=
  if JsMath.gtb decimalTip 0
  then JsMath.ceil (decimalTip - JsMath.eps) else 0%Z.

Definition runCalculations := runCalculationsWith wholeDollarUp.

End AppCeil.

(** ** Strings: the builtins used by the extraction and matching code *)

Module JsString.

Definition code (c : ascii) : N := N_of_ascii c.

(** [String.prototype.toLowerCase] on code units below 256: the letters
    A-Z, and the accented capitals U+00C0-U+00DE except the multiplication
    sign U+00D7. *)
Definition lowerChar (c : ascii) : ascii :=
  let n := code c in
  if ((65 <=? n) && (n <=? 90))%N then ascii_of_N (n + 32)
  else if ((192 <=? n) && (n <=? 222) && negb (n =? 215))%N
       then ascii_of_N (n + 32)
       else c.

Fixpoint toLowerCase (s : string) : string :=
  match s with
  | EmptyString => EmptyString
  | String c s' => String (lowerChar c) (toLowerCase s')
  end.

(** WhiteSpace and LineTerminator code units below 256: TAB, LF, VT, FF,
    CR, SP and NBSP.  This is also what [\s] matches. *)
Definition isSpace (c : ascii) : bool :=
  let n := code c in
  (((9 <=? n) && (n <=? 13)) || (n =? 32) || (n =? 160))%N.

Definition isDigit (c : ascii) : bool :=
  let n := code c in ((48 <=? n) && (n <=? 57))%N.

Definition isLowerAZ (c : ascii) : bool :=
  let n := code c in ((97 <=? n) && (n <=? 122))%N.

Fixpoint trimStart (s : string) : string :=
  match s with
  | EmptyString => EmptyString
  | String c s' => if isSpace c then trimStart s' else s
  end.

(** Drops the trailing white space: a character is kept when something
    that is kept follows it, or when it is not white space. *)
Fixpoint trimEnd (s : string) : string :=
  match s with
  | EmptyString => EmptyString
  | String c s' =>
      match trimEnd s' with
      | EmptyString => if isSpace c then EmptyString
                       else String c EmptyString
      | t => String c t
      end
  end.

Definition trim (s : string) : string := trimEnd (trimStart s).

Fixpoint filter (f : ascii -> bool) (s : string) : string :=
  match s with
  | EmptyString => EmptyString
  | String c s' => if f c then String c (filter f s') else filter f s'
  end.

(** [s.includes(sub)] *)
Fixpoint includes (s sub : string) : bool :=
  if prefix sub s then true
  else match s with
       | EmptyString => false
       | String _ s' => includes s' sub
       end.

(** A string is truthy when it is not empty. *)
Definition truthy (s : string) : bool :=
  match s with EmptyString => false | _ => true end.

Definition len (s : string) : Z := Z.of_nat (String.length s).

End JsString.

(** ** [Array.prototype.sort] with a comparator

    The sort is stable; for a comparator [cmp] the element [x] is placed
    before the first element [y] of the already sorted tail for which
    [cmp x y <= 0]. *)

Section JsSort.

Variable A : Type.
Variable cmp : A -> A -> Z.

Fixpoint sortInsert (x : A) (l : list A) : list A :=
  match l with
  | [] => [x]
  | y :: l' => if (cmp x y <=? 0)%Z then x :: y :: l'
               else y :: sortInsert x l'
  end.

Fixpoint jsSort (l : list A) : list A :=
  match l with
  | [] => []
  | x :: l' => sortInsert x (jsSort l')
  end.

End JsSort.

(** The order a comparator [fun a b => key b - key a] sorts into: largest
    [key] first. *)
Definition descending (A : Type) (key : A -> Z) (a b : A) : Prop :=
  (key b <= key a)%Z.

(** ** Redistribution of a hand-edited note inventory *)

(** An element of [updatedResults]: [{ ...partner, breakdown, adjustedPayout }]. *)
Record Redistributed : Type := mkRedistributed {
  rd_partner : CalcResult;
  rd_breakdown : Bills;
  adjustedPayout : Z
}.

Record RedistributeRun : Type := mkRedistributeRun {
  updatedResults : list Redistributed;
  remainingBills : Bills;
  usedBills : Bills
}.

Module Redistribute.

Local Open Scope Z_scope.

(** [while (remaining >= denom && avail > 0)
      { taken++; avail--; remaining -= denom; }]
    Every turn takes one note from [avail], so [Z.to_nat avail] turns are
    enough to reach the exit of the loop. *)
Fixpoint takeLoop (fuel : nat) (denom remaining avail taken : Z)
  : Z * Z * Z :=
  match fuel with
  | O => (remaining, avail, taken)
  | S fuel' =>
      if (denom <=? remaining) && (0 <? avail)
      then takeLoop fuel' denom (remaining - denom) (avail - 1) (taken + 1)
      else (remaining, avail, taken)
  end.

Definition takeNotes (denom remaining avail : Z) : Z * Z * Z :=
  takeLoop (Z.to_nat avail) denom remaining avail 0.

(** The body of [for (const partner of sortedResults)]. *)
Definition allocatePartner (rb : Bills) (partner : CalcResult)
  : Bills * Redistributed :=
  let remaining := wholeDollarPayout partner in
  let '(remaining, rb20, b20) := takeNotes 20 remaining (twenties rb) in
  let '(remaining, rb10, b10) := takeNotes 10 remaining (tens rb) in
  let '(remaining, rb5, b5) := takeNotes 5 remaining (fives rb) in
  let '(remaining, rb1, b1) := takeNotes 1 remaining (ones rb) in
  let '(remaining, rb', bd) :=
    if 0 <? remaining then
      if (remaining <=? 4) && (0 <? rb5)
      then (0, mkBills rb20 rb10 (rb5 - 1) rb1, mkBills b20 b10 (b5 + 1) b1)
      else if (remaining <=? 9) && (0 <? rb10)
      then (0, mkBills rb20 (rb10 - 1) rb5 rb1, mkBills b20 (b10 + 1) b5 b1)
      else if (remaining <=? 19) && (0 <? rb20)
      then (0, mkBills (rb20 - 1) rb10 rb5 rb1, mkBills (b20 + 1) b10 b5 b1)
      else (remaining, mkBills rb20 rb10 rb5 rb1, mkBills b20 b10 b5 b1)
    else (remaining, mkBills rb20 rb10 rb5 rb1, mkBills b20 b10 b5 b1) in
  (rb', mkRedistributed partner bd (wholeDollarPayout partner - remaining)).

Definition step (st : RedistributeRun) (partner : CalcResult)
  : RedistributeRun :=
  let '(rb', out) := allocatePartner (remainingBills st) partner in
  mkRedistributeRun (updatedResults st ++ [out]) rb'
                    (addBills (usedBills st) (rd_breakdown out)).

Definition byPayoutDescending (a b : CalcResult) : Z :=
  wholeDollarPayout b - wholeDollarPayout a.

(** [availableBills] is the inventory as read from the four inputs
    ([parseInt(...) || 0]).  [None] is the early [return] on an empty
    snapshot; otherwise the run whose [updatedResults] are handed to
    [renderResultsTable].  The code also computes [totalAvailable] and
    [totalNeeded], which it never reads. *)
Definition redistributeBills (lastCalculationResults : list CalcResult)
           (availableBills : Bills) : option RedistributeRun :=
  match lastCalculationResults with
  | [] => None
  | _ =>
      let sortedResults := jsSort byPayoutDescending lastCalculationResults in
      Some (fold_left step sortedResults
                      (mkRedistributeRun [] availableBills zeroBills))
  end.

(** The notes handed out so far. *)
Definition assigned (st : RedistributeRun) : Bills :=
  sumBills (map rd_breakdown (updatedResults st)).

(** The invariant of the loop over the sorted partners, [done] being the
    partners already served. *)
Definition loopInvariant (available : Bills) (done : list CalcResult)
           (st : RedistributeRun) : Prop :=
  nonNegBills (remainingBills st)
  /\ addBills (remainingBills st) (assigned st) = available
  /\ usedBills st = assigned st
  /\ Forall (fun r => nonNegBills (rd_breakdown r)) (updatedResults st)
  /\ map rd_partner (updatedResults st) = done.

End Redistribute.

(** ** The two-period ("holiday split") calculators *)

(** A record produced by extraction: [{ name, number, hours }]. *)
Record OcrPartner : Type := mkOcrPartner {
  o_name : string;
  o_number : string;
  o_hours : Q
}.

(** The Map-keyed calculator of [holiday-dashboard.js]. *)
Module Holiday.

(** [(name || '').toLowerCase().replace(/[^a-z]/g, '').trim()]; removing
    every character that is no letter a-z is [filter isLowerAZ]. *)
Definition normalizeNameKey (name : string) : string :=
  JsString.trim
    (JsString.filter JsString.isLowerAZ (JsString.toLowerCase name)).

(** A value of [partnerMap]. *)
Record Merged : Type := mkMerged {
  m_name : string;
  m_number : string;
  normalHours : Q;
  holidayHours : Q
}.

(** A [Map] with string keys: the entries in insertion order. *)
Definition PartnerMap : Type := list (string * Merged).

Fixpoint mapHas (key : string) (m : PartnerMap) : bool :=
  match m with
  | [] => false
  | (k, _) :: m' => if String.eqb k key then true else mapHas key m'
  end.

Fixpoint mapGet (key : string) (m : PartnerMap) : option Merged :=
  match m with
  | [] => None
  | (k, v) :: m' => if String.eqb k key then Some v else mapGet key m'
  end.

(** [m.set(key, v)]: a present key keeps its place, a new one goes last. *)
Fixpoint mapSet (key : string) (v : Merged) (m : PartnerMap) : PartnerMap :=
  match m with
  | [] => [(key, v)]
  | (k, w) :: m' => if String.eqb k key then (k, v) :: m'
                    else (k, w) :: mapSet key v m'
  end.

(** An assignment to a field of the object [m.get(key)]. *)
Fixpoint mapUpdate (key : string) (f : Merged -> Merged) (m : PartnerMap)
  : PartnerMap :=
  match m with
  | [] => []
  | (k, w) :: m' => if String.eqb k key then (k, f w) :: m'
                    else (k, w) :: mapUpdate key f m'
  end.

Definition setNumber (number : string) (e : Merged) : Merged :=
  mkMerged (m_name e) number (normalHours e) (holidayHours e).

Definition adoptNumber (key : string) (p : OcrPartner) (m : PartnerMap)
  : PartnerMap :=
  match mapGet key m with
  | Some e =>
      if JsString.truthy (o_number p) && negb (JsString.truthy (m_number e))
      then mapUpdate key (setNumber (o_number p)) m
      else m
  | None => m
  end.

Definition ensureEntry (key : string) (p : OcrPartner) (m : PartnerMap)
  : PartnerMap :=
  if mapHas key m then m
  else mapSet key (mkMerged (o_name p) (o_number p) 0 0) m.

(** The body of [for (const p of normalPartners)]. *)
Definition addNormal (m : PartnerMap) (p : OcrPartner) : PartnerMap :=
  let key := normalizeNameKey (o_name p) in
  let m := ensureEntry key p m in
  let m := mapUpdate key
             (fun e => mkMerged (m_name e) (m_number e)
                                (normalHours e + o_hours p) (holidayHours e))
             m in
  adoptNumber key p m.

(** The body of [for (const p of holidayPartners)]. *)
Definition addHoliday (m : PartnerMap) (p : OcrPartner) : PartnerMap :=
  let key := normalizeNameKey (o_name p) in
  let m := ensureEntry key p m in
  let m := mapUpdate key
             (fun e => mkMerged (m_name e) (m_number e)
                                (normalHours e) (holidayHours e + o_hours p))
             m in
  adoptNumber key p m.

Definition buildPartnerMap (normalPartners holidayPartners : list OcrPartner)
  : PartnerMap :=
  fold_left addHoliday holidayPartners (fold_left addNormal normalPartners []).

Record SplitResult : Type := mkSplitResult {
  s_name : string;
  s_number : string;
  s_normalHours : Q;
  s_holidayHours : Q;
  normalTip : Q;
  holidayTip : Q;
  combinedDecimal : Q;
  s_wholeDollarPayout : Z;
  s_breakdown : Bills
}.

Record Summary : Type := mkSummary {
  totalNormalHours : Q;
  totalHolidayHours : Q;
  totalNormalTips : Q;
  totalHolidayTips : Q;
  totalCombinedTips : Q;
  totalCombinedPayout : Z;
  normalHourlyRate : Q;
  holidayHourlyRate : Q;
  totalBills : Bills
}.

(** [combinedDecimal > 0 ? Math.round(combinedDecimal + 1e-8) : 0] *)
Definition wholeDollarRound (combinedDecimal : Q) : Z :=
  if JsMath.gtb combinedDecimal 0
  then JsMath.round (combinedDecimal + JsMath.eps) else 0%Z.

(** The body of [for (const [key, partner] of partnerMap)]. *)
Definition splitResult (truncNormalRate truncHolidayRate : Q)
           (entry : string * Merged) : SplitResult :=
  let partner := snd entry in
  let normalTipRaw := truncNormalRate * normalHours partner in
  let normalTipDecimal := roundToTwoDecimals normalTipRaw in
  let holidayTipRaw := truncHolidayRate * holidayHours partner in
  let holidayTipDecimal := roundToTwoDecimals holidayTipRaw in
  let combinedDecimal := normalTipDecimal + holidayTipDecimal in
  let wholeDollarPayout := wholeDollarRound combinedDecimal in
  mkSplitResult (m_name partner) (m_number partner)
                (normalHours partner) (holidayHours partner)
                normalTipDecimal holidayTipDecimal combinedDecimal
                wholeDollarPayout
                (breakdownBills (inject_Z wholeDollarPayout)).

Section WithLocale.

(** [String.prototype.localeCompare], which depends on the host's
    collation. *)
Variable localeCompare : string -> string -> Z.

Definition calculateHolidaySplitTips
           (normalPartners holidayPartners : list OcrPartner)
           (normalHourlyRate holidayHourlyRate : Q)
  : list SplitResult * Summary :=
  let partnerMap := buildPartnerMap normalPartners holidayPartners in
  let truncNormalRate := truncateToTwoDecimals normalHourlyRate in
  let truncHolidayRate := truncateToTwoDecimals holidayHourlyRate in
  let results := map (splitResult truncNormalRate truncHolidayRate)
                     partnerMap in
  let totalNormalTips := fold_left (fun s r => s + normalTip r) results 0 in
  let totalHolidayTips :=
    fold_left (fun s r => s + holidayTip r) results 0 in
  (jsSort (fun a b => localeCompare (s_name a) (s_name b)) results,
   mkSummary
     (fold_left (fun s r => s + s_normalHours r) results 0)
     (fold_left (fun s r => s + s_holidayHours r) results 0)
     totalNormalTips totalHolidayTips
     (totalNormalTips + totalHolidayTips)
     (fold_left (fun s r => (s + s_wholeDollarPayout r)%Z) results 0%Z)
     truncNormalRate truncHolidayRate
     (fold_left (fun t r => addBills t (s_breakdown r)) results zeroBills)).

End WithLocale.

(** *** What the merge is required to do *)





End Holiday.

(** The calculator that pairs the two partner lists with [matchPartners]. *)
Module HolidayMatch.

(** [(name || '').toLowerCase().replace(/[^a-z]/g, '').trim()] *)
Definition normalizeNameForMatch (name : string) : string :=
  JsString.trim
    (JsString.filter JsString.isLowerAZ (JsString.toLowerCase name)).

(** An element of [matched]: [{ name, regular, holiday }], [None] for
    [null]. *)
Record Match : Type := mkMatch {
  mt_name : string;
  regular : option OcrPartner;
  holiday : option OcrPartner
}.

(** The inner loop over [holidayPartnersList] from index [i] on; the state
    is [bestMatch] (index and partner) and [bestScore].  The [break] on an
    exact match ends the loop at once.  The quotient of the partial match
    is only formed for two different keys one of which contains the other,
    so the longer one is not empty. *)
Fixpoint scanHoliday (norm1 : string) (usedHoliday : list nat)
         (rest : list OcrPartner) (i : nat)
         (bestMatch : option (nat * OcrPartner)) (bestScore : Q)
  : option (nat * OcrPartner) :=
  match rest with
  | [] => bestMatch
  | p2 :: rest' =>
      if existsb (Nat.eqb i) usedHoliday
      then scanHoliday norm1 usedHoliday rest' (S i) bestMatch bestScore
      else
        let norm2 := normalizeNameForMatch (o_name p2) in
        if String.eqb norm1 norm2 then Some (i, p2)
        else if JsString.includes norm1 norm2 || JsString.includes norm2 norm1
        then
          let score :=
            inject_Z (JsMath.min (JsString.len norm1) (JsString.len norm2))
            / inject_Z (JsMath.max (JsString.len norm1) (JsString.len norm2)) in
          if JsMath.gtb score bestScore && JsMath.gtb score (7 # 10)
          then scanHoliday norm1 usedHoliday rest' (S i) (Some (i, p2)) score
          else scanHoliday norm1 usedHoliday rest' (S i) bestMatch bestScore
        else scanHoliday norm1 usedHoliday rest' (S i) bestMatch bestScore
  end.

(** The loop over [regularPartnersList]; returns [matched] so far and
    [usedHoliday]. *)
Fixpoint matchRegular (regularPartnersList holidayPartnersList : list OcrPartner)
         (usedHoliday : list nat) (matched : list Match)
  : list Match * list nat :=
  match regularPartnersList with
  | [] => (matched, usedHoliday)
  | p1 :: rest =>
      let norm1 := normalizeNameForMatch (o_name p1) in
      match scanHoliday norm1 usedHoliday holidayPartnersList 0 None 0 with
      | Some (index, partner) =>
          matchRegular rest holidayPartnersList (index :: usedHoliday)
                       (matched ++ [mkMatch (o_name p1) (Some p1) (Some partner)])
      | None =>
          matchRegular rest holidayPartnersList usedHoliday
                       (matched ++ [mkMatch (o_name p1) (Some p1) None])
      end
  end.

(** The closing loop that appends the holiday partners nobody used. *)
Fixpoint unmatchedHoliday (rest : list OcrPartner) (i : nat)
         (usedHoliday : list nat) : list Match :=
  match rest with
  | [] => []
  | p2 :: rest' =>
      if existsb (Nat.eqb i) usedHoliday
      then unmatchedHoliday rest' (S i) usedHoliday
      else mkMatch (o_name p2) None (Some p2)
             :: unmatchedHoliday rest' (S i) usedHoliday
  end.

Definition matchPartners (regularPartnersList holidayPartnersList : list OcrPartner)
  : list Match :=
  let '(matched, usedHoliday) :=
    matchRegular regularPartnersList holidayPartnersList [] [] in
  matched ++ unmatchedHoliday holidayPartnersList 0 usedHoliday.

Record SplitResult : Type := mkSplitResult {
  s_name : string;
  s_number : string;
  regularHours : Q;
  holidayHours : Q;
  regularTip : Q;
  holidayTip : Q;
  totalTip : Q;
  s_wholeDollarPayout : Z;
  s_breakdown : Bills
}.

Record PeriodInfo : Type := mkPeriodInfo {
  partners : Z;
  totalHours : Q;
  totalCash : Q;
  rate : Q
}.

Record SplitRun : Type := mkSplitRun {
  regularInfo : PeriodInfo;
  holidayInfo : PeriodInfo;
  results : list SplitResult;
  totalBills : Bills
}.

(** [totalTip > 0 ? Math.round(totalTip) : 0] *)
Definition wholeDollarRound (totalTip : Q) : Z :=
  if JsMath.gtb totalTip 0 then JsMath.round totalTip else 0%Z.

Definition hoursOf (p : option OcrPartner) : Q :=
  match p with Some r => o_hours r | None => 0 end.

(** [match.regular?.number || match.holiday?.number || ''] *)
Definition numberOf (m : Match) : string :=
  let n1 := match regular m with Some r => o_number r | None => EmptyString end in
  if JsString.truthy n1 then n1
  else match holiday m with Some h => o_number h | None => EmptyString end.

(** The body of [for (const match of matched)]. *)
Definition splitResult (regularRate holidayRate : Q) (m : Match)
  : SplitResult :=
  let regularHours := hoursOf (regular m) in
  let holidayHours := hoursOf (holiday m) in
  let regularTip := roundToTwoDecimals (regularRate * regularHours) in
  let holidayTip := roundToTwoDecimals (holidayRate * holidayHours) in
  let totalTip := regularTip + holidayTip in
  let wholeDollarPayout := wholeDollarRound totalTip in
  mkSplitResult (mt_name m) (numberOf m) regularHours holidayHours
                regularTip holidayTip totalTip wholeDollarPayout
                (breakdownBills (inject_Z wholeDollarPayout)).

Definition sumHours (l : list OcrPartner) : Q :=
  fold_left (fun sum p => sum + o_hours p) l 0.

Definition byPayoutDescending (a b : SplitResult) : Z :=
  (s_wholeDollarPayout b - s_wholeDollarPayout a)%Z.

(** [None] is the thrown ['No valid hours found for regular or holiday']. *)
Definition calculateHolidaySplitTips
           (regularPartners : list OcrPartner) (regularCash : Q)
           (holidayPartners : list OcrPartner) (holidayCash : Q)
  : option SplitRun :=
  let regularTotalHours := sumHours regularPartners in
  let holidayTotalHours := sumHours holidayPartners in
  if JsMath.leb regularTotalHours 0 && JsMath.leb holidayTotalHours 0
  then None
  else
    let regularRate :=
      if JsMath.gtb regularTotalHours 0
      then truncateToTwoDecimals (regularCash / regularTotalHours) else 0 in
    let holidayRate :=
      if JsMath.gtb holidayTotalHours 0
      then truncateToTwoDecimals (holidayCash / holidayTotalHours) else 0 in
    let matched := matchPartners regularPartners holidayPartners in
    let results := map (splitResult regularRate holidayRate) matched in
    Some (mkSplitRun
            (mkPeriodInfo (Z.of_nat (List.length regularPartners))
                          regularTotalHours regularCash regularRate)
            (mkPeriodInfo (Z.of_nat (List.length holidayPartners))
                          holidayTotalHours holidayCash holidayRate)
            (jsSort byPayoutDescending results)
            (fold_left (fun t r => addBills t (s_breakdown r))
                       results zeroBills)).







End HolidayMatch.

(** ** Regular expressions

    The patterns of the code are kept as syntax trees and run by a
    backtracking matcher that tries the alternatives in the order of the
    ECMAScript specification: the left alternative first, as many
    repetitions as possible for a greedy quantifier and as few as possible
    for a lazy one.  None of the patterns uses the [m], [s], [u] or [y]
    flag, none has a group under a quantifier, and the [g] flag is only
    ever used with [replace]. *)

Module Regex.

(** What can stand between brackets, or alone as an atom. *)
Inductive citem : Type :=
| IAny                          (* [.]: anything but a line terminator *)
| IDigit                        (* [\d] *)
| ISpace                        (* [\s] *)
| IChar (c : ascii)
| IRange (lo hi : ascii).

(** A class of characters. *)
Inductive cset : Type :=
| One (i : citem)               (* an atom *)
| OneOf (l : list citem)        (* [[...]] *)
| NoneOf (l : list citem).      (* [[^...]] *)

Inductive re : Type :=
| Eps
| Chr (cs : cset)
| Seq (r1 r2 : re)
| Alt (r1 r2 : re)
| Star (greedy : bool) (r : re)
| Group (i : nat) (r : re)
| Bol                           (* [^] *)
| Eol.                          (* [$] *)

(** The capture groups that took part in the match, the latest first. *)
Definition caps : Type := list (nat * string).

(** *** Abbreviations for writing patterns *)

Fixpoint lit (s : string) : re :=
  match s with
  | EmptyString => Eps
  | String c EmptyString => Chr (One (IChar c))
  | String c s' => Seq (Chr (One (IChar c))) (lit s')
  end.

Fixpoint Cat (l : list re) : re :=
  match l with
  | [] => Eps
  | [r] => r
  | r :: l' => Seq r (Cat l')
  end.

Definition digit : re := Chr (One IDigit).
Definition space : re := Chr (One ISpace).
Definition anyChar : re := Chr (One IAny).
Definition star (r : re) : re := Star true r.                (* [r*] *)
Definition plus (r : re) : re := Seq r (Star true r).        (* [r+] *)
Definition lazyPlus (r : re) : re := Seq r (Star false r).   (* [r+?] *)
Definition opt (r : re) : re := Alt r Eps.                   (* [r?] *)

(** [r{n}] *)
Fixpoint times (n : nat) (r : re) : re :=
  match n with
  | O => Eps
  | S O => r
  | S n' => Seq r (times n' r)
  end.

(** [r{0,k}] *)
Fixpoint upTo (k : nat) (r : re) : re :=
  match k with
  | O => Eps
  | S k' => Alt (Seq r (upTo k' r)) Eps
  end.

(** [r{n,}] and [r{n,m}] *)
Definition atLeast (n : nat) (r : re) : re := Seq (times n r) (star r).
Definition between (n m : nat) (r : re) : re := Seq (times n r) (upTo (m - n) r).

(** *** Matching *)

(** Canonicalisation under the [i] flag, on code units below 256: a letter
    a-z and an accented small letter U+00E0-U+00FE (the division sign U+00F7
    apart) become their capitals; every other character is left alone, its
    capital being itself, a sequence, or a code unit above 255. *)
Definition canon (ci : bool) (c : ascii) : ascii :=
  if ci then
    let n := JsString.code c in
    if ((97 <=? n) && (n <=? 122))%N then ascii_of_N (n - 32)
    else if ((224 <=? n) && (n <=? 254) && negb (n =? 247))%N
         then ascii_of_N (n - 32)
         else c
  else c.

Definition isLineTerminator (c : ascii) : bool :=
  let n := JsString.code c in ((n =? 10) || (n =? 13))%N.

Definition inRange (lo hi c : ascii) : bool :=
  ((JsString.code lo <=? JsString.code c)
   && (JsString.code c <=? JsString.code hi))%N.

(** Under the [i] flag a range holds a character when it holds one with the
    same canonical form, that is the character itself or its other case. *)
Definition inItem (ci : bool) (c : ascii) (i : citem) : bool :=
  match i with
  | IAny => negb (isLineTerminator c)
  | IDigit => JsString.isDigit c
  | ISpace => JsString.isSpace c
  | IChar d => Ascii.eqb (canon ci c) (canon ci d)
  | IRange lo hi =>
      inRange lo hi c
      || (ci && (inRange lo hi (canon true c)
                 || inRange lo hi (JsString.lowerChar c)))
  end.

Definition inSet (ci : bool) (c : ascii) (cs : cset) : bool :=
  match cs with
  | One i => inItem ci c i
  | OneOf l => existsb (inItem ci c) l
  | NoneOf l => negb (existsb (inItem ci c) l)
  end.

Section Matcher.

Variable ci : bool.
Variable R : Type.

(** A continuation receives the position reached, the rest of the input
    and the captures. *)
Definition cont : Type := nat -> string -> caps -> option R.

(** The repetition of [step], the matcher of the body of a star.  An
    iteration that consumes nothing is refused, so [length s] iterations
    are all a star can ever make of the input [s]. *)
Fixpoint starLoop (greedy : bool)
         (step : nat -> string -> caps -> cont -> option R) (k : cont)
         (fuel : nat) (pos : nat) (s : string) (c : caps) : option R :=
  match fuel with
  | O => k pos s c
  | S fuel' =>
      if greedy then
        match step pos s c
                (fun pos' s' c' =>
                   if Nat.eqb pos' pos then None
                   else starLoop greedy step k fuel' pos' s' c') with
        | Some x => Some x
        | None => k pos s c
        end
      else
        match k pos s c with
        | Some x => Some x
        | None =>
            step pos s c
              (fun pos' s' c' =>
                 if Nat.eqb pos' pos then None
                 else starLoop greedy step k fuel' pos' s' c')
        end
  end.

(** [matchRe r pos s c k]: match [r] at position [pos], where the input
    that remains is [s]; [None] is failure, after which the caller
    backtracks. *)
Fixpoint matchRe (r : re) (pos : nat) (s : string) (c : caps) (k : cont)
  {struct r} : option R :=
  match r with
  | Eps => k pos s c
  | Chr cs =>
      match s with
      | String a s' => if inSet ci a cs then k (S pos) s' c else None
      | EmptyString => None
      end
  | Seq r1 r2 =>
      matchRe r1 pos s c (fun pos' s' c' => matchRe r2 pos' s' c' k)
  | Alt r1 r2 =>
      match matchRe r1 pos s c k with
      | Some x => Some x
      | None => matchRe r2 pos s c k
      end
  | Star greedy r1 =>
      starLoop greedy (matchRe r1) k (String.length s) pos s c
  | Group i r1 =>
      matchRe r1 pos s c
        (fun pos' s' c' => k pos' s' ((i, substring 0 (pos' - pos) s) :: c'))
  | Bol => if Nat.eqb pos 0 then k pos s c else None
  | Eol => match s with
           | EmptyString => k pos s c
           | _ => None
           end
  end.

End Matcher.

(** A match of [r] that starts at [pos]: where it ends, and its captures. *)
Definition execAt (ci : bool) (r : re) (pos : nat) (s : string)
  : option (nat * caps) :=
  matchRe ci r pos s [] (fun e _ c => Some (e, c)).

(** The first match at or after [pos]: start, end, captures. *)
Fixpoint searchFrom (ci : bool) (r : re) (pos : nat) (s : string)
  : option (nat * nat * caps) :=
  match execAt ci r pos s with
  | Some (e, c) => Some (pos, e, c)
  | None =>
      match s with
      | EmptyString => None
      | String _ s' => searchFrom ci r (S pos) s'
      end
  end.

(** [re.test(s)] *)
Definition test (ci : bool) (r : re) (s : string) : bool :=
  match searchFrom ci r 0 s with
  | Some _ => true
  | None => false
  end.

Fixpoint capture (i : nat) (c : caps) : option string :=
  match c with
  | [] => None
  | (j, v) :: c' => if Nat.eqb i j then Some v else capture i c'
  end.

(** [s.match(re)] for a pattern without the [g] flag: [None] for [null],
    otherwise the captures; group [i] is [capture i]. *)
Definition matchOf (ci : bool) (r : re) (s : string) : option caps :=
  match searchFrom ci r 0 s with
  | Some (_, _, c) => Some c
  | None => None
  end.

(** The group [i] of a match, the empty string when it took no part. *)
Definition groupOf (i : nat) (c : caps) : string :=
  match capture i c with
  | Some v => v
  | None => EmptyString
  end.

Fixpoint drop (n : nat) (s : string) : string :=
  match n, s with
  | O, _ => s
  | S n', String _ s' => drop n' s'
  | S _, EmptyString => EmptyString
  end.

(** [s.replace(re, by)] for a pattern with the [g] flag and a replacement
    without [$]: every match, from left to right, an empty match moving on
    by one character. *)
Fixpoint replaceLoop (fuel : nat) (ci : bool) (r : re) (by_ : string)
         (pos : nat) (s : string) : string :=
  match fuel with
  | O => s
  | S fuel' =>
      match execAt ci r pos s with
      | Some (e, _) =>
          if Nat.eqb e pos then
            match s with
            | EmptyString => by_
            | String a s' =>
                (by_ ++ String a (replaceLoop fuel' ci r by_ (S pos) s'))%string
            end
          else (by_ ++ replaceLoop fuel' ci r by_ e (drop (e - pos) s))%string
      | None =>
          match s with
          | EmptyString => EmptyString
          | String a s' => String a (replaceLoop fuel' ci r by_ (S pos) s')
          end
      end
  end.

Definition replaceAll (ci : bool) (r : re) (by_ : string) (s : string)
  : string :=
  replaceLoop (S (String.length s)) ci r by_ 0 s.

(** [s.split(re)]: [p] is where the current piece starts, [q] where the
    separator is looked for; [cur] is the input from [p] to [q] and [rest]
    the input from [q] on. *)
Fixpoint splitLoop (fuel : nat) (ci : bool) (r : re) (p q : nat)
         (cur rest : string) : list string :=
  match fuel with
  | O => [(cur ++ rest)%string]
  | S fuel' =>
      match rest with
      | EmptyString => [cur]
      | String a rest' =>
          match execAt ci r q rest with
          | None =>
              splitLoop fuel' ci r p (S q) (cur ++ String a EmptyString) rest'
          | Some (e, _) =>
              if Nat.eqb e p
              then splitLoop fuel' ci r p (S q)
                             (cur ++ String a EmptyString) rest'
              else cur :: splitLoop fuel' ci r e e EmptyString
                                    (drop (e - q) rest)
          end
      end
  end.

Definition split (ci : bool) (r : re) (s : string) : list string :=
  match s with
  | EmptyString =>
      match execAt ci r 0 s with
      | Some _ => []
      | None => [EmptyString]
      end
  | _ => splitLoop (2 * String.length s + 2) ci r 0 0 EmptyString s
  end.

End Regex.

(** ** [parseFloat] on decimal text

    The longest prefix of the trimmed text that is a decimal literal: an
    optional sign, digits, and an optional fraction.  [None] is a value that
    is not a finite number: [NaN], or the infinity that a decimal too large
    for a double is read as.  The code only passes text made of digits, dots
    and minus signs, so the exponent and [Infinity] forms of a literal are
    left out.  A decimal that is read is kept as it is written; that the
    machine holds the double nearest to it is left to [Float64.literal]. *)

Module JsParse.

Definition digitValue (c : ascii) : Z := Z.of_N (JsString.code c) - 48.

(** Reads digits: the number read so far, how many digits, and the rest. *)
Fixpoint readDigits (acc : Z) (count : nat) (s : string) : Z * nat * string :=
  match s with
  | String c s' =>
      if JsString.isDigit c
      then readDigits (10 * acc + digitValue c)%Z (S count) s'
      else (acc, count, s)
  | EmptyString => (acc, count, s)
  end.

Definition unsignedDecimal (s : string) : option Q :=
  let '(intPart, intCount, rest) := readDigits 0 0 s in
  match rest with
  | String "."%char rest' =>
      let '(allDigits, fracCount, _) := readDigits intPart 0 rest' in
      match fracCount with
      | O => if Nat.eqb intCount 0 then None else Some (inject_Z intPart)
      | S _ => Some (allDigits # Pos.pow 10 (Pos.of_nat fracCount))
      end
  | _ => if Nat.eqb intCount 0 then None else Some (inject_Z intPart)
  end.

(** A decimal that rounds beyond the largest double, which is one from
    [2^1024 - 2^970] on, is read as [Infinity]. *)
Definition finiteDecimal (q : Q) : option Q :=
  if Qle_bool (inject_Z (2 ^ 1024 - 2 ^ 970)) q then None else Some q.

Definition unsignedNumber (s : string) : option Q :=
  match unsignedDecimal s with
  | Some q => finiteDecimal q
  | None => None
  end.

Definition parseFloat (s : string) : option Q :=
  match JsString.trimStart s with
  | String "-"%char s' => option_map Qopp (unsignedNumber s')
  | String "+"%char s' => unsignedNumber s'
  | s' => unsignedNumber s'
  end.

End JsParse.

(** ** Extraction of partner records from OCR text *)

Module Ocr.

Import Regex.

Local Open Scope string_scope.

Definition lf : ascii := "010"%char.
Definition cr : ascii := "013"%char.

(** *** Patterns shared by the parsers *)

(** [/^US\d+$/i] *)
Definition reUsNumber : re := Cat [Bol; lit "US"; plus digit; Eol].
(** [/^\d{6,}$/] *)
Definition reSixDigits : re := Cat [Bol; atLeast 6 digit; Eol].
(** [/^\d+\.\d+$/] *)
Definition reDecimal : re := Cat [Bol; plus digit; lit "."; plus digit; Eol].
(** [/^\d+$/] *)
Definition reDigits : re := Cat [Bol; plus digit; Eol].
(** [/^\d{5}$/] *)
Definition reFiveDigits : re := Cat [Bol; times 5 digit; Eol].
(** [/^\d+\.?\d*$/] *)
Definition reNumber : re :=
  Cat [Bol; plus digit; opt (lit "."); star digit; Eol].
(** [/\s+/] *)
Definition reSpaces : re := plus space.
(** [/\r?\n/] *)
Definition reLineBreak : re :=
  Seq (opt (Chr (One (IChar cr)))) (Chr (One (IChar lf))).
(** [/[^a-z]/g] *)
Definition reNotLowerLetter : re := Chr (NoneOf [IRange "a" "z"]).

(** [/^US\d+$/i.test(t) || /^\d{6,}$/.test(t)] *)
Definition isPartnerNumber (t : string) : bool :=
  test true reUsNumber t || test false reSixDigits t.

(** [[^\n]*] *)
Definition restOfLine : re := star (Chr (NoneOf [IChar lf])).

(** All of them carry the flags [gi]. *)
Definition METADATA_PATTERNS : list re :=
  [ Cat [lit "Store"; star space; lit "Number";
         opt (Chr (OneOf [IChar ":"; IChar "#"])); star space; plus digit];
    Cat [lit "Time"; star space; lit "Period:"; restOfLine];
    Cat [lit "Executed"; star space; lit "By:"; restOfLine];
    Cat [lit "Executed"; star space; lit "On:"; restOfLine];
    Cat [lit "Data"; star space; lit "Disclaimer"; restOfLine];
    Cat [lit "Includes"; star space; lit "all"; star space; lit "updates";
         restOfLine];
    Cat [lit "Tip"; star space; lit "Distribution"; restOfLine];
    Cat [lit "Home"; star space; lit "Store"; restOfLine] ].

Definition metadataTokens : list string :=
  [ "store"; "number"; "time"; "period"; "executed"; "by"; "on"; "data";
    "disclaimer"; "includes"; "all"; "updates"; "tip"; "distribution";
    "home"; "partner"; "name"; "tippable"; "hours"; "total" ].

(** [set.has(x)] *)
Definition setHas (set : list string) (x : string) : bool :=
  existsb (String.eqb x) set.

(** [cleaned.replace(/\s+/g, ' ').trim()] *)
Definition normalizeWhitespace (cleaned : string) : string :=
  JsString.trim (replaceAll false reSpaces " " cleaned).

Definition stripMetadataTokens (text : string) : string :=
  if negb (JsString.truthy text) then ""
  else
    let cleaned :=
      fold_left (fun cleaned pattern => replaceAll true pattern " " cleaned)
                METADATA_PATTERNS text in
    normalizeWhitespace cleaned.

(** [tok.toLowerCase().replace(/[^a-z]/g, '')] *)
Definition lettersOnly (tok : string) : string :=
  replaceAll false reNotLowerLetter "" (JsString.toLowerCase tok).

(** [tokens.join(' ')] *)
Definition joinSpace (tokens : list string) : string := String.concat " " tokens.

(** [{ nameTokens, number, hours }] of [parseByTokenBuckets]. *)
Record CurrentEntry : Type := mkCurrentEntry {
  nameTokens : list string;
  ce_number : string;
  ce_hours : option Q
}.

Definition emptyEntry : CurrentEntry := mkCurrentEntry [] "" None.

(** [hours > 0 && hours < 200] *)
Definition plausibleHours (hours : Q) : bool :=
  JsMath.gtb hours 0 && JsMath.ltb hours 200.

(** The body of the loop of [parseByTokenBuckets]; the state is [entries]
    and [currentEntry]. *)
Definition bucketStep (tokensToSkip : list string)
           (st : list OcrPartner * CurrentEntry) (token : string)
  : list OcrPartner * CurrentEntry :=
  let '(entries, currentEntry) := st in
  let cleanedToken := lettersOnly token in
  if setHas tokensToSkip cleanedToken then st
  else if isPartnerNumber token
  then (entries, mkCurrentEntry (nameTokens currentEntry) token
                                (ce_hours currentEntry))
  else
    let rest :=
      if test false reFiveDigits token then st
      else if (0 <? String.length token)%nat && negb (test false reDigits token)
      then (entries, mkCurrentEntry (nameTokens currentEntry ++ [token])%list
                                    (ce_number currentEntry)
                                    (ce_hours currentEntry))
      else st in
    if test false reDecimal token then
      match JsParse.parseFloat token with
      | Some hours =>
          if plausibleHours hours then
            let entries' :=
              if (0 <? List.length (nameTokens currentEntry))%nat then
                let name := JsString.trim (joinSpace (nameTokens currentEntry)) in
                if JsString.truthy name && (1 <? String.length name)%nat
                   && negb (test false reDigits name)
                then (entries ++ [mkOcrPartner name (ce_number currentEntry) hours])%list
                else entries
              else entries in
            (entries', emptyEntry)
          else rest
      | None => rest
      end
    else rest.

Definition parseByTokenBuckets (text : string) (tokensToSkip : list string)
  : list OcrPartner :=
  if negb (JsString.truthy text) then []
  else
    let tokens := split false reSpaces text in
    fst (fold_left (bucketStep tokensToSkip) tokens ([], emptyEntry)).

(** *** The columnar format: one cell per line *)

(** All of them carry the flag [i]. *)
Definition headerPatterns : list re :=
  [ Cat [Bol; lit "home"; Eol];
    Cat [Bol; lit "partner"; star space; lit "name"; Eol];
    Cat [Bol; lit "partner"; star space; lit "number"; Eol];
    Cat [Bol; lit "total"; star space; lit "tippable"; star space;
         lit "hours"; Eol];
    Cat [Bol; lit "store"; Eol];
    Cat [Bol; lit "total"; star space; lit "tippable"; star space;
         lit "hours:"; Eol] ].

(** [/^total\s*tippable\s*hours:\s*[\d.]+$/i] *)
Definition summaryPattern : re :=
  Cat [Bol; lit "total"; star space; lit "tippable"; star space;
       lit "hours:"; star space; plus (Chr (OneOf [IDigit; IChar "."])); Eol].

(** [headerPatterns.some(p => p.test(line))] *)
Definition isHeaderLine (line : string) : bool :=
  existsb (fun p => test true p line) headerPatterns.

(** The first index whose line is no header and is five digits, or 0. *)
Fixpoint findDataStart (lines : list string) (i : nat) : option nat :=
  match lines with
  | [] => None
  | line :: rest =>
      if negb (isHeaderLine line) && test false reFiveDigits line then Some i
      else findDataStart rest (S i)
  end.

Definition lineAt (lines : list string) (i : nat) : string :=
  nth i lines "".

(** The group of four lines that starts with a store number at [i]:
    [None] when the code falls through to the three-line shape, otherwise
    the entries after the group. *)
Definition storeGroup (lines : list string) (i : nat)
           (entries : list OcrPartner) : option (list OcrPartner) :=
  if test false reFiveDigits (lineAt lines i)
     && (i + 3 <? List.length lines)%nat
  then
    let nameLine := lineAt lines (i + 1) in
    let partnerNumLine := lineAt lines (i + 2) in
    let hoursLine := lineAt lines (i + 3) in
    let isValidName :=
      JsString.truthy nameLine
      && (1 <? String.length nameLine)%nat
      && negb (test false reDigits nameLine)
      && negb (test true reUsNumber nameLine)
      && negb (isHeaderLine nameLine) in
    let isValidPartnerNum := isPartnerNumber partnerNumLine in
    let isValidHours := test false reNumber hoursLine in
    if isValidName && isValidPartnerNum && isValidHours then
      match JsParse.parseFloat hoursLine with
      | Some hours =>
          if plausibleHours hours
          then Some (entries ++ [mkOcrPartner (JsString.trim nameLine)
                                              partnerNumLine hours])%list
          else Some entries
      | None => Some entries
      end
    else None
  else None.

(** The group of three lines that starts with a name at [i]. *)
Definition nameGroup (lines : list string) (i : nat)
           (entries : list OcrPartner) : option (list OcrPartner) :=
  let line := lineAt lines i in
  let isName :=
    (2 <? String.length line)%nat
    && negb (test false reNumber line)
    && negb (test true reUsNumber line)
    && negb (test false reFiveDigits line)
    && negb (isHeaderLine line)
    && negb (test true summaryPattern line) in
  if isName && (i + 2 <? List.length lines)%nat then
    let partnerNumLine := lineAt lines (i + 1) in
    let hoursLine := lineAt lines (i + 2) in
    if isPartnerNumber partnerNumLine && test false reNumber hoursLine then
      match JsParse.parseFloat hoursLine with
      | Some hours =>
          if plausibleHours hours
          then Some (entries ++ [mkOcrPartner (JsString.trim line)
                                              partnerNumLine hours])%list
          else None
      | None => None
      end
    else None
  else None.

(** [while (i < lines.length)]: every turn moves [i] on by at least one
    line, so [lines.length] turns are enough. *)
Fixpoint columnarLoop (fuel : nat) (lines : list string) (i : nat)
         (entries : list OcrPartner) : list OcrPartner :=
  match fuel with
  | O => entries
  | S fuel' =>
      if (i <? List.length lines)%nat then
        let line := lineAt lines i in
        if test true summaryPattern line then entries
        else if isHeaderLine line
        then columnarLoop fuel' lines (i + 1) entries
        else
          match storeGroup lines i entries with
          | Some entries' => columnarLoop fuel' lines (i + 4) entries'
          | None =>
              match nameGroup lines i entries with
              | Some entries' => columnarLoop fuel' lines (i + 3) entries'
              | None => columnarLoop fuel' lines (i + 1) entries
              end
          end
      else entries
  end.

Definition parseColumnarFormat (text : string) : list OcrPartner :=
  if negb (JsString.truthy text) then []
  else
    let lines :=
      filter (fun l => (0 <? String.length l)%nat)
             (map JsString.trim (split false reLineBreak text)) in
    let dataStartIndex :=
      match findDataStart lines 0 with
      | Some i => i
      | None => O
      end in
    columnarLoop (List.length lines) lines dataStartIndex [].

(** *** Line patterns *)

(** [\d{1,2}\/\d{1,2}\/\d{2,4}] *)
Definition slashDate : re :=
  Cat [between 1 2 digit; lit "/"; between 1 2 digit; lit "/";
       between 2 4 digit].

(** The first eleven carry the flag [i], the date and time patterns none;
    they hold no letter, so the flag is immaterial to them. *)
Definition skipPatterns : list re :=
  [ Cat [lit "partner"; star space; lit "name"];
    Cat [lit "home"; star space; lit "store"];
    Cat [lit "tippable"; star anyChar; lit "hours"];
    Cat [lit "total"; star space; lit "tippable"];
    Cat [lit "time"; star space; lit "period"];
    lit "executed";
    Cat [lit "store"; star space; lit "number"];
    Cat [lit "data"; star space; lit "disclaimer"];
    Cat [lit "tip"; star space; lit "distribution"];
    Cat [Bol; star space; lit "total"; star space; Eol];
    Cat [lit "includes"; star space; lit "all"; star space; lit "updates"];
    Seq Bol slashDate;
    Cat [slashDate; star space; lit "-"; star space; slashDate];
    Cat [times 2 digit; lit ":"; times 2 digit; lit ":"; times 2 digit] ].

(** [/(executed|time period|store number|data disclaimer)/i] *)
Definition mergedMetadata : re :=
  Group 1 (Alt (lit "executed")
               (Alt (lit "time period")
                    (Alt (lit "store number") (lit "data disclaimer")))).

(** The capturing group [i] of the hours: [\d+\.?\d*] in parentheses. *)
Definition hoursGroup (i : nat) : re :=
  Group i (Cat [plus digit; opt (lit "."); star digit]).

(** Pattern 1: [/^(\d{5})\s+(.+?)\s+(US\d+)\s+/i], the hours group and [$]. *)
Definition pattern1 : re :=
  Cat [Bol; Group 1 (times 5 digit); plus space; Group 2 (lazyPlus anyChar);
       plus space; Group 3 (Seq (lit "US") (plus digit)); plus space;
       hoursGroup 4; Eol].

(** Pattern 2: [/^(.+?)\s+(US\d+)\s+/i], the hours group and [$]. *)
Definition pattern2 : re :=
  Cat [Bol; Group 1 (lazyPlus anyChar); plus space;
       Group 2 (Seq (lit "US") (plus digit)); plus space; hoursGroup 3; Eol].

(** Pattern 3: [/^(.+?)\s+(\d{6,})\s+/], the hours group and [$]. *)
Definition pattern3 : re :=
  Cat [Bol; Group 1 (lazyPlus anyChar); plus space;
       Group 2 (atLeast 6 digit); plus space; hoursGroup 3; Eol].

(** Pattern 4: [/^(.+?)\s+(\d+\.\d+)$/] *)
Definition pattern4 : re :=
  Cat [Bol; Group 1 (lazyPlus anyChar); plus space;
       Group 2 (Cat [plus digit; lit "."; plus digit]); Eol].

(** The helper [addEntry] of [parseOcrToPartners], on the array [parsed]. *)
Definition addEntry (parsed : list OcrPartner) (entry : OcrPartner)
  : list OcrPartner :=
  if negb (JsString.truthy (o_name entry))
     || (String.length (o_name entry) <? 2)%nat
  then parsed
  else
    let exists_ :=
      existsb (fun p =>
                 String.eqb (JsString.trim (JsString.toLowerCase (o_name p)))
                            (JsString.trim (JsString.toLowerCase (o_name entry))))
              parsed in
    if exists_ then parsed else (parsed ++ [entry])%list.

(** Pattern 5, the flexible tokens. *)
Definition pattern5 (parsed : list OcrPartner) (cleanedLine : string)
  : list OcrPartner :=
  let tokens := split false reSpaces cleanedLine in
  if (2 <=? List.length tokens)%nat then
    let lastToken := last tokens "" in
    if test false reNumber lastToken then
      match JsParse.parseFloat lastToken with
      | Some hours =>
          if plausibleHours hours then
            let nameTokens :=
              filter (fun tok =>
                        let cleaned := lettersOnly tok in
                        if JsString.truthy cleaned
                        then negb (setHas metadataTokens cleaned)
                        else true)
                     (removelast tokens) in
            let '(number, nameTokens) :=
              if (0 <? List.length nameTokens)%nat then
                let lastNameToken := last nameTokens "" in
                if isPartnerNumber lastNameToken
                then (lastNameToken, removelast nameTokens)
                else ("", nameTokens)
              else ("", nameTokens) in
            let nameTokens :=
              if (0 <? List.length nameTokens)%nat
                 && test false reFiveDigits (hd "" nameTokens)
              then tl nameTokens
              else nameTokens in
            let name := JsString.trim (joinSpace nameTokens) in
            if JsString.truthy name && (1 <? String.length name)%nat
               && (List.length nameTokens <=? 6)%nat
               && negb (test false reDigits name)
            then addEntry parsed (mkOcrPartner name number hours)
            else parsed
          else parsed
      | None => parsed
      end
    else parsed
  else parsed.

(** Pattern 4 and what follows it. *)
Definition fromPattern4 (parsed : list OcrPartner) (cleanedLine : string)
  : list OcrPartner :=
  let next := pattern5 parsed cleanedLine in
  match matchOf false pattern4 cleanedLine with
  | Some m =>
      let nameCandidate := JsString.trim (groupOf 1 m) in
      match JsParse.parseFloat (groupOf 2 m) with
      | Some hours =>
          if JsString.truthy nameCandidate
             && negb (test false reDigits nameCandidate)
             && plausibleHours hours
          then addEntry parsed (mkOcrPartner nameCandidate "" hours)
          else next
      | None => next
      end
  | None => next
  end.

(** Pattern 3 and what follows it. *)
Definition fromPattern3 (parsed : list OcrPartner) (cleanedLine : string)
  : list OcrPartner :=
  let next := fromPattern4 parsed cleanedLine in
  match matchOf false pattern3 cleanedLine with
  | Some m =>
      let name := JsString.trim (groupOf 1 m) in
      match JsParse.parseFloat (groupOf 3 m) with
      | Some hours =>
          if JsString.truthy name
          then addEntry parsed (mkOcrPartner name (groupOf 2 m) hours)
          else next
      | None => next
      end
  | None => next
  end.

(** Pattern 2 and what follows it. *)
Definition fromPattern2 (parsed : list OcrPartner) (cleanedLine : string)
  : list OcrPartner :=
  let next := fromPattern3 parsed cleanedLine in
  match matchOf true pattern2 cleanedLine with
  | Some m =>
      let name := JsString.trim (groupOf 1 m) in
      match JsParse.parseFloat (groupOf 3 m) with
      | Some hours =>
          if JsString.truthy name && negb (test false reFiveDigits name)
          then addEntry parsed (mkOcrPartner name (groupOf 2 m) hours)
          else next
      | None => next
      end
  | None => next
  end.

(** Pattern 1 and what follows it. *)
Definition fromPattern1 (parsed : list OcrPartner) (cleanedLine : string)
  : list OcrPartner :=
  let next := fromPattern2 parsed cleanedLine in
  match matchOf true pattern1 cleanedLine with
  | Some m =>
      let name := JsString.trim (groupOf 2 m) in
      match JsParse.parseFloat (groupOf 4 m) with
      | Some hours =>
          if JsString.truthy name
          then addEntry parsed (mkOcrPartner name (groupOf 3 m) hours)
          else next
      | None => next
      end
  | None => next
  end.

(** The body of [for (const rawLine of lines)]. *)
Definition lineStep (parsed : list OcrPartner) (rawLine : string)
  : list OcrPartner :=
  let line := JsString.trim rawLine in
  if negb (JsString.truthy line) then parsed
  else if (String.length line <? 3)%nat then parsed
  else if existsb (fun pattern => test true pattern line) skipPatterns
  then parsed
  else if (120 <? String.length line)%nat && test true mergedMetadata line
  then parsed
  else if (120 <? String.length line)%nat && test true mergedMetadata line
  then parsed
  else
    let cleanedLine := stripMetadataTokens line in
    if negb (JsString.truthy cleanedLine)
       || (String.length cleanedLine <? 3)%nat
    then parsed
    else fromPattern1 parsed cleanedLine.

Definition parseOcrToPartners (text : string) : list OcrPartner :=
  let columnarResult := parseColumnarFormat text in
  if (0 <? List.length columnarResult)%nat then columnarResult
  else
    let metadataStrip := stripMetadataTokens text in
    let lines := split false reLineBreak metadataStrip in
    let parsed := fold_left lineStep lines [] in
    if Nat.eqb (List.length parsed) 0 then
      let fallbackEntries := parseByTokenBuckets metadataStrip metadataTokens in
      if (0 <? List.length fallbackEntries)%nat
      then fold_left addEntry fallbackEntries parsed
      else parsed
    else parsed.

(** The bound the specification puts on extracted hours. *)
Definition plausible (p : OcrPartner) : Prop :=
  0 < o_hours p /\ o_hours p < 200.

End Ocr.

(** ** Validation of rows extracted from a table of cells *)

Module Table.

Import Regex.

Local Open Scope string_scope.

(** A row as [extractPartner] builds it: [{ name, number, hours, store }]. *)
Record Row : Type := mkRow {
  t_name : string;
  t_number : string;
  t_hours : Q;
  t_store : string
}.

(** [/[^\d.\-]/g] *)
Definition reNotNumeric : re :=
  Chr (NoneOf [IDigit; IChar "."; IChar "-"]).

Definition parseHoursValue (hoursStr : string) : Q :=
  if negb (JsString.truthy hoursStr) then 0
  else
    let cleaned := replaceAll false reNotNumeric "" hoursStr in
    match JsParse.parseFloat cleaned with
    | Some hours =>
        if JsMath.leb 0 hours && JsMath.ltb hours 200 then hours else 0
    | None => 0
    end.

(** [[\/\-]] *)
Definition dateSep : re := Chr (OneOf [IChar "/"; IChar "-"]).

(** [\d{1,2}[\/\-]\d{1,2}[\/\-]\d{2,4}] *)
Definition dayFirstDate : re :=
  Cat [between 1 2 digit; dateSep; between 1 2 digit; dateSep;
       between 2 4 digit].

(** [\d{4}[\/\-]\d{1,2}[\/\-]\d{1,2}] *)
Definition yearFirstDate : re :=
  Cat [times 4 digit; dateSep; between 1 2 digit; dateSep;
       between 1 2 digit].

(** The class of a hyphen, an en dash and an em dash; the dashes are code
    units above 255. *)
Definition dash : re := Chr (OneOf [IChar "-"]).

(** The date range, two dates around [\s*], a dash and [\s*]. *)
Definition dateRange : re :=
  Cat [dayFirstDate; star space; dash; star space; dayFirstDate].

(** The class of white space and the prefix symbols; of its bullet, middle
    dot, guillemet and arrow only U+00B7 and U+00BB are below 256. *)
Definition prefixSymbol : re :=
  Chr (OneOf [ISpace; IChar "~"; IChar "="; IChar "-"; IChar "*";
              IChar "183"; IChar ">"; IChar "187"; IChar "|"; IChar ":"]).

Definition isValidPartnerEntry (partner : Row) : bool :=
  if negb (JsString.truthy (t_name partner)) then false
  else
    let nameLower := JsString.toLowerCase (t_name partner) in
    let nameTrimmed := JsString.trim (t_name partner) in
    if JsString.includes nameLower "partner name"
       || JsString.includes nameLower "employee name"
       || String.eqb nameLower "name"
    then false
    else if JsString.includes nameLower "total tippable"
            || JsString.includes nameLower "total:"
            || String.eqb nameLower "total"
            || JsString.includes nameLower "grand total"
    then false
    else if (String.length nameTrimmed <? 2)%nat then false
    else if test false (Cat [Bol; plus digit; Eol]) nameTrimmed then false
    else if test false (Cat [Bol; dayFirstDate; Eol]) nameTrimmed
            || test false (Cat [Bol; yearFirstDate; Eol]) nameTrimmed
    then false
    else if test false dateRange nameTrimmed then false
    else if test false (Cat [Bol; plus prefixSymbol; Eol]) nameTrimmed
    then false
    else if Qeq_bool (t_hours partner) 0 || JsMath.leb (t_hours partner) 0
    then false
    else true.

End Table.

(** ** What white-space normalisation computes *)

Module Whitespace.

(** Every run of white space becomes one space; [inRun] tells that the
    character before was white space. *)
Fixpoint collapseFrom (inRun : bool) (s : string) : string :=
  match s with
  | EmptyString => EmptyString
  | String a s' =>
      if JsString.isSpace a
      then if inRun then collapseFrom true s'
           else String " "%char (collapseFrom true s')
      else String a (collapseFrom false s')
  end.

Definition collapse (s : string) : string := collapseFrom false s.

(** No white space but single spaces, none of them after another;
    [afterSpace] tells that the character before was a space. *)
Fixpoint tidyFrom (afterSpace : bool) (s : string) : bool :=
  match s with
  | EmptyString => true
  | String a s' =>
      if JsString.isSpace a
      then Ascii.eqb a " "%char && negb afterSpace && tidyFrom true s'
      else tidyFrom false s'
  end.

(** The number of white-space characters a string starts with. *)
Fixpoint spanLength (s : string) : nat :=
  match s with
  | String a s' => if JsString.isSpace a then S (spanLength s') else O
  | EmptyString => O
  end.

End Whitespace.

(** ** The math helpers in binary64

    The same helpers over the doubles of the machine, to evaluate examples
    with the arithmetic a browser performs. *)

Module Binary64.

(** The double of a whole number of magnitude below 2^53. *)
Definition ofZ (z : Z) : float :=
  if (z <? 0)%Z then PrimFloat.opp (PrimFloat.of_uint63 (Uint63.of_Z (- z)))
  else PrimFloat.of_uint63 (Uint63.of_Z z).

(** The double nearest to [n / d], which is what a decimal literal and
    [parseFloat] give for the decimal text of [n / d]: the quotient of two
    doubles is correctly rounded. *)
Definition decimal (n d : Z) : float := PrimFloat.div (ofZ n) (ofZ d).

(** The exact value of a finite double. *)
Definition toQ (x : float) : option Q :=
  match Prim2SF x with
  | S754_zero _ => Some 0
  | S754_finite s m e =>
      let q := if (0 <=? e)%Z then inject_Z (Zpos m * 2 ^ e)
               else Zpos m # Pos.pow 2 (Z.to_pos (- e)) in
      Some (if s then - q else q)
  | _ => None
  end.

(** [Math.floor], [Math.round] and [Math.ceil] return the integer that the
    exact value of their argument determines; a double without a fraction,
    an infinity and [NaN] are returned as they are. *)
Definition integral (f : Q -> Z) (x : float) : float :=
  match toQ x with
  | Some q => if Qeq_bool (inject_Z (Qfloor q)) q then x else ofZ (f q)
  | None => x
  end.

Definition floor : float -> float := integral JsMath.floor.
Definition round : float -> float := integral JsMath.round.
Definition ceil : float -> float := integral JsMath.ceil.

(** The literals [1e-8] and [100]. *)
Definition eps : float := decimal 1 100000000.
Definition hundred : float := ofZ 100.

Definition truncateToTwoDecimals (value : float) : float :=
  PrimFloat.div
    (floor (PrimFloat.add (PrimFloat.mul value hundred) eps)) hundred.

Definition roundToTwoDecimals (value : float) : float :=
  PrimFloat.div
    (round (PrimFloat.add (PrimFloat.mul value hundred) eps)) hundred.

(** [decimalTip > 0 ? Math.round(decimalTip + 1e-8) : 0] *)
Definition wholeDollarNearest (decimalTip : float) : float :=
  if PrimFloat.ltb (ofZ 0) decimalTip
  then round (PrimFloat.add decimalTip eps) else ofZ 0.

(** [decimalTip > 0 ? Math.ceil(decimalTip - 1e-8) : 0] *)
Definition wholeDollarUp (decimalTip : float) : float :=
  if PrimFloat.ltb (ofZ 0) decimalTip
  then ceil (PrimFloat.sub decimalTip eps) else ofZ 0.

(** [Math.max(0, x)] of a number [x]. *)
Definition max0 (x : float) : float :=
  if PrimFloat.ltb (ofZ 0) x then x else ofZ 0.

(** [breakdownBills], returning the four counts in the order [twenties],
    [tens], [fives], [ones]. *)
Definition breakdownBills (amountWholeDollars : float)
  : float * float * float * float :=
  let remaining := max0 (floor amountWholeDollars) in
  let twenties := floor (PrimFloat.div remaining (ofZ 20)) in
  let remaining := PrimFloat.sub remaining (PrimFloat.mul twenties (ofZ 20)) in
  let tens := floor (PrimFloat.div remaining (ofZ 10)) in
  let remaining := PrimFloat.sub remaining (PrimFloat.mul tens (ofZ 10)) in
  let fives := floor (PrimFloat.div remaining (ofZ 5)) in
  let remaining := PrimFloat.sub remaining (PrimFloat.mul fives (ofZ 5)) in
  let ones := remaining in
  (twenties, tens, fives, ones).

(** [hours.reduce((sum, h) => sum + h, 0)] *)
Definition sumHours (hours : list float) : float :=
  fold_left PrimFloat.add hours (ofZ 0).

(** The rate and, for each partner, the decimal tip and the nearest-dollar
    payout, as [runCalculations] computes them from the total tips and
    hours that are finite and positive. *)
Definition allocate (totalTipsVal : float) (hours : list float)
  : float * list (float * float) :=
  let hourlyRateRaw := PrimFloat.div totalTipsVal (sumHours hours) in
  let hourlyRateTruncated := truncateToTwoDecimals hourlyRateRaw in
  (hourlyRateTruncated,
   map (fun safeHours =>
          let decimalTip :=
            roundToTwoDecimals (PrimFloat.mul hourlyRateTruncated safeHours) in
          (decimalTip, wholeDollarNearest decimalTip))
       hours).

End Binary64.

Local Open Scope Q_scope.
(** ** Binary64 arithmetic on exact values

    The arithmetic of the machine with its rounding: a finite double is the
    rational it denotes, and an operation returns the double nearest to the
    exact result, a tie going to the even significand.  Below [2^-1022] the
    doubles are the multiples of [2^-1074]; a result that rounds beyond the
    largest double is an infinity, which is not a finite number. *)

Module Float64.

(** [2^e], for any integer [e]. *)
Definition pow2 (e : Z) : Q := (2 ^ e)%Q.

(** The integer part of the binary logarithm of [x > 0]. *)
Definition ilog2 (x : Q) : Z :=
  let e0 := (Z.log2 (Qnum x) - Z.log2 (Zpos (Qden x)))%Z in
  if Qle_bool (pow2 e0) x then e0 else (e0 - 1)%Z.

(** The integer nearest to [m], the even one of the two when [m] lies
    halfway. *)
Definition nearestEven (m : Q) : Z :=
  let f := Qfloor m in
  match Qcompare (m - inject_Z f) (1 # 2) with
  | Lt => f
  | Gt => (f + 1)%Z
  | Eq => if Z.even f then f else (f + 1)%Z
  end.

(** The exponent of the spacing of the doubles around [x]: 53 significant
    bits, and no spacing finer than [2^-1074]. *)
Definition exponent (x : Q) : Z :=
  (Z.max (ilog2 (Qabs x)) (-1022) - 52)%Z.

(** The double nearest to [x], were no double too large. *)
Definition rnd (x : Q) : Q :=
  if Qeq_bool x 0 then 0
  else Qred (inject_Z (nearestEven (x / pow2 (exponent x)))
             * pow2 (exponent x)).

(** [Number.MAX_VALUE] *)
Definition maxValue : Q := inject_Z ((2 ^ 53 - 1) * 2 ^ 971).

(** The result of an operation whose exact value is [x]: [None] when it is
    an infinity. *)
Definition finite (x : Q) : option Q :=
  let y := rnd x in
  if Qle_bool (Qabs y) maxValue then Some y else None.

(** The four operations on finite doubles.  [None] is a result that is not
    a finite number (an infinity, or [NaN] for [0 / 0]). *)
Definition add (a b : Q) : option Q := finite (a + b).
Definition sub (a b : Q) : option Q := finite (a - b).
Definition mul (a b : Q) : option Q := finite (a * b).
Definition div (a b : Q) : option Q :=
  if Qeq_bool b 0 then None else finite (a / b).

(** A decimal literal denotes the double nearest to it. *)
Definition literal (q : Q) : Q := rnd q.

(** [Math.floor] and [Math.round] of a finite double are exact. *)
Definition floor (x : Q) : Q := inject_Z (JsMath.floor x).
Definition round (x : Q) : Q := inject_Z (JsMath.round x).

(** [Math.max(0, x)] *)
Definition max0 (x : Q) : Q := if Qle_bool 0 x then x else 0.

(** A computation goes on while its values are finite numbers. *)
Definition bind (A B : Type) (x : option A) (f : A -> option B) : option B :=
  match x with
  | Some a => f a
  | None => None
  end.

Notation "x <- e1 ;; e2" := (bind e1 (fun x => e2))
  (at level 61, e1 at next level, right associativity).

(** The literal [1e-8]. *)
Definition eps : Q := literal (1 # 100000000).

(** [Math.floor(value * 100 + 1e-8) / 100] *)
Definition truncateToTwoDecimals (value : Q) : option Q :=
  cents <- mul value 100 ;;
  nudged <- add cents eps ;;
  div (floor nudged) 100.

(** [Math.round(value * 100 + 1e-8) / 100] *)
Definition roundToTwoDecimals (value : Q) : option Q :=
  cents <- mul value 100 ;;
  nudged <- add cents eps ;;
  div (round nudged) 100.

(** The object [{ twenties, tens, fives, ones }], each a number. *)
Record Notes : Type := mkNotes {
  twenties : Q;
  tens : Q;
  fives : Q;
  ones : Q
}.

(** The counts of [b], as numbers. *)
Definition ofBills (b : Bills) : Notes :=
  match b with
  | mkBills t te f o =>
      mkNotes (inject_Z t) (inject_Z te) (inject_Z f) (inject_Z o)
  end.

(** [breakdownBills]: every [/], [*] and [-] of the source in its order.
    [None]: one of the four counts is not a finite number. *)
Definition breakdownBills (amountWholeDollars : Q) : option Notes :=
  let remaining := max0 (floor amountWholeDollars) in
  q <- div remaining 20 ;;
  let twenties := floor q in
  p <- mul twenties 20 ;;
  remaining <- sub remaining p ;;
  q <- div remaining 10 ;;
  let tens := floor q in
  p <- mul tens 10 ;;
  remaining <- sub remaining p ;;
  q <- div remaining 5 ;;
  let fives := floor q in
  p <- mul fives 5 ;;
  remaining <- sub remaining p ;;
  let ones := remaining in
  Some (mkNotes twenties tens fives ones).

(** [runCalculations] up to the truncated hourly rate: the two alerts, the
    total hours, the raw rate and the truncated one.  [NotFinite]: one of
    these values is not a finite number. *)
Inductive RateOutcome : Type :=
| AlertInvalidTotalTips
| AlertInvalidTotalHours
| NotFinite
| Rate (totalHours hourlyRateRaw hourlyRateTruncated : Q).

(** [partners.reduce((sum, p) => isFinite(h) ? sum + h : sum, 0)] *)
Definition totalHours (partners : list Partner) : option Q :=
  fold_left (fun sum p =>
               match p_hours p with
               | Some h => s <- sum ;; add s h
               | None => sum
               end) partners (Some 0).

Definition hourlyRate (totalTipsVal : option Q) (partners : list Partner)
  : RateOutcome :=
  match totalTipsVal with
  | None => AlertInvalidTotalTips
  | Some tips =>
      if JsMath.leb tips 0 then AlertInvalidTotalTips
      else
        match totalHours partners with
        | None => NotFinite
        | Some totalHours =>
            if JsMath.leb totalHours 0 then AlertInvalidTotalHours
            else
              match div tips totalHours with
              | None => NotFinite
              | Some hourlyRateRaw =>
                  match truncateToTwoDecimals hourlyRateRaw with
                  | None => NotFinite
                  | Some hourlyRateTruncated =>
                      Rate totalHours hourlyRateRaw hourlyRateTruncated
                  end
              end
        end
  end.

(** [roundToTwoDecimals(hourlyRateTruncated * safeHours)] *)
Definition decimalTip (hourlyRateTruncated : Q) (p : Partner) : option Q :=
  rawTip <- mul hourlyRateTruncated (safeHoursOf p) ;;
  roundToTwoDecimals rawTip.

(** [sumDecimalTips += decimalTip], partner after partner. *)
Definition sumDecimalTips (hourlyRateTruncated : Q) (partners : list Partner)
  : option Q :=
  fold_left (fun sum p =>
               s <- sum ;;
               t <- decimalTip hourlyRateTruncated p ;;
               add s t) partners (Some 0).

End Float64.

(** ** Inputs used in the examples *)

Module Examples.

(** Two whole numbers of dollars beyond [2^53], both of them doubles, over
    the floats of the machine and as numbers. *)
Definition twoTo56 : Z := 2 ^ 56.
Definition tenTimesTwoTo53Plus112 : Z := 90071992547410032.
Definition twoTo56Float : float :=
  PrimFloat.mul (Binary64.ofZ (2 ^ 52)) (Binary64.ofZ 16).
Definition tenTimesTwoTo53Plus112Float : float :=
  PrimFloat.mul (Binary64.ofZ 5629499534213127) (Binary64.ofZ 16).

(** [2^1023], the largest power of two among the doubles. *)
Definition twoTo1023Float : float :=
  SF2Prim (S754_finite false (2 ^ 52)%positive 971).

(** The two partners of the worked example, their hours as the doubles the
    machine holds. *)
Definition examplePartnersAsDoubles : list Partner :=
  [ mkPartner 1 "" "" (Some (Float64.literal 9.22));
    mkPartner 2 "" "" (Some (Float64.literal 18.48)) ].

(** Thirty cents for a single partner with three hours. *)
Definition threeHourPartner : list Partner := [ mkPartner 1 "" "" (Some 3) ].

(** The two partners of the worked example of the specification. *)
Definition examplePartners : list Partner :=
  [ mkPartner 1 "" "" (Some 9.22); mkPartner 2 "" "" (Some 18.48) ].

(** Their results for $40.00, as [runCalculations] leaves them. *)
Definition exampleResults : list CalcResult :=
  [ mkCalcResult "A" "" 9.22 13.28 13 (mkBills 0 1 0 3);
    mkCalcResult "B" "" 18.48 26.61 27 (mkBills 1 0 1 2) ].

(** Total tips a hair under one dollar, for a single hour worked. *)
Definition overAllocatingTips : Q := 99999999995 # 100000000000.

Definition oneHourPartner : list Partner := [ mkPartner 1 "" "" (Some 1) ].

(** Three cents for two partners with an hour and a half each. *)
Definition halfCentPartners : list Partner :=
  [ mkPartner 1 "" "" (Some 1.5); mkPartner 2 "" "" (Some 1.5) ].

Definition annHalf : OcrPartner := mkOcrPartner "Ann" "" 1.

(** A metadata token whose halves are brought together by one pass. *)
Definition nestedStoreNumber : string := "Store Store Number 1 Number 2".

(** A report line with its header. *)
Definition headedLine : string := "Store Number: 69600  John   Doe 5.0".

(** Lines of the three numbered formats whose hours are out of range. *)
Definition implausibleLine : string := "69600 Doe, Jane US37008498 250.5".
Definition zeroHoursLine : string := "69600 Doe, Jane US37008498 0".
Definition noStoreLine : string := "Doe, Jane US37008498 250.5".
Definition numericIdLine : string := "Doe, Jane 1234567 999".

End Examples.

(** * Further code of the tool *)

(** ** What a redistribution leaves a partner with *)

(** The partner got the notes of the original breakdown and the whole
    payout. *)
Definition servedInFull (out : Redistributed) : Prop :=
  rd_breakdown out = breakdown (rd_partner out)
  /\ adjustedPayout out = wholeDollarPayout (rd_partner out).


(** ** Characters of a name *)

(** An ASCII letter, capital or small. *)
Definition isAsciiLetter (c : ascii) : bool :=
  let n := JsString.code c in
  (((65 <=? n) && (n <=? 90)) || ((97 <=? n) && (n <=? 122)))%N.

(** Every character of the string satisfies [f]. *)
Fixpoint allChars (f : ascii -> bool) (s : string) : bool :=
  match s with
  | EmptyString => true
  | String c s' => f c && allChars f s'
  end.

(** ** What [addEntry] compares *)

(** [name.toLowerCase().trim()], the text by which [addEntry] tells that a
    record is there already. *)
Definition entryKey (p : OcrPartner) : string :=
  JsString.trim (JsString.toLowerCase (o_name p)).

(** The invariant of the array [parsed]: no two records with the same text,
    and no name of fewer than two characters. *)
Definition distinctEntries (parsed : list OcrPartner) : Prop :=
  NoDup (map entryKey parsed)
  /\ Forall (fun p => (2 <= String.length (o_name p))%nat) parsed.

(** ** The editable partner table of the main script

    The module variables [partners] and [nextPartnerId] and the handlers
    that change them.  A handler reads the row id off the table row that
    the event came from and the text off the input; what [parseFloat] made
    of the text of an hours input is passed in. *)

Module PartnerTable.

Record State : Type := mkState {
  partners : list Partner;
  nextPartnerId : Z
}.

(** [let partners = []; let nextPartnerId = 1;] *)
Definition initial : State := mkState [] 1%Z.

Definition addEmptyPartnerRow (st : State) : State :=
  mkState (partners st
           ++ [mkPartner (nextPartnerId st) EmptyString EmptyString (Some 0)])
          (nextPartnerId st + 1)%Z.

(** [partners = parsed.map((p) => ({ id: nextPartnerId++, ... }))] *)
Fixpoint assignIds (parsed : list OcrPartner) (next : Z) : list Partner * Z :=
  match parsed with
  | [] => ([], next)
  | p :: rest =>
      let '(rows, next') := assignIds rest (next + 1)%Z in
      (mkPartner next (o_name p) (o_number p) (Some (o_hours p)) :: rows, next')
  end.

(** What [handleImageUpload] and [handleParseTextToTable] do with the
    records of [parseOcrToPartners]: nothing when there are none. *)
Definition loadParsed (st : State) (parsed : list OcrPartner) : State :=
  match parsed with
  | [] => st
  | _ => let '(rows, next) := assignIds parsed (nextPartnerId st) in
         mkState rows next
  end.

(** The field of the input and what was typed: for the hours, the value of
    [parseFloat(input.value)]. *)
Inductive Edit : Type :=
| EditName (value : string)
| EditNumber (value : string)
| EditHours (v : option Q)
| EditOther.

(** [isFinite(v) && v >= 0 ? v : 0] *)
Definition hoursOfInput (v : option Q) : Q :=
  match v with
  | Some x => if JsMath.leb 0 x then x else 0
  | None => 0
  end.

Definition applyEdit (e : Edit) (partner : Partner) : Partner :=
  match e with
  | EditName value =>
      mkPartner (p_id partner) value (p_number partner) (p_hours partner)
  | EditNumber value =>
      mkPartner (p_id partner) (p_name partner) value (p_hours partner)
  | EditHours v =>
      mkPartner (p_id partner) (p_name partner) (p_number partner)
                (Some (hoursOfInput v))
  | EditOther => partner
  end.

(** The assignment to a field of [partners.find((p) => p.id === id)], the
    first row with the id; nothing happens when there is none. *)
Fixpoint editFirst (id : Z) (e : Edit) (rows : list Partner) : list Partner :=
  match rows with
  | [] => []
  | p :: rest => if (p_id p =? id)%Z then applyEdit e p :: rest
                 else p :: editFirst id e rest
  end.

Definition handlePartnerInputChange (st : State) (id : Z) (e : Edit) : State :=
  mkState (editFirst id e (partners st)) (nextPartnerId st).

(** [partners = partners.filter((p) => p.id !== id)] *)
Definition handleDeletePartner (st : State) (id : Z) : State :=
  mkState (filter (fun p => negb (p_id p =? id)%Z) (partners st))
          (nextPartnerId st).

(** The click on "clear table": [partners = []]. *)
Definition clearTable (st : State) : State := mkState [] (nextPartnerId st).

(** What the user and the OCR can do to the table. *)
Inductive Action : Type :=
| AddRow
| ClearTable
| DeleteRow (id : Z)
| ChangeInput (id : Z) (e : Edit)
| LoadParsed (parsed : list OcrPartner).

Definition step (st : State) (a : Action) : State :=
  match a with
  | AddRow => addEmptyPartnerRow st
  | ClearTable => clearTable st
  | DeleteRow id => handleDeletePartner st id
  | ChangeInput id e => handlePartnerInputChange st id e
  | LoadParsed parsed => loadParsed st parsed
  end.

(** The page starts with one blank row. *)
Definition onLoad : State := addEmptyPartnerRow initial.

Definition run (actions : list Action) : State := fold_left step actions onLoad.

(** Every row has its own id, given out before [nextPartnerId], and hours
    that are a finite number. *)
Definition wellFormed (st : State) : Prop :=
  NoDup (map p_id (partners st))
  /\ Forall (fun p => (1 <= p_id p < nextPartnerId st)%Z
                      /\ exists h, p_hours p = Some h) (partners st).

End PartnerTable.

(** ** HTML escaping *)

Module Html.

Import Regex.

Local Open Scope string_scope.

Definition quot : ascii := "034"%char.
Definition apos : ascii := "039"%char.

(** [s.replace(/c/g, by)] for a pattern that is one literal character. *)
Definition replaceChar (c : ascii) (by_ : string) (s : string) : string :=
  replaceAll false (Chr (One (IChar c))) by_ s.

(** [None] is [null] or [undefined]; the callers pass strings otherwise. *)
Definition escapeHtml (str : option string) : string :=
  match str with
  | None => ""
  | Some s =>
      replaceChar apos "&#039;"
        (replaceChar quot "&quot;"
           (replaceChar ">" "&gt;"
              (replaceChar "<" "&lt;"
                 (replaceChar "&" "&amp;" s))))
  end.

Definition escapeHtmlAttr (str : option string) : string :=
  replaceChar quot "&quot;" (escapeHtml str).

(** What one character becomes. *)
Definition escapeChar (c : ascii) : string :=
  if Ascii.eqb c "&" then "&amp;"
  else if Ascii.eqb c "<" then "&lt;"
  else if Ascii.eqb c ">" then "&gt;"
  else if Ascii.eqb c quot then "&quot;"
  else if Ascii.eqb c apos then "&#039;"
  else String c "".

(** The characters that end text or an attribute value in HTML. *)
Definition isMarkup (c : ascii) : bool :=
  Ascii.eqb c "<" || Ascii.eqb c ">" || Ascii.eqb c quot || Ascii.eqb c apos.

Fixpoint concatMap (f : ascii -> string) (s : string) : string :=
  match s with
  | EmptyString => EmptyString
  | String c s' => f c ++ concatMap f s'
  end.

End Html.

(** ** Replacing the first match *)

Module RegexFirst.

Import Regex.

(** [s.replace(re, by)] for a pattern without the [g] flag and a
    replacement without [$]: the first match only. *)
Definition replaceFirst (ci : bool) (r : re) (by_ : string) (s : string)
  : string :=
  match searchFrom ci r 0 s with
  | Some (start, e, _) => (substring 0 start s ++ by_ ++ drop e s)%string
  | None => s
  end.


End RegexFirst.

(** ** Extraction in the two-period dashboard ([holiday-dashboard.js]) *)

(** What the layout analysis returns, as far as the extraction reads it:
    [cell.content] may be missing, [table.cells] and [table.rowCount] default
    to nothing, [analyzeResult.tables] to no table and [content] to the
    empty text. *)
Record Cell : Type := mkCell {
  rowIndex : nat;
  columnIndex : nat;
  cellContent : option string
}.

Record LayoutTable : Type := mkLayoutTable {
  cells : list Cell;
  rowCount : nat
}.


Module Dashboard.

Import Regex RegexFirst.

Local Open Scope string_scope.

(** [\d{1,2}-\d{1,2}-\d{2,4}] *)
Definition dashDate : re :=
  Cat [between 1 2 digit; lit "-"; between 1 2 digit; lit "-";
       between 2 4 digit].

(** [\d{4}-\d{2}-\d{2}] *)
Definition isoDate : re :=
  Cat [times 4 digit; lit "-"; times 2 digit; lit "-"; times 2 digit].

(** The range of two days: [\d{1,2}\/\d{1,2}], [\s*], a hyphen or a dash,
    [\s*], [\d{1,2}\/\d{1,2}]; the en dash and the em dash of the class are
    code units above 255. *)
Definition dayRange : re :=
  Cat [between 1 2 digit; lit "/"; between 1 2 digit; star space;
       Chr (OneOf [IChar "-"]); star space;
       between 1 2 digit; lit "/"; between 1 2 digit].

(** [\d{1,2}:\d{2}(:\d{2})?\s*(AM|PM)?] with the flags [gi]; the groups
    are not read. *)
Definition timeStamp : re :=
  Cat [between 1 2 digit; lit ":"; times 2 digit;
       opt (Seq (lit ":") (times 2 digit)); star space;
       opt (Alt (lit "AM") (lit "PM"))].

(** The class of the prefix symbols, [~=\-_*#@!$%^&+]. *)
Definition prefixSymbols : list citem :=
  [IChar "~"; IChar "="; IChar "-"; IChar "_"; IChar "*"; IChar "#";
   IChar "@"; IChar "!"; IChar "$"; IChar "%"; IChar "^"; IChar "&";
   IChar "+"].

(** The prefix symbols at the start of the text. *)
Definition leadingSymbols : re := Seq Bol (plus (Chr (OneOf prefixSymbols))).

Definition cleanPartnerName (name : string) : string :=
  if negb (JsString.truthy name) then ""
  else
    let cleaned := replaceAll false Ocr.slashDate "" name in
    let cleaned := replaceAll false dashDate "" cleaned in
    let cleaned := replaceAll false isoDate "" cleaned in
    let cleaned := replaceAll false dayRange "" cleaned in
    let cleaned := replaceAll true timeStamp "" cleaned in
    let cleaned := replaceFirst false leadingSymbols "" cleaned in
    JsString.trim (replaceAll false Ocr.reSpaces " " cleaned).

(** [(cell.content || '').trim()] *)
Definition cellText (cell : Cell) : string :=
  match cellContent cell with
  | Some t => JsString.trim t
  | None => ""
  end.

(** The state of the loop over the cells of a row: [name], [hours] and
    [number]. *)
Definition cellStep (st : string * Q * string) (cell : Cell)
  : string * Q * string :=
  let '(name, hours, number) := st in
  let text := cellText cell in
  if test false Ocr.reDecimal text then
    match JsParse.parseFloat text with
    | Some val =>
        if JsMath.gtb val 0 && JsMath.ltb val 200
        then (name, val, number) else st
    | None => st
    end
  else if test true Ocr.reUsNumber text || test false Ocr.reSixDigits text
  then (name, hours, text)
  else if (2 <? String.length text)%nat
          && negb (test false Ocr.reDigits text)
          && negb (JsString.includes (JsString.toLowerCase text) "total")
          && negb (JsString.includes (JsString.toLowerCase text) "partner")
  then if negb (JsString.truthy name)
       then (cleanPartnerName text, hours, number) else st
  else st.

(** [rowCells.sort((a, b) => a.columnIndex - b.columnIndex)] *)
Definition byColumn (a b : Cell) : Z :=
  (Z.of_nat (columnIndex a) - Z.of_nat (columnIndex b))%Z.

(** The body of the loop over the data rows of a table. *)
Definition rowStep (tableCells : list Cell) (partners : list OcrPartner)
           (rowIdx : nat) : list OcrPartner :=
  let rowCells := filter (fun c => Nat.eqb (rowIndex c) rowIdx) tableCells in
  if (List.length rowCells <? 2)%nat then partners
  else
    let rowCells := jsSort byColumn rowCells in
    let '(name, hours, number) := fold_left cellStep rowCells ("", 0, "") in
    if JsString.truthy name && JsMath.gtb hours 0
    then (partners ++ [mkOcrPartner name number hours])%list
    else partners.




(** [/^\d{5}\s+/] *)
Definition storePrefix : re := Cat [Bol; times 5 digit; plus space].



(** [handleCalculate]: the alerts, or the rates handed to
    [calculateHolidaySplitTips].  The tips are what
    [parseFloat(input.value) || 0] gave. *)
Inductive CalculateOutcome : Type :=
| AlertNoReport
| AlertNoTips
| Rates (normalHourlyRate holidayHourlyRate : Q).

(** [partners.reduce((sum, p) => sum + (p.hours || 0), 0)] *)
Definition totalHoursOf (partners : list OcrPartner) : Q :=
  fold_left (fun sum p => sum + o_hours p) partners 0.

Definition handleCalculate (normalReportPartners holidayReportPartners
                              : list OcrPartner)
           (normalTipsVal holidayTipsVal : Q) : CalculateOutcome :=
  if Nat.eqb (List.length normalReportPartners) 0
     && Nat.eqb (List.length holidayReportPartners) 0
  then AlertNoReport
  else if JsMath.leb normalTipsVal 0 && JsMath.leb holidayTipsVal 0
  then AlertNoTips
  else
    let normalTotalHours := totalHoursOf normalReportPartners in
    let holidayTotalHours := totalHoursOf holidayReportPartners in
    Rates (if JsMath.gtb normalTotalHours 0
           then normalTipsVal / normalTotalHours else 0)
          (if JsMath.gtb holidayTotalHours 0
           then holidayTipsVal / holidayTotalHours else 0).

End Dashboard.

(** ** Patterns that start on a digit *)



(** ** Extraction in the module that pairs the records with [matchPartners] *)

Module Automation.

Import Regex RegexFirst.

Local Open Scope string_scope.

(** [\d{2}:\d{2}(:\d{2})?]; the group is not read. *)
Definition clockTime : re :=
  Cat [times 2 digit; lit ":"; times 2 digit;
       opt (Seq (lit ":") (times 2 digit))].

(** [/^[~=\-\s]+/] *)
Definition leadingSymbols : re :=
  Seq Bol (plus (Chr (OneOf [IChar "~"; IChar "="; IChar "-"; ISpace]))).

Definition cleanPartnerName (name : string) : string :=
  if negb (JsString.truthy name) then ""
  else
    let name := replaceFirst false Dashboard.storePrefix "" name in
    let name := replaceAll false Ocr.slashDate "" name in
    let name := replaceAll false clockTime "" name in
    let name := replaceFirst false leadingSymbols "" name in
    JsString.trim (replaceAll false Ocr.reSpaces " " name).

(** [(cell.content || '')] *)
Definition contentOf (cell : Cell) : string :=
  match cellContent cell with
  | Some t => t
  | None => ""
  end.

(** The three column indices, [None] for [-1]. *)
Definition Columns : Type := (option nat * option nat * option nat)%type.

Definition unset (col : option nat) : bool :=
  match col with None => true | Some _ => false end.

(** The body of the loop over the cells of the header row. *)
Definition headerStep (cols : Columns) (cell : Cell) : Columns :=
  let '(nameCol, hoursCol, numberCol) := cols in
  let text := JsString.toLowerCase (contentOf cell) in
  let nameCol :=
    if JsString.includes text "name" && unset nameCol
    then Some (columnIndex cell) else nameCol in
  let hoursCol :=
    if (JsString.includes text "hours" || JsString.includes text "tippable")
       && unset hoursCol
    then Some (columnIndex cell) else hoursCol in
  let numberCol :=
    if (JsString.includes text "partner" && JsString.includes text "#")
       || JsString.includes text "number"
    then Some (columnIndex cell) else numberCol in
  (nameCol, hoursCol, numberCol).

Definition isColumn (col : option nat) (cell : Cell) : bool :=
  match col with
  | Some c => Nat.eqb (columnIndex cell) c
  | None => false
  end.

(** [/[^0-9.]/g] *)
Definition reNotDigitOrDot : re := Chr (NoneOf [IRange "0" "9"; IChar "."]).

(** [/US\d+/i] *)
Definition reUsInside : re := Seq (lit "US") (plus digit).

(** The body of the loop over the cells of a data row; the state is
    [name], [hours] and [number]. *)
Definition cellStep (nameCol hoursCol : nat) (numberCol : option nat)
           (st : string * Q * string) (cell : Cell) : string * Q * string :=
  let '(name, hours, number) := st in
  let content := JsString.trim (contentOf cell) in
  if Nat.eqb (columnIndex cell) nameCol
  then (cleanPartnerName content, hours, number)
  else if Nat.eqb (columnIndex cell) hoursCol then
    match JsParse.parseFloat (replaceAll false reNotDigitOrDot "" content) with
    | Some parsed => (name, parsed, number)
    | None => st
    end
  else if isColumn numberCol cell then
    if test true reUsInside content || test false Ocr.reSixDigits content
    then (name, hours, content) else st
  else st.

Definition rowStep (tableCells : list Cell) (nameCol hoursCol : nat)
           (numberCol : option nat) (partners : list OcrPartner) (row : nat)
  : list OcrPartner :=
  let rowCells := filter (fun c => Nat.eqb (rowIndex c) row) tableCells in
  let '(name, hours, number) :=
    fold_left (cellStep nameCol hoursCol numberCol) rowCells ("", 0, "") in
  if JsString.truthy name && JsMath.gtb hours 0
  then (partners ++ [mkOcrPartner name number hours])%list
  else partners.

Definition extractFromTable (table : LayoutTable) : list OcrPartner :=
  let headerCells := filter (fun c => Nat.eqb (rowIndex c) 0) (cells table) in
  let '(nameCol, hoursCol, numberCol) :=
    fold_left headerStep headerCells (None, None, None) in
  let nameCol := match nameCol with Some c => c | None => 0%nat end in
  let hoursCol := match hoursCol with Some c => c | None => 2%nat end in
  fold_left (rowStep (cells table) nameCol hoursCol numberCol)
            (seq 1 (rowCount table - 1)) [].

(** All of them carry the flag [i]. *)
Definition skipPatterns : list re :=
  [ Cat [lit "partner"; star space; lit "name"];
    Cat [lit "home"; star space; lit "store"];
    Cat [lit "tippable"; star anyChar; lit "hours"];
    Cat [lit "total"; star space; lit "tippable"];
    Cat [lit "time"; star space; lit "period"];
    lit "executed";
    Cat [lit "store"; star space; lit "number"] ].






End Automation.



(** ** Patterns between word boundaries *)

Module WordBoundary.

Import Regex.

(** A word character, [[A-Za-z0-9_]]. *)
Definition isWordChar (c : ascii) : bool :=
  isAsciiLetter c || JsString.isDigit c || Ascii.eqb c "_".

Definition wordAt (c : option ascii) : bool :=
  match c with
  | Some a => isWordChar a
  | None => false
  end.

Definition headOf (s : string) : option ascii :=
  match s with
  | String a _ => Some a
  | EmptyString => None
  end.

(** [\b] between the character [prev] and the input [rest]. *)
Definition atBoundary (prev : option ascii) (rest : string) : bool :=
  xorb (wordAt prev) (wordAt (headOf rest)).

(** The character before the position [n] characters into [s], [prev]
    being the one before [s]. *)
Definition charBefore (prev : option ascii) (s : string) (n : nat)
  : option ascii :=
  match n with
  | O => prev
  | S m => match String.get m s with
           | Some a => Some a
           | None => prev
           end
  end.

(** A match of [\b r \b] that starts at [pos], where [prev] is the
    character before and [s] the input that remains. *)
Definition execAtBounded (ci : bool) (r : re) (prev : option ascii)
           (pos : nat) (s : string) : option (nat * caps) :=
  if atBoundary prev s then
    matchRe ci r pos s []
      (fun e s' c =>
         if atBoundary (charBefore prev s (e - pos)) s'
         then Some (e, c) else None)
  else None.

(** [s.replace(/\b r \b/g, by)], as [replaceLoop] with the character before
    the position carried along. *)
Fixpoint replaceLoopBounded (fuel : nat) (ci : bool) (r : re) (by_ : string)
         (prev : option ascii) (pos : nat) (s : string) : string :=
  match fuel with
  | O => s
  | S fuel' =>
      match execAtBounded ci r prev pos s with
      | Some (e, _) =>
          if Nat.eqb e pos then
            match s with
            | EmptyString => by_
            | String a s' =>
                (by_ ++ String a (replaceLoopBounded fuel' ci r by_ (Some a)
                                                      (S pos) s'))%string
            end
          else (by_ ++ replaceLoopBounded fuel' ci r by_
                         (charBefore prev s (e - pos)) e
                         (drop (e - pos) s))%string
      | None =>
          match s with
          | EmptyString => EmptyString
          | String a s' =>
              String a (replaceLoopBounded fuel' ci r by_ (Some a) (S pos) s')
          end
      end
  end.

Definition replaceAllBounded (ci : bool) (r : re) (by_ : string) (s : string)
  : string :=
  replaceLoopBounded (S (String.length s)) ci r by_ None 0 s.

End WordBoundary.

(** ** Extraction from the cells of a layout table (main script) *)

Module TableExtract.

Import Regex RegexFirst WordBoundary.

Local Open Scope string_scope.

(** [\d{1,2}:\d{2}(:\d{2})?\s*(AM|PM|am|pm)?], to stand between word
    boundaries; the groups are not read. *)
Definition clockTime : re :=
  Cat [between 1 2 digit; lit ":"; times 2 digit;
       opt (Seq (lit ":") (times 2 digit)); star space;
       opt (Alt (lit "AM") (Alt (lit "PM") (Alt (lit "am") (lit "pm"))))].

(** [alternatives.join('|')] in a group. *)
Fixpoint anyOf (words : list string) : re :=
  match words with
  | [] => Eps
  | [w] => lit w
  | w :: rest => Alt (lit w) (anyOf rest)
  end.

(** [\s+\d{1,2},?\s*\d{2,4}], the day and the year after a month. *)
Definition dayAndYear : list re :=
  [plus space; between 1 2 digit; opt (lit ","); star space;
   between 2 4 digit].

(** The short month names, [[a-z]*], an optional full stop, day and year;
    flags [gi], between word boundaries. *)
Definition shortMonthDate : re :=
  Cat ([anyOf ["Jan"; "Feb"; "Mar"; "Apr"; "May"; "Jun"; "Jul"; "Aug";
               "Sep"; "Oct"; "Nov"; "Dec"];
        star (Chr (OneOf [IRange "a" "z"])); opt (lit ".")] ++ dayAndYear).

(** The full month names, day and year; flags [gi], between word
    boundaries. *)
Definition longMonthDate : re :=
  Cat (anyOf ["January"; "February"; "March"; "April"; "May"; "June";
              "July"; "August"; "September"; "October"; "November";
              "December"] :: dayAndYear).

Definition cleanPartnerName (name : string) : string :=
  if negb (JsString.truthy name) then ""
  else
    let cleaned := replaceAllBounded false Table.dayFirstDate "" name in
    let cleaned := replaceAll false Table.dateRange "" cleaned in
    let cleaned := replaceAllBounded false clockTime "" cleaned in
    let cleaned := replaceAllBounded false Table.yearFirstDate "" cleaned in
    let cleaned := replaceAllBounded true shortMonthDate "" cleaned in
    let cleaned := replaceAllBounded true longMonthDate "" cleaned in
    let cleaned :=
      replaceFirst false (Seq Bol (plus Table.prefixSymbol)) "" cleaned in
    let cleaned :=
      replaceFirst false (Seq (plus Table.prefixSymbol) Eol) "" cleaned in
    JsString.trim (replaceAll false Ocr.reSpaces " " cleaned).

(** A [Map] from column index to cell text, in insertion order. *)
Definition RowCells : Type := list (nat * string).

Fixpoint rowGet (col : nat) (row : RowCells) : option string :=
  match row with
  | [] => None
  | (c, v) :: rest => if Nat.eqb c col then Some v else rowGet col rest
  end.

(** [row.set(col, v)]: a present key keeps its place. *)
Fixpoint rowSet (col : nat) (v : string) (row : RowCells) : RowCells :=
  match row with
  | [] => [(col, v)]
  | (c, w) :: rest => if Nat.eqb c col then (c, v) :: rest
                      else (c, w) :: rowSet col v rest
  end.

(** [(cell.content || '').trim()] *)
Definition cellText (cell : Cell) : string :=
  match cellContent cell with
  | Some t => JsString.trim t
  | None => ""
  end.

(** [cellsByRow.get(rowIndex)]: [None] when no cell has the row index,
    otherwise the map of the trimmed contents of the cells of that row. *)
Definition rowCellsOf (tableCells : list Cell) (row : nat) : option RowCells :=
  match filter (fun c => Nat.eqb (rowIndex c) row) tableCells with
  | [] => None
  | rowCells =>
      Some (fold_left (fun m c => rowSet (columnIndex c) (cellText c) m)
                      rowCells [])
  end.

(** [rowCells.get(col) || dflt] *)
Definition getOr (dflt : string) (col : nat) (row : RowCells) : string :=
  match rowGet col row with
  | Some v => if JsString.truthy v then v else dflt
  | None => dflt
  end.

(** The column map: [None] for [-1]. *)
Record ColumnMap : Type := mkColumnMap {
  nameCol : option nat;
  numberCol : option nat;
  hoursCol : option nat;
  storeCol : option nat
}.

Definition hasRequiredFields (m : ColumnMap) : bool :=
  match nameCol m, hoursCol m with
  | Some _, Some _ => true
  | _, _ => false
  end.

(** [col >= 0 ? (rowCells.get(col) || dflt) : dflt] *)
Definition field (col : option nat) (dflt : string) (row : RowCells) : string :=
  match col with
  | Some c => getOr dflt c row
  | None => dflt
  end.

Definition extractPartner (m : ColumnMap) (rowCells : RowCells) : Table.Row :=
  let name := field (nameCol m) "" rowCells in
  let number := field (numberCol m) "" rowCells in
  let hoursStr := field (hoursCol m) "0" rowCells in
  let store := field (storeCol m) "" rowCells in
  let hours := Table.parseHoursValue hoursStr in
  Table.mkRow (cleanPartnerName (JsString.trim name)) (JsString.trim number)
              hours (JsString.trim store).

(** [(number|#|no\.?|num)] *)
Definition numberWord : re :=
  Alt (lit "number") (Alt (lit "#") (Alt (Seq (lit "no") (opt (lit ".")))
                                         (lit "num"))).

(** All the header patterns carry the flag [i], but for the last number
    pattern, which holds no letter. *)
Definition namePatterns : list re :=
  [ Cat [lit "partner"; star space; lit "name"];
    Cat [Bol; lit "name"; Eol];
    Cat [lit "employee"; star space; lit "name"];
    lit "barista";
    Seq (lit "partner") Eol ].

Definition numberPatterns : list re :=
  [ Cat [lit "partner"; star space; numberWord];
    Cat [Bol; Alt (lit "number") (Alt (lit "#") (lit "id")); Eol];
    Cat [lit "employee"; star space;
         Alt (lit "number") (Alt (lit "#") (lit "id"))];
    Cat [lit "partner"; star space; lit "id"];
    Cat [Bol; lit "#"; Eol] ].

Definition hoursPatterns : list re :=
  [ Cat [lit "tippable"; star space; lit "hours"];
    Cat [lit "total"; star space; lit "tippable"];
    lit "hours";
    Cat [Bol; lit "hrs"; Eol];
    lit "worked";
    lit "time" ].

Definition storePatterns : list re :=
  [ Cat [lit "home"; star space; lit "store"];
    Cat [lit "store"; star space; opt numberWord];
    lit "location";
    Cat [Bol; lit "store"; Eol] ].

(** A column that is still [-1] becomes the index of the header that one
    of the patterns matches. *)
Definition detect (patterns : list re) (col : option nat) (colIndex : nat)
           (headerText : string) : option nat :=
  match col with
  | Some _ => col
  | None => if existsb (fun pattern => test true pattern headerText) patterns
            then Some colIndex else None
  end.

(** The body of the loop over the entries of the header row. *)
Definition headerStep (m : ColumnMap) (entry : nat * string) : ColumnMap :=
  let '(colIndex, headerText) := entry in
  mkColumnMap (detect namePatterns (nameCol m) colIndex headerText)
              (detect numberPatterns (numberCol m) colIndex headerText)
              (detect hoursPatterns (hoursCol m) colIndex headerText)
              (detect storePatterns (storeCol m) colIndex headerText).

Definition detectColumnHeaders (headerRow : option RowCells) : ColumnMap :=
  match headerRow with
  | None => mkColumnMap None None None None
  | Some row => fold_left headerStep row (mkColumnMap None None None None)
  end.

(** The three arrangements tried for one row when no header was found. *)
Definition fixedColumnsRow (rowCells : RowCells) : option Table.Row :=
  let first :=
    Table.mkRow (cleanPartnerName (getOr "" 1 rowCells)) (getOr "" 2 rowCells)
                (Table.parseHoursValue (getOr "0" 3 rowCells))
                (getOr "" 0 rowCells) in
  if Table.isValidPartnerEntry first then Some first
  else
    let second :=
      Table.mkRow (cleanPartnerName (getOr "" 0 rowCells))
                  (getOr "" 1 rowCells)
                  (Table.parseHoursValue (getOr "0" 2 rowCells)) "" in
    if Table.isValidPartnerEntry second then Some second
    else
      let third :=
        Table.mkRow (cleanPartnerName (getOr "" 0 rowCells)) ""
                    (Table.parseHoursValue (getOr "0" 1 rowCells)) "" in
      if Table.isValidPartnerEntry third then Some third else None.

(** The rows [1 .. rowCount - 1] that have cells. *)
Definition dataRows (table : LayoutTable) : list RowCells :=
  flat_map (fun row => match rowCellsOf (cells table) row with
                       | Some rowCells => [rowCells]
                       | None => []
                       end)
           (seq 1 (rowCount table - 1)).

Definition keepSome (A : Type) (o : option A) : list A :=
  match o with Some x => [x] | None => [] end.

Definition extractWithFixedColumns (table : LayoutTable) : list Table.Row :=
  flat_map (fun rowCells => keepSome (fixedColumnsRow rowCells))
           (dataRows table).

(** What one table adds to [partners]. *)
Definition extractFromTable (table : LayoutTable) : list Table.Row :=
  let columnMap := detectColumnHeaders (rowCellsOf (cells table) 0) in
  if negb (hasRequiredFields columnMap) then extractWithFixedColumns table
  else
    flat_map (fun rowCells =>
                let partner := extractPartner columnMap rowCells in
                if Table.isValidPartnerEntry partner then [partner] else [])
             (dataRows table).


End TableExtract.

(** ** Further inputs used in the examples *)

Module MoreExamples.

Local Open Scope string_scope.


End MoreExamples.

(** ** Where the result of a matcher comes from *)

(** Whatever the matcher returns, its continuation returned, called at a
    position that is not before the one the matcher started from. *)
Definition fromCont (R : Type)
           (m : nat -> string -> Regex.caps -> Regex.cont R -> option R)
  : Prop :=
  forall pos s c (k : Regex.cont R) x,
    m pos s c k = Some x ->
    exists pos' s' c', (pos <= pos')%nat /\ k pos' s' c' = Some x.

(** The text starts with a digit. *)
Definition digitFirst (s : string) : bool :=
  match s with
  | String a _ => JsString.isDigit a
  | EmptyString => false
  end.

(** ** Tables filled by the OCR and by hand *)

(** Records that are loaded into the table come from [parseOcrToPartners]. *)
Definition loadsFromOcr (a : PartnerTable.Action) : Prop :=
  match a with
  | PartnerTable.LoadParsed parsed =>
      exists text, parsed = Ocr.parseOcrToPartners text
  | _ => True
  end.

(** The hours of the row are a finite number that is not negative. *)
Definition hoursNotNegative (p : Partner) : Prop :=
  exists h, p_hours p = Some h /\ 0 <= h.

(** * Properties *)

Import Examples.

Unset Implicit Arguments.


(** ** Bill breakdown *)

Lemma floor_div_pos (a : Z) (b : positive) :
  JsMath.floor (inject_Z a / inject_Z (Zpos b)) = (a / Zpos b)%Z.
Proof.
  unfold JsMath.floor, Qdiv, Qmult, Qinv, inject_Z, Qfloor; simpl.
  now rewrite Z.mul_1_r.
Qed.

Lemma floor_inject_Z (n : Z) : JsMath.floor (inject_Z n) = n.
Proof. unfold JsMath.floor. apply Qfloor_Z. Qed.

(** The four counts as integer quotients and remainders of the clamped
    floor of the amount. *)
Lemma breakdownBills_closed_form (x : Q) :
  let n := Z.max 0 (Qfloor x) in
  breakdownBills x =
  mkBills (n / 20) ((n mod 20) / 10) ((n mod 10) / 5) (n mod 5).
Proof.
  intro n. unfold breakdownBills, JsMath.max.
  change (JsMath.floor x) with (Qfloor x). fold n.
  change 20 with (inject_Z 20). change 10 with (inject_Z 10).
  change 5 with (inject_Z 5).
  rewrite !floor_div_pos.
  assert (Hn : (0 <= n)%Z) by (unfold n; lia).
  clearbody n.
  f_equal; Z.div_mod_to_equations; lia.
Qed.

Local Open Scope Z_scope.

(** No other way of paying [n] dollars in these notes uses fewer notes. *)
Lemma breakdownBills_fewest_notes (n t te f o : Z) :
  0 <= n -> 0 <= t -> 0 <= te -> 0 <= f -> 0 <= o ->
  20 * t + 10 * te + 5 * f + o = n ->
  billsCount (breakdownBills (inject_Z n)) <= t + te + f + o.
Proof.
  intros Hn Ht Hte Hf Ho Hsum. rewrite breakdownBills_closed_form.
  rewrite Qfloor_Z, (Z.max_r 0 n) by lia. unfold billsCount.
  cbn [twenties tens fives ones].
  Z.div_mod_to_equations. lia.
Qed.

Local Close Scope Z_scope.

(** ** The worked example of the allocator *)

(** C2.  With $40.00 and the hours 9.22 and 18.48 the allocator finds 27.70
    total hours, a raw rate of 1.4440..., the truncated rate 1.44, the tips
    13.28 and 26.61, the nearest-dollar payouts 13 and 27, and the notes
    [{0,1,0,3}] for $13 and [{1,0,1,2}] for $27. *)
Theorem allocator_worked_example :
  exists run,
    App.runCalculations (Some 40) examplePartners = Calculated run
    /\ totalHours run == 27.70
    /\ 1.4440 < hourlyRateRaw run < 1.4441
    /\ hourlyRateTruncated run == 1.44
    /\ Forall2 Qeq (map decimalTip (results run)) [13.28; 26.61]
    /\ map wholeDollarPayout (results run) = [13; 27]%Z
    /\ map breakdown (results run)
       = [ mkBills 0 1 0 3; mkBills 1 0 1 2 ].
Proof.
  eexists. split; [reflexivity|].
  repeat split; try reflexivity.
  repeat constructor; reflexivity.
Qed.

(** ** Floor and ceiling of rationals *)

Lemma floor_unique (x : Q) (z : Z) :
  inject_Z z <= x -> x < inject_Z (z + 1) -> JsMath.floor x = z.
Proof.
  intros Hlo Hhi. unfold JsMath.floor.
  pose proof (Qfloor_le x) as H1. pose proof (Qlt_floor x) as H2.
  assert (Ha : (Qfloor x < z + 1)%Z).
  { rewrite Zlt_Qlt. eapply Qle_lt_trans; eauto. }
  assert (Hb : (z < Qfloor x + 1)%Z).
  { rewrite Zlt_Qlt. eapply Qle_lt_trans; eauto. }
  lia.
Qed.

Lemma ceil_unique (x : Q) (z : Z) :
  inject_Z (z - 1) < x -> x <= inject_Z z -> JsMath.ceil x = z.
Proof.
  intros Hlo Hhi. unfold JsMath.ceil, Qceiling.
  assert (H : JsMath.floor (- x) = (- z)%Z).
  { apply floor_unique.
    - rewrite inject_Z_opp. now apply Qopp_le_compat.
    - replace (- z + 1)%Z with (- (z - 1))%Z by lia.
      rewrite inject_Z_opp. now apply Qopp_lt_compat. }
  unfold JsMath.floor in H. rewrite H. lia.
Qed.

(** ** Nearest dollar against next dollar up *)

(** On an amount of [k] cents the two policies differ exactly when the cents
    part is between 1 and 49. *)
Lemma payout_policies_on_cents (k : Z) :
  (0 < k)%Z ->
  App.wholeDollarNearest (inject_Z k / 100)
    = (k / 100 + (if (50 <=? k mod 100)%Z then 1 else 0))%Z
  /\ AppCeil.wholeDollarUp (inject_Z k / 100)
    = (k / 100 + (if (1 <=? k mod 100)%Z then 1 else 0))%Z.
Proof.
  intro Hk.
  assert (Hpos : JsMath.gtb (inject_Z k / 100) 0 = true).
  { unfold JsMath.gtb. apply negb_true_iff.
    destruct (Qle_bool (inject_Z k / 100) 0) eqn:E; [|reflexivity].
    apply Qle_bool_iff in E. exfalso.
    unfold Qle, Qdiv, Qmult, Qinv, inject_Z in E; simpl in E. lia. }
  unfold App.wholeDollarNearest, AppCeil.wholeDollarUp. rewrite Hpos.
  pose proof (Z.div_mod k 100 ltac:(lia)) as Hdm.
  pose proof (Z.mod_pos_bound k 100 ltac:(lia)) as Hr.
  set (q := (k / 100)%Z) in *. set (r := (k mod 100)%Z) in *.
  split.
  - unfold JsMath.round. apply floor_unique.
    + destruct (Z.leb_spec 50 r);
        unfold Qle, Qdiv, Qmult, Qinv, Qplus, inject_Z, JsMath.eps; simpl; lia.
    + destruct (Z.leb_spec 50 r);
        unfold Qlt, Qdiv, Qmult, Qinv, Qplus, inject_Z, JsMath.eps; simpl; lia.
  - apply ceil_unique.
    + destruct (Z.leb_spec 1 r);
        unfold Qlt, Qdiv, Qmult, Qinv, Qminus, Qplus, Qopp, inject_Z, JsMath.eps;
        simpl; lia.
    + destruct (Z.leb_spec 1 r);
        unfold Qle, Qdiv, Qmult, Qinv, Qminus, Qplus, Qopp, inject_Z, JsMath.eps;
        simpl; lia.
Qed.

(** C8.  The variants of [runCalculations] do not agree on the whole-dollar
    payout: for the tip 13.28 the one that rounds to the nearest dollar pays
    13 and the one that rounds up pays 14, as they do for the first partner
    of the worked example. *)
Theorem payout_variants_not_equal :
  (exists decimalTip : Q,
      App.wholeDollarNearest decimalTip <> AppCeil.wholeDollarUp decimalTip)
  /\ (exists run runUp,
         App.runCalculations (Some 40) examplePartners = Calculated run
         /\ AppCeil.runCalculations (Some 40) examplePartners = Calculated runUp
         /\ map wholeDollarPayout (results run) = [13; 27]%Z
         /\ map wholeDollarPayout (results runUp) = [14; 27]%Z).
Proof.
  split.
  - exists 13.28. discriminate.
  - do 2 eexists. repeat split; reflexivity.
Qed.

(** ** Rounding to the nearest double *)

Module Float64Facts.

Import Float64.

Local Open Scope Q_scope.

Lemma pow2_pos (e : Z) : 0 < pow2 e.
Proof. apply Qpower_0_lt. reflexivity. Qed.

Lemma pow2_add (a b : Z) : pow2 (a + b) == pow2 a * pow2 b.
Proof. apply Qpower_plus. discriminate. Qed.

Lemma pow2_le (a b : Z) : (a <= b)%Z -> pow2 a <= pow2 b.
Proof. intro H. apply Qpower_le_compat_l; [exact H|discriminate]. Qed.

Lemma pow2_lt (a b : Z) : (a < b)%Z -> pow2 a < pow2 b.
Proof. intro H. apply Qpower_lt_compat_l; [exact H|reflexivity]. Qed.

Lemma pow2_Z (e : Z) : (0 <= e)%Z -> pow2 e == inject_Z (2 ^ e).
Proof. intro H. symmetry. exact (Zpower_Qpower 2 e H). Qed.

Lemma pow2_lt_inv (a b : Z) : pow2 a < pow2 b -> (a < b)%Z.
Proof. intro H. apply (Qpower_lt_compat_l_inv 2); [exact H|reflexivity]. Qed.

(** [2^(ilog2 x) <= x < 2^(ilog2 x + 1)] *)
Lemma ilog2_spec (x : Q) :
  0 < x -> pow2 (ilog2 x) <= x /\ x < pow2 (ilog2 x + 1).
Proof.
  intro Hx. destruct x as [n d]. unfold ilog2. cbn [Qnum Qden].
  assert (Hn : (0 < n)%Z) by (unfold Qlt in Hx; simpl in Hx; lia).
  destruct (Z.log2_spec n Hn) as [Ha1 Ha2].
  destruct (Z.log2_spec (Zpos d) eq_refl) as [Hb1 Hb2].
  pose proof (Z.log2_nonneg n) as Ha0.
  pose proof (Z.log2_nonneg (Zpos d)) as Hb0.
  set (a := Z.log2 n) in *. set (b := Z.log2 (Zpos d)) in *.
  assert (Hxd : (n # d) * inject_Z (Zpos d) == inject_Z n).
  { unfold Qeq, Qmult, inject_Z; simpl. lia. }
  assert (Hup : (n # d) < pow2 (a - b + 1)).
  { apply (Qmult_lt_r _ _ (pow2 b) (pow2_pos b)).
    rewrite <- pow2_add. replace (a - b + 1 + b)%Z with (Z.succ a) by lia.
    apply Qle_lt_trans with ((n # d) * inject_Z (Zpos d)).
    - apply Qmult_le_l; [exact Hx|].
      rewrite pow2_Z by exact Hb0. rewrite <- Zle_Qle. exact Hb1.
    - rewrite Hxd, pow2_Z by lia. rewrite <- Zlt_Qlt. exact Ha2. }
  assert (Hlo : pow2 (a - b - 1) <= (n # d)).
  { apply (Qmult_le_r _ _ (pow2 (Z.succ b)) (pow2_pos _)).
    rewrite <- pow2_add. replace (a - b - 1 + Z.succ b)%Z with a by lia.
    apply Qle_trans with ((n # d) * inject_Z (Zpos d)).
    - rewrite Hxd, pow2_Z by lia. rewrite <- Zle_Qle. exact Ha1.
    - apply Qmult_le_l; [exact Hx|].
      rewrite pow2_Z by lia. rewrite <- Zle_Qle. lia. }
  destruct (Qle_bool (pow2 (a - b)) (n # d)) eqn:E.
  - apply Qle_bool_iff in E. split; [exact E|exact Hup].
  - split; [exact Hlo|].
    replace (a - b - 1 + 1)%Z with (a - b)%Z by lia.
    apply Qnot_le_lt. intro Hle. apply Qle_bool_iff in Hle. congruence.
Qed.

(** The nearest integer is within a half. *)
Lemma nearestEven_error (m : Q) :
  - (1 # 2) <= inject_Z (nearestEven m) - m <= 1 # 2.
Proof.
  unfold nearestEven.
  pose proof (Qfloor_le m) as Hle. pose proof (Qlt_floor m) as Hlt.
  rewrite inject_Z_plus in Hlt. change (inject_Z 1) with 1 in Hlt.
  destruct (Qcompare (m - inject_Z (Qfloor m)) (1 # 2)) eqn:E.
  - apply Qeq_alt in E. destruct (Z.even (Qfloor m)).
    + split; lra.
    + rewrite inject_Z_plus. change (inject_Z 1) with 1. split; lra.
  - apply Qlt_alt in E. split; lra.
  - apply Qgt_alt in E. rewrite inject_Z_plus. change (inject_Z 1) with 1.
    split; lra.
Qed.

Lemma nearestEven_whole (m : Q) (k : Z) :
  m == inject_Z k -> nearestEven m = k.
Proof.
  intro H. unfold nearestEven.
  assert (Hf : Qfloor m = k) by (rewrite H; apply Qfloor_Z).
  rewrite Hf.
  assert (E : Qcompare (m - inject_Z k) (1 # 2) = Lt).
  { apply Qlt_alt.
    setoid_replace (m - inject_Z k) with 0 by (rewrite H; ring).
    reflexivity. }
  now rewrite E.
Qed.

Lemma nearestEven_nonneg (m : Q) : 0 <= m -> (0 <= nearestEven m)%Z.
Proof.
  intro H. unfold nearestEven.
  assert (Hf : (0 <= Qfloor m)%Z).
  { rewrite <- (Qfloor_Z 0). now apply Qfloor_resp_le. }
  destruct (Qcompare _ _); [destruct (Z.even _)| |]; lia.
Qed.

Lemma Qabs_of_pos (x : Q) : 0 < x -> Qabs x = x.
Proof.
  destruct x as [n d]. unfold Qlt; simpl. intro H.
  unfold Qabs. f_equal. lia.
Qed.

Lemma Qeq_bool_pos (x : Q) : 0 < x -> Qeq_bool x 0 = false.
Proof.
  intro H. destruct (Qeq_bool x 0) eqn:E; [|reflexivity].
  apply Qeq_bool_iff in E. rewrite E in H. discriminate.
Qed.

(** The value of [rnd] at a positive number. *)
Lemma rnd_pos (x : Q) :
  0 < x ->
  rnd x == inject_Z (nearestEven (x / pow2 (exponent x))) * pow2 (exponent x).
Proof.
  intro H. unfold rnd. rewrite (Qeq_bool_pos x H). apply Qred_correct.
Qed.

(** Rounding moves a number by half the spacing at most. *)
Lemma rnd_error (x : Q) :
  0 < x ->
  - ((1 # 2) * pow2 (exponent x)) <= rnd x - x
  <= (1 # 2) * pow2 (exponent x).
Proof.
  intro H. rewrite (rnd_pos x H).
  set (s := pow2 (exponent x)).
  assert (Hs : 0 < s) by apply pow2_pos.
  pose proof (nearestEven_error (x / s)) as [Hlo Hhi].
  set (k := inject_Z (nearestEven (x / s))) in *.
  assert (Hx : x == (x / s) * s) by (field; lra).
  set (m := x / s) in *.
  assert (H1 : (k - m) * s <= (1 # 2) * s)
    by (apply Qmult_le_compat_r; [exact Hhi|lra]).
  assert (H2 : (- (1 # 2)) * s <= (k - m) * s)
    by (apply Qmult_le_compat_r; [exact Hlo|lra]).
  assert (E : k * s - x == (k - m) * s) by (rewrite Hx at 1; ring).
  rewrite E. set (p := (k - m) * s) in *. clearbody p. clear E Hx Hlo Hhi.
  clearbody s. split; lra.
Qed.

Lemma rnd_nonneg (x : Q) : 0 <= x -> 0 <= rnd x.
Proof.
  intro H. destruct (Qeq_bool x 0) eqn:E.
  - unfold rnd. rewrite E. apply Qle_refl.
  - assert (Hx : 0 < x).
    { apply Qle_lteq in H. destruct H as [H|H]; [exact H|].
      symmetry in H. apply Qeq_bool_iff in H. congruence. }
    rewrite (rnd_pos x Hx).
    apply Qmult_le_0_compat.
    + change 0 with (inject_Z 0). rewrite <- Zle_Qle.
      apply nearestEven_nonneg.
      apply Qle_shift_div_l; [apply pow2_pos|]. lra.
    + apply Qlt_le_weak, pow2_pos.
Qed.

(** Below [2^k] the doubles are no more than [2^(k-53)] apart. *)
Lemma exponent_below (x : Q) (k : Z) :
  0 < x -> x < pow2 k -> (-1021 <= k)%Z -> (exponent x <= k - 53)%Z.
Proof.
  intros Hx Hk Hmin. unfold exponent. rewrite (Qabs_of_pos x Hx).
  destruct (ilog2_spec x Hx) as [Hlo _].
  assert (ilog2 x < k)%Z.
  { apply pow2_lt_inv. eapply Qle_lt_trans; eassumption. }
  lia.
Qed.

Lemma rnd_error_below (x : Q) (k : Z) :
  0 < x -> x < pow2 k -> (-1021 <= k)%Z ->
  - pow2 (k - 54) <= rnd x - x <= pow2 (k - 54).
Proof.
  intros Hx Hk Hmin.
  pose proof (rnd_error x Hx) as [Hlo Hhi].
  pose proof (pow2_le _ _ (exponent_below x k Hx Hk Hmin)) as Hle.
  assert (E : pow2 (k - 53) == 2 * pow2 (k - 54)).
  { replace (k - 53)%Z with (1 + (k - 54))%Z by lia.
    rewrite pow2_add. reflexivity. }
  split; lra.
Qed.

(** A whole number up to [2^53] is a double. *)
Lemma rnd_whole (x : Q) (z : Z) :
  x == inject_Z z -> (0 <= z <= 2 ^ 53)%Z -> rnd x = inject_Z z.
Proof.
  intros Hxz Hz.
  assert (Hred : forall q, q == inject_Z z -> Qred q = inject_Z z).
  { intros q Hq. rewrite (Qred_complete _ _ Hq).
    apply Qcanon.Qred_identity. simpl. apply Z.gcd_1_r. }
  destruct (Z.eq_dec z 0) as [->|Hnz].
  { unfold rnd. assert (E : Qeq_bool x 0 = true) by now apply Qeq_bool_iff.
    now rewrite E. }
  assert (Hx : 0 < x) by (rewrite Hxz; change 0 with (inject_Z 0);
                          rewrite <- Zlt_Qlt; lia).
  unfold rnd. rewrite (Qeq_bool_pos x Hx). apply Hred.
  set (t := exponent x).
  assert (Ht : (t <= 1)%Z).
  { assert (Hk : x < pow2 54).
    { rewrite Hxz, pow2_Z by lia. rewrite <- Zlt_Qlt. lia. }
    pose proof (exponent_below x 54 Hx Hk ltac:(lia)). unfold t. lia. }
  assert (Hwhole : exists k, x / pow2 t == inject_Z k).
  { destruct (Z.le_gt_cases t 0) as [Hle|Hgt].
    - exists (z * 2 ^ (- t))%Z.
      rewrite inject_Z_mult, <- pow2_Z by lia.
      rewrite Hxz. unfold Qdiv. apply Qmult_comp; [reflexivity|].
      unfold pow2. rewrite Qpower_opp. reflexivity.
    - assert (t = 1%Z) by lia.
      assert (Hz53 : z = (2 ^ 53)%Z).
      { destruct (Z.eq_dec z (2 ^ 53)) as [E|E]; [exact E|exfalso].
        assert (Hk : x < pow2 53).
        { rewrite Hxz, pow2_Z by lia. rewrite <- Zlt_Qlt. lia. }
        pose proof (exponent_below x 53 Hx Hk ltac:(lia)). unfold t in *. lia. }
      exists (2 ^ 52)%Z. rewrite Hxz, Hz53, H. reflexivity. }
  destruct Hwhole as [k Hk].
  rewrite (nearestEven_whole _ k Hk), <- Hk, <- Hxz.
  field. pose proof (pow2_pos t). lra.
Qed.

End Float64Facts.

(** ** The bill breakdown on the machine *)

Module BreakdownFacts.

Import Float64Facts.

Local Open Scope Q_scope.

Lemma maxValue_large : inject_Z (2 ^ 53 + 1) <= Float64.maxValue.
Proof. unfold Float64.maxValue. rewrite <- Zle_Qle. vm_compute. discriminate. Qed.

Lemma finite_rnd (x : Q) :
  0 <= Float64.rnd x -> Float64.rnd x <= inject_Z (2 ^ 53 + 1) -> Float64.finite x = Some (Float64.rnd x).
Proof.
  intros H0 H1. unfold Float64.finite.
  assert (E : Qle_bool (Qabs (Float64.rnd x)) Float64.maxValue = true).
  { apply Qle_bool_iff. rewrite Qabs_pos by exact H0.
    eapply Qle_trans; [exact H1|apply maxValue_large]. }
  now rewrite E.
Qed.

(** An operation whose exact result is a whole number up to [2^53] returns
    that number. *)
Lemma finite_whole (x : Q) (z : Z) :
  x == inject_Z z -> (0 <= z <= 2 ^ 53)%Z -> Float64.finite x = Some (inject_Z z).
Proof.
  intros Hx Hz. pose proof (rnd_whole x z Hx Hz) as E.
  rewrite <- E. apply finite_rnd; rewrite E.
  - change 0 with (inject_Z 0). rewrite <- Zle_Qle. lia.
  - rewrite <- Zle_Qle. lia.
Qed.

(** The quotient of a whole number by a small divisor is rounded to a
    double with the same integer part. *)
Lemma div_floor (n d k : Z) :
  (0 <= n <= 2 ^ 53)%Z -> (0 < d)%Z -> (0 <= k)%Z ->
  (n < d * 2 ^ k)%Z -> (d * 2 ^ k < 2 ^ 54)%Z ->
  exists y,
    Float64.div (inject_Z n) (inject_Z d) = Some y /\ Float64.floor y = inject_Z (n / d).
Proof.
  intros Hn Hd Hk Hnk Hdk.
  assert (Hd0 : Qeq_bool (inject_Z d) 0 = false).
  { apply Qeq_bool_pos. change 0 with (inject_Z 0). now rewrite <- Zlt_Qlt. }
  assert (HdQ : 0 < inject_Z d)
    by (change 0 with (inject_Z 0); now rewrite <- Zlt_Qlt).
  unfold Float64.div. rewrite Hd0.
  set (x := inject_Z n / inject_Z d).
  pose proof (Z.div_mod n d ltac:(lia)) as Hdm.
  pose proof (Z.mod_pos_bound n d Hd) as Hr.
  pose proof (Z.div_pos n d ltac:(lia) Hd) as Hq0.
  assert (Hq53 : (n / d <= 2 ^ 53)%Z).
  { apply Z.le_trans with n; [|lia].
    apply Z.div_le_upper_bound; [exact Hd|]. nia. }
  assert (Hx : x == inject_Z (n / d) + inject_Z (n mod d) / inject_Z d).
  { unfold x. rewrite Hdm at 1. rewrite inject_Z_plus, inject_Z_mult.
    field. lra. }
  destruct (Z.eq_dec (n mod d) 0) as [E|E].
  - assert (Hw : x == inject_Z (n / d)).
    { rewrite Hx, E. unfold Qdiv. change (inject_Z 0) with 0. ring. }
    exists (inject_Z (n / d)). split.
    + apply finite_whole; [exact Hw|lia].
    + unfold Float64.floor, JsMath.floor. now rewrite Qfloor_Z.
  - assert (Hfrac1 : 1 <= inject_Z (n mod d))
      by (change 1 with (inject_Z 1); rewrite <- Zle_Qle; lia).
    assert (Hfrac2 : inject_Z (n mod d) <= inject_Z d - 1).
    { assert (H' : inject_Z (n mod d) <= inject_Z (d + - 1))
        by (rewrite <- Zle_Qle; lia).
      rewrite inject_Z_plus in H'.
      change (inject_Z (- 1)) with (- (1)) in H'. lra. }
    assert (Hinv : 0 < / inject_Z d) by now apply Qinv_lt_0_compat.
    assert (Hdinv : inject_Z d * / inject_Z d == 1)
      by (apply Qmult_inv_r; lra).
    set (i := / inject_Z d) in *.
    assert (Hx' : x == inject_Z (n / d) + inject_Z (n mod d) * i)
      by exact Hx.
    assert (Hlo : inject_Z (n / d) + i <= x).
    { rewrite Hx'. apply Qplus_le_r.
      setoid_replace i with (1 * i) at 1 by ring.
      apply Qmult_le_compat_r; [exact Hfrac1|lra]. }
    assert (Hhi : x <= inject_Z (n / d) + 1 - i).
    { rewrite Hx'.
      setoid_replace (inject_Z (n / d) + 1 - i)
        with (inject_Z (n / d) + (inject_Z d - 1) * i)
        by (setoid_replace ((inject_Z d - 1) * i)
              with (inject_Z d * i - i) by ring; rewrite Hdinv; ring).
      apply Qplus_le_r. apply Qmult_le_compat_r; [exact Hfrac2|lra]. }
    assert (Hxpos : 0 < x).
    { eapply Qlt_le_trans; [|exact Hlo].
      assert (0 <= inject_Z (n / d))
        by (change 0 with (inject_Z 0); rewrite <- Zle_Qle; lia).
      lra. }
    assert (Hxk : x < Float64.pow2 k).
    { unfold x. apply Qlt_shift_div_r; [exact HdQ|].
      rewrite pow2_Z by exact Hk. rewrite <- inject_Z_mult, <- Zlt_Qlt. lia. }
    pose proof (rnd_error_below x k Hxpos Hxk ltac:(lia)) as [Hel Heh].
    assert (Herr : Float64.pow2 (k - 54) < i).
    { assert (Hp : Float64.pow2 (k - 54) * Float64.pow2 54 == Float64.pow2 k).
      { rewrite <- pow2_add. now replace (k - 54 + 54)%Z with k by lia. }
      assert (Hdk' : inject_Z d * Float64.pow2 k < Float64.pow2 54).
      { rewrite !pow2_Z by lia. rewrite <- inject_Z_mult, <- Zlt_Qlt. lia. }
      apply (Qmult_lt_r _ _ (inject_Z d * Float64.pow2 54)).
      { apply Qmult_lt_0_compat; [exact HdQ|apply pow2_pos]. }
      setoid_replace (Float64.pow2 (k - 54) * (inject_Z d * Float64.pow2 54))
        with (inject_Z d * Float64.pow2 k) by (rewrite <- Hp; ring).
      setoid_replace (i * (inject_Z d * Float64.pow2 54)) with (Float64.pow2 54)
        by (setoid_replace (i * (inject_Z d * Float64.pow2 54))
              with ((inject_Z d * i) * Float64.pow2 54) by ring;
            rewrite Hdinv; ring).
      exact Hdk'. }
    set (e := Float64.pow2 (k - 54)) in *.
    set (q := inject_Z (n / d)) in *.
    exists (Float64.rnd x). split.
    + apply finite_rnd.
      * assert (0 <= q) by (unfold q; change 0 with (inject_Z 0);
                            rewrite <- Zle_Qle; lia).
        lra.
      * assert (q <= inject_Z (2 ^ 53)) by (unfold q; now rewrite <- Zle_Qle).
        rewrite inject_Z_plus. change (inject_Z 1) with 1. lra.
    + unfold Float64.floor. apply (f_equal inject_Z). apply floor_unique.
      * fold q. lra.
      * rewrite inject_Z_plus. change (inject_Z 1) with 1. fold q. lra.
Qed.

Lemma max0_floor (x : Q) :
  Float64.max0 (Float64.floor x) = inject_Z (Z.max 0 (Qfloor x)).
Proof.
  unfold Float64.max0, Float64.floor, JsMath.floor.
  destruct (Qle_bool 0 (inject_Z (Qfloor x))) eqn:E.
  - apply Qle_bool_iff in E. change 0 with (inject_Z 0) in E.
    rewrite <- Zle_Qle in E. now rewrite Z.max_r.
  - assert (H : (Qfloor x < 0)%Z).
    { apply Z.lt_nge. intro H. rewrite Zle_Qle in H.
      apply Qle_bool_iff in H. change (inject_Z 0) with 0 in H. congruence. }
    rewrite Z.max_l by lia. reflexivity.
Qed.

(** Up to [2^53] dollars the machine computes the breakdown of the exact
    arithmetic. *)
Lemma breakdownBills_exact (x : Q) :
  (Qfloor x <= 2 ^ 53)%Z ->
  Float64.breakdownBills x = Some (Float64.ofBills (breakdownBills x)).
Proof.
  intro Hx. rewrite breakdownBills_closed_form.
  unfold Float64.breakdownBills. rewrite max0_floor.
  set (n := Z.max 0 (Qfloor x)).
  assert (Hn : (0 <= n <= 2 ^ 53)%Z) by (unfold n; lia).
  clearbody n. cbn [Float64.ofBills].
  change 20 with (inject_Z 20). change 10 with (inject_Z 10).
  change 5 with (inject_Z 5).
  destruct (div_floor n 20 49 Hn) as (y1 & Hd1 & Hf1); try lia.
  rewrite Hd1. cbn [Float64.bind]. rewrite Hf1.
  unfold Float64.mul, Float64.sub.
  rewrite (finite_whole (inject_Z (n / 20) * inject_Z 20) (n / 20 * 20))
    by (try (rewrite inject_Z_mult; reflexivity);
        Z.div_mod_to_equations; lia).
  cbn [Float64.bind].
  rewrite (finite_whole (inject_Z n - inject_Z (n / 20 * 20)) (n mod 20))
    by (try (unfold Qminus; rewrite <- inject_Z_opp, <- inject_Z_plus;
             apply inject_Z_injective; Z.div_mod_to_equations; lia);
        Z.div_mod_to_equations; lia).
  cbn [Float64.bind].
  destruct (div_floor (n mod 20) 10 1) as (y2 & Hd2 & Hf2);
    try (Z.div_mod_to_equations; lia).
  rewrite Hd2. cbn [Float64.bind]. rewrite Hf2.
  rewrite (finite_whole (inject_Z (n mod 20 / 10) * inject_Z 10)
                        (n mod 20 / 10 * 10))
    by (try (rewrite inject_Z_mult; reflexivity);
        Z.div_mod_to_equations; lia).
  cbn [Float64.bind].
  rewrite (finite_whole (inject_Z (n mod 20) - inject_Z (n mod 20 / 10 * 10))
                        (n mod 10))
    by (try (unfold Qminus; rewrite <- inject_Z_opp, <- inject_Z_plus;
             apply inject_Z_injective; Z.div_mod_to_equations; lia);
        Z.div_mod_to_equations; lia).
  cbn [Float64.bind].
  destruct (div_floor (n mod 10) 5 1) as (y3 & Hd3 & Hf3);
    try (Z.div_mod_to_equations; lia).
  rewrite Hd3. cbn [Float64.bind]. rewrite Hf3.
  rewrite (finite_whole (inject_Z (n mod 10 / 5) * inject_Z 5)
                        (n mod 10 / 5 * 5))
    by (try (rewrite inject_Z_mult; reflexivity);
        Z.div_mod_to_equations; lia).
  cbn [Float64.bind].
  rewrite (finite_whole (inject_Z (n mod 10) - inject_Z (n mod 10 / 5 * 5))
                        (n mod 5))
    by (try (unfold Qminus; rewrite <- inject_Z_opp, <- inject_Z_plus;
             apply inject_Z_injective; Z.div_mod_to_equations; lia);
        Z.div_mod_to_equations; lia).
  cbn [Float64.bind]. reflexivity.
Qed.

End BreakdownFacts.

Local Open Scope Z_scope.

(** C1, as stated, fails beyond [2^53]: of [2^56] dollars, a whole number
    that is a double, the quotient by 20 is rounded up, and the notes
    returned are worth four dollars more. *)
Lemma breakdownBills_overpays_beyond_2_53 :
  0 <= twoTo56
  /\ Binary64.toQ twoTo56Float = Some (inject_Z twoTo56)
  /\ Binary64.breakdownBills twoTo56Float
     = (Binary64.ofZ 3602879701896397, Binary64.ofZ 0, Binary64.ofZ 0,
        Binary64.ofZ 0)
  /\ Float64.breakdownBills (inject_Z twoTo56)
     = Some (Float64.ofBills (mkBills 3602879701896397 0 0 0))
  /\ 20 * 3602879701896397 + 10 * 0 + 5 * 0 + 0 = twoTo56 + 4.
Proof.
  split; [discriminate|]. repeat split; vm_compute; reflexivity.
Qed.

(** C1, amended.  For every integer [n] from 0 to [2^53] the machine
    computes, without any rounding that matters, the counts of the exact
    arithmetic, and they pay [n] exactly:
    [20*twenties + 10*tens + 5*fives + ones = n], with [ones] between 0 and
    4 and [fives] and [tens] each 0 or 1.  Every count is the largest that
    fits into what is left to pay (greedy, largest note first), and no
    other counts within these ranges pay [n]. *)
Theorem breakdownBills_greedy_decomposition (n : Z) (Hn : 0 <= n <= 2 ^ 53) :
  let b := breakdownBills (inject_Z n) in
  Float64.breakdownBills (inject_Z n) = Some (Float64.ofBills b)
  /\ 20 * twenties b + 10 * tens b + 5 * fives b + ones b = n
  /\ 0 <= ones b <= 4
  /\ (fives b = 0 \/ fives b = 1)
  /\ (tens b = 0 \/ tens b = 1)
  /\ 0 <= twenties b
  /\ (20 * twenties b <= n < 20 * (twenties b + 1)
      /\ 10 * tens b <= n - 20 * twenties b < 10 * (tens b + 1)
      /\ 5 * fives b <= n - 20 * twenties b - 10 * tens b < 5 * (fives b + 1))
  /\ (forall t te f o,
         0 <= t -> 0 <= te <= 1 -> 0 <= f <= 1 -> 0 <= o <= 4 ->
         20 * t + 10 * te + 5 * f + o = n ->
         mkBills t te f o = b).
Proof.
  intro b. split.
  { apply BreakdownFacts.breakdownBills_exact. rewrite Qfloor_Z. lia. }
  subst b. rewrite breakdownBills_closed_form.
  rewrite Qfloor_Z, (Z.max_r 0 n) by lia. cbn [twenties tens fives ones].
  repeat split; try (Z.div_mod_to_equations; lia).
  intros t te f o Ht Hte Hf Ho Hsum.
  f_equal; Z.div_mod_to_equations; lia.
Qed.

Lemma breakdownBills_greedy_decomposition_witness :
  (0 <= 27 <= 2 ^ 53)
  /\ Float64.breakdownBills (inject_Z 27)
     = Some (Float64.ofBills (mkBills 1 0 1 2))
  /\ breakdownBills (inject_Z 27) = mkBills 1 0 1 2
  /\ 20 * 1 + 10 * 0 + 5 * 1 + 2 = 27.
Proof.
  assert (H27 : 0 <= 27 <= 2 ^ 53) by (split; discriminate).
  split; [exact H27|].
  pose proof (breakdownBills_greedy_decomposition 27 H27) as H.
  split; [exact (proj1 H)|]. split; [reflexivity|].
  exact (proj1 (proj2 H)).
Defined.

(** C10, as stated, fails beyond [2^53]: of 90071992547410032 dollars, a
    whole number that is a double, the machine returns minus two notes of
    ten. *)
Lemma breakdownBills_negative_count :
  Binary64.toQ tenTimesTwoTo53Plus112Float
  = Some (inject_Z tenTimesTwoTo53Plus112)
  /\ Binary64.breakdownBills tenTimesTwoTo53Plus112Float
     = (Binary64.ofZ 4503599627370502, Binary64.ofZ (- 2), Binary64.ofZ 0,
        Binary64.ofZ 4)
  /\ Float64.breakdownBills (inject_Z tenTimesTwoTo53Plus112)
     = Some (Float64.ofBills (mkBills 4503599627370502 (- 2) 0 4))
  /\ breakdownBills (inject_Z tenTimesTwoTo53Plus112)
     = mkBills 4503599627370501 1 0 2.
Proof. repeat split; vm_compute; reflexivity. Qed.

(** C10, amended.  [breakdownBills] is defined on every number [x] whose
    integer part is at most [2^53], negative and fractional ones too: the
    machine returns the greedy decomposition of [max(0, floor(x))], whose
    value it pays exactly, and all four counts are integers that are not
    negative. *)
Theorem breakdownBills_total_on_reals (x : Q) (Hx : Qfloor x <= 2 ^ 53) :
  let n := Z.max 0 (Qfloor x) in
  let b := breakdownBills x in
  Float64.breakdownBills x = Some (Float64.ofBills b)
  /\ b = breakdownBills (inject_Z n)
  /\ billsValue b = n
  /\ 0 <= twenties b /\ 0 <= tens b /\ 0 <= fives b /\ 0 <= ones b
  /\ twenties b = n / 20 /\ tens b <= 1 /\ fives b <= 1 /\ ones b <= 4.
Proof.
  intros n b. split.
  { now apply BreakdownFacts.breakdownBills_exact. }
  subst b. rewrite !breakdownBills_closed_form.
  rewrite Qfloor_Z. fold n.
  assert (Hn : 0 <= n) by (unfold n; lia).
  rewrite (Z.max_r 0 n) by lia. unfold billsValue.
  cbn [twenties tens fives ones].
  repeat split; Z.div_mod_to_equations; lia.
Qed.

Lemma breakdownBills_total_on_reals_witness :
  (Qfloor (- 7 # 2) <= 2 ^ 53)
  /\ Float64.breakdownBills (- 7 # 2)
     = Some (Float64.ofBills (mkBills 0 0 0 0))
  /\ Float64.breakdownBills (1328 # 100)
     = Some (Float64.ofBills (mkBills 0 1 0 3)).
Proof.
  assert (H1 : Qfloor (- 7 # 2) <= 2 ^ 53) by discriminate.
  assert (H2 : Qfloor (1328 # 100) <= 2 ^ 53) by discriminate.
  split; [exact H1|]. split.
  - exact (proj1 (breakdownBills_total_on_reals (- 7 # 2) H1)).
  - exact (proj1 (breakdownBills_total_on_reals (1328 # 100) H2)).
Defined.

Local Close Scope Z_scope.

(** ** The truncated hourly rate *)

Lemma leb_false_lt (a b : Q) : JsMath.leb a b = false -> b < a.
Proof.
  unfold JsMath.leb. intro H. apply Qnot_le_lt. intro Hle.
  apply Qle_bool_iff in Hle. congruence.
Qed.

Module RateFacts.

Import Float64Facts.

Local Open Scope Q_scope.

(** Rounding raises a number by a relative [2^-53] at most, or by half the
    finest spacing. *)
Lemma rnd_upper (x : Q) :
  0 <= x ->
  Float64.rnd x
  <= x * (1 + Float64.pow2 (- 53)) + Float64.pow2 (- 1075).
Proof.
  intro H0.
  pose proof (pow2_pos (- 53)) as Hu. pose proof (pow2_pos (- 1075)) as He.
  destruct (Qeq_bool x 0) eqn:E.
  { unfold Float64.rnd. rewrite E. apply Qeq_bool_iff in E.
    assert (H : x * (1 + Float64.pow2 (- 53)) == 0) by (rewrite E; ring).
    rewrite H. lra. }
  assert (Hx : 0 < x).
  { apply Qle_lteq in H0. destruct H0 as [H|H]; [exact H|].
    symmetry in H. apply Qeq_bool_iff in H. congruence. }
  pose proof (rnd_error x Hx) as [_ Hhi].
  destruct (ilog2_spec x Hx) as [Hlo _].
  unfold Float64.exponent in Hhi. rewrite (Qabs_of_pos x Hx) in Hhi.
  set (u := Float64.pow2 (- 53)) in *. set (eta := Float64.pow2 (- 1075)) in *.
  destruct (Z.le_gt_cases (- 1022) (Float64.ilog2 x)) as [Hn|Hn].
  - rewrite Z.max_l in Hhi by lia.
    assert (Hp : (1 # 2) * Float64.pow2 (Float64.ilog2 x - 52)
                 == Float64.pow2 (Float64.ilog2 x) * u).
    { unfold u. rewrite <- pow2_add.
      replace (Float64.ilog2 x - 52)%Z with (1 + (Float64.ilog2 x + - 53))%Z
        by lia.
      rewrite pow2_add. change (Float64.pow2 1) with 2. ring. }
    rewrite Hp in Hhi.
    assert (Hm : Float64.pow2 (Float64.ilog2 x) * u <= x * u)
      by (apply Qmult_le_compat_r; [exact Hlo|lra]).
    set (a := Float64.pow2 (Float64.ilog2 x) * u) in *.
    set (b := x * u) in *.
    setoid_replace (x * (1 + u)) with (x + b) by (unfold b; ring).
    lra.
  - rewrite Z.max_r in Hhi by lia.
    change ((1 # 2) * Float64.pow2 (- 1022 - 52)) with ((1 # 2) * Float64.pow2 (- 1074))
      in Hhi.
    assert (Hp : (1 # 2) * Float64.pow2 (- 1074) == eta) by reflexivity.
    rewrite Hp in Hhi.
    assert (Hm : 0 <= x * u) by (apply Qmult_le_0_compat; lra).
    set (b := x * u) in *.
    setoid_replace (x * (1 + u)) with (x + b) by (unfold b; ring).
    lra.
Qed.

Lemma finite_eq (x y : Q) : Float64.finite x = Some y -> y = Float64.rnd x.
Proof.
  unfold Float64.finite. destruct (Qle_bool _ _); congruence.
Qed.

(** A result below [2^1020] is a finite number. *)
Lemma finite_below (x : Q) :
  0 <= x -> x <= Float64.pow2 1020 ->
  Float64.finite x = Some (Float64.rnd x).
Proof.
  intros H0 H1. unfold Float64.finite.
  assert (E : Qle_bool (Qabs (Float64.rnd x)) Float64.maxValue = true).
  { apply Qle_bool_iff. rewrite Qabs_pos by now apply rnd_nonneg.
    eapply Qle_trans; [apply (rnd_upper x H0)|].
    assert (Hu : Float64.pow2 (- 53) <= 1) by discriminate.
    assert (He : Float64.pow2 (- 1075) <= 1) by discriminate.
    assert (Hm : 2 * Float64.pow2 1020 + 1 <= Float64.maxValue)
      by (vm_compute; discriminate).
    set (u := Float64.pow2 (- 53)) in *.
    set (eta := Float64.pow2 (- 1075)) in *.
    set (big := Float64.pow2 1020) in *.
    assert (Hu0 : 0 < u) by apply pow2_pos.
    assert (He0 : 0 < eta) by apply pow2_pos.
    assert (Hxu : x * u <= x * 1)
      by (apply Qmult_le_compat_nonneg; split; lra).
    setoid_replace (x * (1 + u)) with (x + x * u) by ring.
    set (b := x * u) in *. lra. }
  now rewrite E.
Qed.

Lemma truncate_steps (raw rate : Q) :
  Float64.truncateToTwoDecimals raw = Some rate ->
  exists cents nudged,
    cents = Float64.rnd (raw * 100)
    /\ nudged = Float64.rnd (cents + Float64.eps)
    /\ rate = Float64.rnd (Float64.floor nudged / 100).
Proof.
  unfold Float64.truncateToTwoDecimals, Float64.mul, Float64.add, Float64.div.
  destruct (Float64.finite (raw * 100)) as [cents|] eqn:E1; [|discriminate].
  cbn [Float64.bind].
  destruct (Float64.finite (cents + Float64.eps)) as [nudged|] eqn:E2;
    [|discriminate].
  cbn [Float64.bind]. change (Qeq_bool 100 0) with false. cbv iota.
  intro E3. exists cents, nudged.
  apply finite_eq in E1, E2, E3. auto.
Qed.

Lemma eps_bounds :
  0 <= Float64.eps
  /\ Float64.eps <= (1 # 100000000) * (1 + (1 # 9007199254740992)).
Proof. split; vm_compute; discriminate. Qed.

Lemma floor_bounds64 (x : Q) :
  0 <= x -> 0 <= Float64.floor x /\ Float64.floor x <= x.
Proof.
  intro H. unfold Float64.floor, JsMath.floor. split.
  - change 0 with (inject_Z 0). rewrite <- Zle_Qle.
    rewrite <- (Qfloor_Z 0). now apply Qfloor_resp_le.
  - apply Qfloor_le.
Qed.

(** The truncated rate, against the quotient it comes from. *)
Lemma rate_chain (q raw rate : Q) :
  0 <= q ->
  raw = Float64.rnd q ->
  Float64.truncateToTwoDecimals raw = Some rate ->
  0 <= rate
  /\ rate <= (1 + (1 # 1125899906842624)) * q
             + (1 + (1 # 1125899906842624)) * (1 # 10000000000).
Proof.
  intros Hq Hraw Htr.
  destruct (truncate_steps raw rate Htr) as (cents & nudged & Hc & Hn & Hr).
  pose proof (rnd_upper q Hq) as U1. rewrite <- Hraw in U1.
  assert (Hraw0 : 0 <= raw) by (rewrite Hraw; now apply rnd_nonneg).
  assert (Hc0' : 0 <= raw * 100) by (apply Qmult_le_0_compat; lra).
  pose proof (rnd_upper (raw * 100) Hc0') as U2. rewrite <- Hc in U2.
  assert (Hc0 : 0 <= cents) by (rewrite Hc; now apply rnd_nonneg).
  destruct eps_bounds as [He0 He1].
  assert (Hn0' : 0 <= cents + Float64.eps) by lra.
  pose proof (rnd_upper (cents + Float64.eps) Hn0') as U3. rewrite <- Hn in U3.
  assert (Hn0 : 0 <= nudged) by (rewrite Hn; now apply rnd_nonneg).
  destruct (floor_bounds64 nudged Hn0) as [Hf0 Hf1].
  set (fl := Float64.floor nudged) in *.
  assert (Hd : fl / 100 == fl * (1 # 100)) by reflexivity.
  assert (Hd0 : 0 <= fl / 100) by (rewrite Hd; lra).
  pose proof (rnd_upper (fl / 100) Hd0) as U4. rewrite <- Hr in U4.
  assert (Hrate0 : 0 <= rate) by (rewrite Hr; now apply rnd_nonneg).
  split; [exact Hrate0|].
  assert (Heta0 : 0 < Float64.pow2 (- 1075)) by apply pow2_pos.
  assert (Heta : Float64.pow2 (- 1075)
                 <= 1 # 10000000000000000000000000000000000000000)
    by (vm_compute; discriminate).
  change (Float64.pow2 (- 53)) with (1 # 9007199254740992) in *.
  set (eta := Float64.pow2 (- 1075)) in *.
  set (eps := Float64.eps) in *.
  set (d := fl / 100) in *.
  clearbody eta eps d fl.
  clear Htr Hc Hn Hr Hraw.
  lra.
Qed.

(** The truncated rate times the hours, against the tips. *)
Lemma rate_bound (tips H raw rate : Q) :
  0 < tips -> 0 < H ->
  Float64.div tips H = Some raw ->
  Float64.truncateToTwoDecimals raw = Some rate ->
  0 <= rate
  /\ rate * H
     <= (tips + H * (1 # 10000000000)) * (1 + (1 # 1125899906842624)).
Proof.
  intros Ht HH Hdiv Htr. unfold Float64.div in Hdiv.
  rewrite (Qeq_bool_pos H HH) in Hdiv. apply finite_eq in Hdiv.
  assert (Hq : 0 <= tips / H).
  { apply Qle_shift_div_l; [exact HH|]. lra. }
  destruct (rate_chain (tips / H) raw rate Hq Hdiv Htr) as [H0 H1].
  split; [exact H0|].
  assert (HqH : tips / H * H == tips) by (field; lra).
  apply (Qmult_le_compat_r _ _ H) in H1; [|lra].
  eapply Qle_trans; [exact H1|].
  set (c := 1 + (1 # 1125899906842624)).
  setoid_replace ((c * (tips / H) + c * (1 # 10000000000)) * H)
    with (c * (tips / H * H) + c * (1 # 10000000000) * H) by ring.
  rewrite HqH.
  setoid_replace ((tips + H * (1 # 10000000000)) * c)
    with (c * tips + c * (1 # 10000000000) * H) by ring.
  apply Qle_refl.
Qed.

(** Unless the tips are beyond all measure the rate is a finite number. *)
Lemma rate_runs (tips H : Q) :
  0 < tips -> 0 < H -> tips <= H * Float64.pow2 1000 ->
  exists raw rate,
    Float64.div tips H = Some raw
    /\ Float64.truncateToTwoDecimals raw = Some rate.
Proof.
  intros Ht HH Hle.
  assert (Hq0 : 0 <= tips / H).
  { apply Qle_shift_div_l; [exact HH|]. lra. }
  assert (Hq1 : tips / H <= Float64.pow2 1000).
  { apply Qle_shift_div_r; [exact HH|].
    now rewrite Qmult_comm. }
  assert (HB : 1 <= Float64.pow2 1000) by discriminate.
  assert (Hbig : Float64.pow2 1020 == 1048576 * Float64.pow2 1000)
    by reflexivity.
  assert (Heta0 : 0 < Float64.pow2 (- 1075)) by apply pow2_pos.
  assert (Heta : Float64.pow2 (- 1075) <= 1) by discriminate.
  destruct eps_bounds as [He0 He1].
  pose proof (rnd_upper (tips / H) Hq0) as U1.
  pose proof (rnd_nonneg (tips / H) Hq0) as N1.
  set (q := tips / H) in *. set (raw := Float64.rnd q) in *.
  assert (Hc0 : 0 <= raw * 100) by (apply Qmult_le_0_compat; lra).
  pose proof (rnd_upper (raw * 100) Hc0) as U2.
  pose proof (rnd_nonneg (raw * 100) Hc0) as N2.
  set (cents := Float64.rnd (raw * 100)) in *.
  assert (Hn0 : 0 <= cents + Float64.eps) by lra.
  pose proof (rnd_upper (cents + Float64.eps) Hn0) as U3.
  pose proof (rnd_nonneg (cents + Float64.eps) Hn0) as N3.
  set (nudged := Float64.rnd (cents + Float64.eps)) in *.
  destruct (floor_bounds64 nudged N3) as [Hf0 Hf1].
  assert (Hd : Float64.floor nudged / 100
               == Float64.floor nudged * (1 # 100)) by reflexivity.
  change (Float64.pow2 (- 53)) with (1 # 9007199254740992) in *.
  set (eta := Float64.pow2 (- 1075)) in *.
  set (B := Float64.pow2 1000) in *.
  exists raw, (Float64.rnd (Float64.floor nudged / 100)).
  unfold Float64.div. rewrite (Qeq_bool_pos H HH). split.
  - apply finite_below; [exact Hq0|]. fold q. rewrite Hbig. fold B. lra.
  - unfold Float64.truncateToTwoDecimals, Float64.mul, Float64.add,
      Float64.div.
    rewrite (finite_below (raw * 100))
      by (try exact Hc0; rewrite Hbig; fold B; clearbody eta B q raw; lra).
    cbn [Float64.bind]. fold cents.
    rewrite (finite_below (cents + Float64.eps))
      by (try exact Hn0; rewrite Hbig; fold B;
          clearbody eta B q raw cents; lra).
    cbn [Float64.bind]. fold nudged.
    change (Qeq_bool 100 0) with false. cbv iota.
    apply finite_below.
    + rewrite Hd. lra.
    + rewrite Hd, Hbig. fold B.
      set (fl := Float64.floor nudged) in *.
      clearbody eta B q raw cents nudged fl. lra.
Qed.

Lemma hourlyRate_fields (tips : Q) (partners : list Partner)
      (H raw rate : Q) :
  Float64.hourlyRate (Some tips) partners = Float64.Rate H raw rate ->
  0 < tips /\ 0 < H
  /\ Float64.totalHours partners = Some H
  /\ Float64.div tips H = Some raw
  /\ Float64.truncateToTwoDecimals raw = Some rate.
Proof.
  unfold Float64.hourlyRate.
  destruct (JsMath.leb tips 0) eqn:Et; [discriminate|].
  destruct (Float64.totalHours partners) as [h|]; [|discriminate].
  destruct (JsMath.leb h 0) eqn:Eh; [discriminate|].
  destruct (Float64.div tips h) as [r|] eqn:Ed; [|discriminate].
  destruct (Float64.truncateToTwoDecimals r) as [t|] eqn:Etr; [|discriminate].
  intro E. injection E as <- <- <-.
  repeat split; auto using leb_false_lt.
Qed.

End RateFacts.

(** C3, as stated, fails.  In exact arithmetic $0.99999999995 for one hour
    gives a rate truncated to $1.00, and so it is on the machine.  On the
    machine the rate need not even be carried over a cent: thirty cents for
    three hours give the rate 0.1, a double above one tenth, and three times
    that is more than the double of 0.30. *)
Lemma truncated_rate_over_allocates :
  (exists run,
      App.runCalculations (Some overAllocatingTips) oneHourPartner
        = Calculated run
      /\ 0 < overAllocatingTips
      /\ 0 < sumFiniteHours oneHourPartner
      /\ totalHours run == sumFiniteHours oneHourPartner
      /\ hourlyRateTruncated run == 1
      /\ ~ (hourlyRateTruncated run * totalHours run <= overAllocatingTips))
  /\ (exists raw,
         Float64.hourlyRate (Some (Float64.literal overAllocatingTips))
                            oneHourPartner
         = Float64.Rate 1 raw 1
         /\ ~ (1 * 1 <= Float64.literal overAllocatingTips))
  /\ (exists raw rate,
         Float64.hourlyRate (Some (Float64.literal 0.3)) threeHourPartner
         = Float64.Rate 3 raw rate
         /\ rate = Float64.literal 0.1
         /\ ~ (rate * 3 <= Float64.literal 0.3)).
Proof.
  split; [|split].
  - eexists. split; [reflexivity|].
    repeat split; try reflexivity.
    intro H. apply H. reflexivity.
  - eexists. split; [vm_compute; reflexivity|].
    intro H. apply H. reflexivity.
  - do 2 eexists. split; [vm_compute; reflexivity|].
    split; [vm_compute; reflexivity|].
    intro H. apply H. reflexivity.
Qed.

(** C3, amended.  On the machine, for every total cash above 0 and every
    list of hours whose sum [H] is above 0, the truncated rate is not
    negative and [hourlyRate * H], read exactly, is at most
    [(totalCash + H * 1e-10) * (1 + 2^-50)]: the [1e-8] added before
    flooring can carry the rate up by [1e-10], and the roundings of the
    machine by a relative [2^-50].  The rate is a finite number unless the
    cash is more than [2^1000] times the hours.  The sum of the decimal tips
    may exceed the total cash: three cents over the hours 1.5 and 1.5 give
    two tips of two cents. *)
Theorem truncated_rate_allocation_bound :
  (forall (tips : Q) (partners : list Partner) (H raw rate : Q),
      Float64.hourlyRate (Some tips) partners = Float64.Rate H raw rate ->
      0 < tips /\ 0 < H
      /\ Float64.totalHours partners = Some H
      /\ 0 <= rate
      /\ rate * H
         <= (tips + H * (1 # 10000000000)) * (1 + (1 # 1125899906842624)))
  /\ (forall (tips : Q) (partners : list Partner) (H : Q),
         0 < tips -> Float64.totalHours partners = Some H -> 0 < H ->
         tips <= H * Float64.pow2 1000 ->
         exists raw rate,
           Float64.hourlyRate (Some tips) partners = Float64.Rate H raw rate)
  /\ (exists raw rate s,
         Float64.hourlyRate (Some (Float64.literal 0.03)) halfCentPartners
         = Float64.Rate 3 raw rate
         /\ Float64.sumDecimalTips rate halfCentPartners = Some s
         /\ Float64.literal 0.03 < s).
Proof.
  split; [|split].
  - intros tips partners H raw rate Hrun.
    destruct (RateFacts.hourlyRate_fields tips partners H raw rate Hrun)
      as (Ht & HH & Hsum & Hdiv & Htr).
    destruct (RateFacts.rate_bound tips H raw rate Ht HH Hdiv Htr) as [H0 H1].
    repeat split; assumption.
  - intros tips partners H Ht Hsum HH Hle.
    destruct (RateFacts.rate_runs tips H Ht HH Hle) as (raw & rate & Hd & Htr).
    exists raw, rate. unfold Float64.hourlyRate.
    assert (Et : JsMath.leb tips 0 = false).
    { destruct (JsMath.leb tips 0) eqn:E; [|reflexivity].
      apply Qle_bool_iff in E. exfalso. now apply (Qlt_not_le _ _ Ht). }
    assert (Eh : JsMath.leb H 0 = false).
    { destruct (JsMath.leb H 0) eqn:E; [|reflexivity].
      apply Qle_bool_iff in E. exfalso. now apply (Qlt_not_le _ _ HH). }
    now rewrite Et, Hsum, Eh, Hd, Htr.
  - do 3 eexists. split; [vm_compute; reflexivity|].
    split; [vm_compute; reflexivity|]. reflexivity.
Qed.

Lemma truncated_rate_allocation_bound_witness :
  exists H raw rate,
    Float64.hourlyRate (Some 40) examplePartnersAsDoubles
    = Float64.Rate H raw rate
    /\ rate = Float64.literal 1.44
    /\ rate * H
       <= (40 + H * (1 # 10000000000)) * (1 + (1 # 1125899906842624)).
Proof.
  destruct (Float64.hourlyRate (Some 40) examplePartnersAsDoubles)
    as [| | |H raw rate] eqn:Hrun; try (vm_compute in Hrun; discriminate).
  exists H, raw, rate. split; [reflexivity|].
  split.
  - pose proof Hrun as E. vm_compute in E. injection E as _ _ <-.
    vm_compute. reflexivity.
  - exact (proj2 (proj2 (proj2 (proj2
             (proj1 truncated_rate_allocation_bound
                    40 examplePartnersAsDoubles H raw rate Hrun))))).
Defined.


(** ** The stable sort *)

Section JsSortFacts.

Variable A : Type.
Variable cmp : A -> A -> Z.

Lemma sortInsert_perm (x : A) (l : list A) :
  Permutation (sortInsert cmp x l) (x :: l).
Proof.
  induction l as [|y l IH]; simpl; [reflexivity|].
  destruct (cmp x y <=? 0)%Z; [reflexivity|].
  rewrite IH. apply perm_swap.
Qed.

Lemma jsSort_perm (l : list A) : Permutation (jsSort cmp l) l.
Proof.
  induction l as [|x l IH]; simpl; [reflexivity|].
  rewrite sortInsert_perm. now constructor.
Qed.

(** [key] is what the comparator orders by, largest first. *)
Variable key : A -> Z.
Hypothesis cmp_key : forall a b, cmp a b = (key b - key a)%Z.

Lemma sortInsert_sorted (x : A) (l : list A) :
  StronglySorted (descending key) l ->
  StronglySorted (descending key) (sortInsert cmp x l).
Proof.
  induction 1 as [|y l Hs IH Hall]; simpl.
  - repeat constructor.
  - destruct (Z.leb_spec (cmp x y) 0) as [Hle|Hgt].
    + rewrite cmp_key in Hle. constructor.
      * now constructor.
      * constructor; [unfold descending; lia|].
        eapply Forall_impl; [|exact Hall].
        unfold descending; intros; lia.
    + rewrite cmp_key in Hgt. constructor; [assumption|].
      eapply Permutation_Forall; [symmetry; apply sortInsert_perm|].
      constructor; [unfold descending; lia | assumption].
Qed.

Lemma jsSort_sorted (l : list A) : StronglySorted (descending key) (jsSort cmp l).
Proof.
  induction l; simpl; [constructor | now apply sortInsert_sorted].
Qed.

End JsSortFacts.

(** ** Redistribution *)

Module RedistributeFacts.

Import Redistribute.
Local Open Scope Z_scope.

Lemma takeLoop_spec (fuel : nat) (denom remaining avail taken : Z) :
  let '(remaining', avail', taken') :=
    takeLoop fuel denom remaining avail taken in
  taken <= taken'
  /\ avail' = avail - (taken' - taken)
  /\ remaining' = remaining - denom * (taken' - taken)
  /\ (0 <= avail -> 0 <= avail')
  /\ ((Z.to_nat avail <= fuel)%nat ->
      ((denom <=? remaining') && (0 <? avail')) = false).
Proof.
  revert remaining avail taken.
  induction fuel as [|fuel IH]; intros remaining avail taken; simpl.
  - repeat split; lia.
  - destruct ((denom <=? remaining) && (0 <? avail)) eqn:E.
    + apply andb_true_iff in E. destruct E as [_ E2].
      apply Z.ltb_lt in E2.
      specialize (IH (remaining - denom) (avail - 1) (taken + 1)).
      destruct (takeLoop fuel denom (remaining - denom) (avail - 1)
                         (taken + 1)) as [[r a] t].
      destruct IH as (H1 & H2 & H3 & H4 & H5).
      repeat split; lia.
    + repeat split; lia.
Qed.

Lemma takeNotes_spec (denom remaining avail : Z) :
  let '(remaining', avail', taken') := takeNotes denom remaining avail in
  0 <= taken'
  /\ avail' = avail - taken'
  /\ remaining' = remaining - denom * taken'
  /\ (0 <= avail -> 0 <= avail')
  /\ ((denom <=? remaining') && (0 <? avail')) = false.
Proof.
  unfold takeNotes.
  pose proof (takeLoop_spec (Z.to_nat avail) denom remaining avail 0) as H.
  destruct (takeLoop (Z.to_nat avail) denom remaining avail 0) as [[r a] t].
  destruct H as (H1 & H2 & H3 & H4 & H5).
  repeat split; lia.
Qed.

(** One partner's notes come out of the remaining inventory, which never
    goes below zero. *)
Lemma allocatePartner_conserves (rb : Bills) (partner : CalcResult) :
  nonNegBills rb ->
  let '(rb', out) := allocatePartner rb partner in
  nonNegBills rb'
  /\ nonNegBills (rd_breakdown out)
  /\ addBills rb' (rd_breakdown out) = rb
  /\ rd_partner out = partner.
Proof.
  intros (H20 & H10 & H5 & H1). unfold allocatePartner.
  pose proof (takeNotes_spec 20 (wholeDollarPayout partner) (twenties rb)) as T20.
  destruct (takeNotes 20 (wholeDollarPayout partner) (twenties rb))
    as [[r20 a20] t20].
  pose proof (takeNotes_spec 10 r20 (tens rb)) as T10.
  destruct (takeNotes 10 r20 (tens rb)) as [[r10 a10] t10].
  pose proof (takeNotes_spec 5 r10 (fives rb)) as T5.
  destruct (takeNotes 5 r10 (fives rb)) as [[r5 a5] t5].
  pose proof (takeNotes_spec 1 r5 (ones rb)) as T1.
  destruct (takeNotes 1 r5 (ones rb)) as [[r1 a1] t1].
  destruct T20 as (? & ? & ? & ? & _), T10 as (? & ? & ? & ? & _),
           T5 as (? & ? & ? & ? & _), T1 as (? & ? & ? & ? & _).
  destruct rb as [q20 q10 q5 q1]; cbn [twenties tens fives ones] in *.
  unfold nonNegBills, addBills.
  destruct (0 <? r1);
    [destruct ((r1 <=? 4) && (0 <? a5)) eqn:E5;
     [|destruct ((r1 <=? 9) && (0 <? a10)) eqn:E10;
       [|destruct ((r1 <=? 19) && (0 <? a20)) eqn:E20]]|];
    cbn [twenties tens fives ones rd_breakdown rd_partner];
    repeat (match goal with
            | H : _ && _ = true |- _ =>
                apply andb_true_iff in H; destruct H as [_ H];
                apply Z.ltb_lt in H
            end);
    (split; [lia|]); (split; [lia|]); (split; [f_equal; lia | reflexivity]).
Qed.

Lemma sumBills_app (l : list Bills) (b : Bills) :
  sumBills (l ++ [b]) = addBills (sumBills l) b.
Proof.
  induction l as [|a l IH]; simpl.
  - unfold addBills, zeroBills; cbn. f_equal; lia.
  - unfold sumBills in *. rewrite IH.
    unfold addBills; cbn. f_equal; lia.
Qed.

Lemma step_inv (available : Bills) (done : list CalcResult)
      (st : RedistributeRun) (partner : CalcResult) :
  loopInvariant available done st -> loopInvariant available (done ++ [partner]) (step st partner).
Proof.
  intros (Hnn & Hsum & Hused & Hall & Hmap). unfold step.
  pose proof (allocatePartner_conserves _ partner Hnn) as Ha.
  destruct (allocatePartner (remainingBills st) partner) as [rb' out].
  destruct Ha as (Hnn' & Hout & Hcons & Hp).
  unfold loopInvariant, assigned in *. cbn [updatedResults remainingBills usedBills].
  rewrite !map_app. cbn [map]. rewrite sumBills_app.
  repeat split.
  - apply Hnn'.
  - apply Hnn'.
  - apply Hnn'.
  - apply Hnn'.
  - rewrite <- Hsum, <- Hcons. unfold addBills; cbn. f_equal; lia.
  - now rewrite Hused.
  - apply Forall_app. split; [assumption|].
    constructor; [exact Hout | constructor].
  - now rewrite Hmap, Hp.
Qed.

Lemma fold_step_inv (available : Bills) (l done : list CalcResult)
      (st : RedistributeRun) :
  loopInvariant available done st ->
  loopInvariant available (done ++ l) (fold_left step l st).
Proof.
  revert done st. induction l as [|p l IH]; intros done st Hinv; simpl.
  - now rewrite app_nil_r.
  - replace (done ++ p :: l) with ((done ++ [p]) ++ l)
      by (now rewrite <- app_assoc).
    apply IH. now apply step_inv.
Qed.

Lemma redistributeBills_inv (lastCalculationResults : list CalcResult)
      (availableBills : Bills) (run : RedistributeRun) :
  nonNegBills availableBills ->
  redistributeBills lastCalculationResults availableBills = Some run ->
  loopInvariant availableBills (jsSort byPayoutDescending lastCalculationResults) run.
Proof.
  intros Hnn. unfold redistributeBills.
  destruct lastCalculationResults as [|r0 l]; [discriminate|].
  intro H. injection H as <-.
  apply (@fold_step_inv availableBills _ [] _).
  unfold loopInvariant, assigned; cbn. repeat split; try apply Hnn; auto.
  destruct availableBills; unfold addBills; cbn. f_equal; lia.
Qed.

(** A snapshot that is not empty is always redistributed. *)
Lemma redistributeBills_runs (lastCalculationResults : list CalcResult)
      (availableBills : Bills) :
  lastCalculationResults <> [] ->
  exists run,
    redistributeBills lastCalculationResults availableBills = Some run.
Proof.
  destruct lastCalculationResults; [congruence|]. intros _.
  eexists. reflexivity.
Qed.

End RedistributeFacts.

Local Open Scope Z_scope.

(** C7.  For every snapshot of results and every inventory of notes without
    a negative count, the redistribution hands out, of each denomination,
    no more notes than the inventory holds, so that the value of all notes
    handed out is at most the value of the inventory; no partner gets a
    negative count; the partners are served in descending order of
    [wholeDollarPayout].  It returns without a result only on an empty
    snapshot. *)
Theorem redistribution_within_inventory
        (lastCalculationResults : list CalcResult) (availableBills : Bills) :
  nonNegBills availableBills ->
  match Redistribute.redistributeBills lastCalculationResults availableBills
  with
  | None => lastCalculationResults = []
  | Some run =>
      leBills (Redistribute.assigned run) availableBills
      /\ billsValue (Redistribute.assigned run) <= billsValue availableBills
      /\ Forall (fun r => nonNegBills (rd_breakdown r)) (updatedResults run)
      /\ Permutation (map rd_partner (updatedResults run))
                     lastCalculationResults
      /\ StronglySorted
           (fun a b => wholeDollarPayout b <= wholeDollarPayout a)
           (map rd_partner (updatedResults run))
  end.
Proof.
  intros Hnn.
  destruct (Redistribute.redistributeBills lastCalculationResults
                                           availableBills) as [run|] eqn:Hrun.
  - destruct (RedistributeFacts.redistributeBills_inv _ _ _ Hnn Hrun)
      as (Hrem & Hsum & _ & Hall & Hmap).
    assert (Hle : leBills (Redistribute.assigned run) availableBills).
    { destruct Hrem as (? & ? & ? & ?). rewrite <- Hsum.
      unfold leBills, addBills; cbn. lia. }
    split; [exact Hle|]. split; [|split; [exact Hall|split]].
    + destruct Hle as (? & ? & ? & ?). unfold billsValue. lia.
    + rewrite Hmap. apply jsSort_perm.
    + rewrite Hmap.
      apply (jsSort_sorted _ Redistribute.byPayoutDescending wholeDollarPayout).
      reflexivity.
  - destruct lastCalculationResults as [|r l]; [reflexivity|].
    destruct (RedistributeFacts.redistributeBills_runs
                (r :: l) availableBills ltac:(discriminate)) as [run Hsome].
    congruence.
Qed.

Lemma redistribution_within_inventory_witness :
  nonNegBills (mkBills 1 0 2 1)
  /\ exists run,
      Redistribute.redistributeBills exampleResults (mkBills 1 0 2 1)
        = Some run
      /\ map rd_breakdown (updatedResults run)
         = [ mkBills 1 0 2 1; mkBills 0 0 0 0 ]
      /\ billsValue (Redistribute.assigned run)
         <= billsValue (mkBills 1 0 2 1).
Proof.
  assert (Hnn : nonNegBills (mkBills 1 0 2 1))
    by (unfold nonNegBills; cbn; lia).
  split; [exact Hnn|].
  eexists. split; [reflexivity|]. split; [reflexivity|].
  exact (proj1 (proj2 (redistribution_within_inventory
                         exampleResults (mkBills 1 0 2 1) Hnn))).
Defined.

Local Close Scope Z_scope.



(** ** The Map-keyed merge of the two periods *)

Module HolidayFacts.

Import Holiday.


























End HolidayFacts.



(** ** Pairing by [matchPartners] *)

Module MatchFacts.

Import HolidayMatch.






End MatchFacts.

Module MatchUse.

Import HolidayMatch.











End MatchUse.

Module MatchExact.

Import HolidayMatch.





End MatchExact.






(** ** One rounding to whole dollars, on the sum of the two period tips *)

(** C6.  In both two-period calculators the whole-dollar payout of every
    result is the rounding of the sum of its two period tips, each period
    tip being the period's own truncated hourly rate times the period's
    hours, rounded to cents.  Rounding each period tip to whole dollars and
    adding would pay otherwise: 2 instead of 1 for two tips of $0.50, and 0
    instead of 1 for two tips of $0.40. *)
Theorem holiday_payout_rounds_the_sum :
  (forall (localeCompare : string -> string -> Z)
          (normalPartners holidayPartners : list OcrPartner)
          (normalHourlyRate holidayHourlyRate : Q) (r : Holiday.SplitResult),
      In r (fst (Holiday.calculateHolidaySplitTips
                   localeCompare normalPartners holidayPartners
                   normalHourlyRate holidayHourlyRate)) ->
      Holiday.normalTip r
        = roundToTwoDecimals (truncateToTwoDecimals normalHourlyRate
                              * Holiday.s_normalHours r)
      /\ Holiday.holidayTip r
         = roundToTwoDecimals (truncateToTwoDecimals holidayHourlyRate
                               * Holiday.s_holidayHours r)
      /\ Holiday.s_wholeDollarPayout r
         = Holiday.wholeDollarRound (Holiday.normalTip r + Holiday.holidayTip r))
  /\ (forall (regularPartners : list OcrPartner) (regularCash : Q)
             (holidayPartners : list OcrPartner) (holidayCash : Q)
             (run : HolidayMatch.SplitRun) (r : HolidayMatch.SplitResult),
         HolidayMatch.calculateHolidaySplitTips
           regularPartners regularCash holidayPartners holidayCash = Some run ->
         In r (HolidayMatch.results run) ->
         let regularRate := HolidayMatch.rate (HolidayMatch.regularInfo run) in
         let holidayRate := HolidayMatch.rate (HolidayMatch.holidayInfo run) in
         regularRate
           = (if JsMath.gtb (HolidayMatch.sumHours regularPartners) 0
              then truncateToTwoDecimals
                     (regularCash / HolidayMatch.sumHours regularPartners)
              else 0)
         /\ holidayRate
            = (if JsMath.gtb (HolidayMatch.sumHours holidayPartners) 0
               then truncateToTwoDecimals
                      (holidayCash / HolidayMatch.sumHours holidayPartners)
               else 0)
         /\ HolidayMatch.regularTip r
            = roundToTwoDecimals (regularRate * HolidayMatch.regularHours r)
         /\ HolidayMatch.holidayTip r
            = roundToTwoDecimals (holidayRate * HolidayMatch.holidayHours r)
         /\ HolidayMatch.s_wholeDollarPayout r
            = HolidayMatch.wholeDollarRound
                (HolidayMatch.regularTip r + HolidayMatch.holidayTip r))
  /\ (forall localeCompare : string -> string -> Z,
         exists r,
           fst (Holiday.calculateHolidaySplitTips
                  localeCompare [annHalf] [annHalf] 0.5 0.5) = [r]
           /\ Holiday.s_wholeDollarPayout r = 1%Z
           /\ (Holiday.wholeDollarRound (Holiday.normalTip r)
               + Holiday.wholeDollarRound (Holiday.holidayTip r) = 2)%Z)
  /\ (exists run r,
         HolidayMatch.calculateHolidaySplitTips [annHalf] 0.4 [annHalf] 0.4
           = Some run
         /\ HolidayMatch.results run = [r]
         /\ HolidayMatch.s_wholeDollarPayout r = 1%Z
         /\ (HolidayMatch.wholeDollarRound (HolidayMatch.regularTip r)
             + HolidayMatch.wholeDollarRound (HolidayMatch.holidayTip r) = 0)%Z).
Proof.
  split; [|split; [|split]].
  - intros localeCompare nP hP nr hr r Hin.
    unfold Holiday.calculateHolidaySplitTips in Hin. cbn [fst] in Hin.
    apply (Permutation_in _ (jsSort_perm _ _ _)) in Hin.
    apply in_map_iff in Hin. destruct Hin as [entry [<- _]].
    repeat split.
  - intros rP rC hP hC run r Hrun Hin.
    unfold HolidayMatch.calculateHolidaySplitTips in Hrun.
    destruct (_ && _); [discriminate|]. injection Hrun as <-.
    cbn [HolidayMatch.results HolidayMatch.regularInfo HolidayMatch.holidayInfo
         HolidayMatch.rate] in *.
    apply (Permutation_in _ (jsSort_perm _ _ _)) in Hin.
    apply in_map_iff in Hin. destruct Hin as [m [<- _]].
    repeat split.
  - intro localeCompare. eexists. split; [reflexivity|].
    split; reflexivity.
  - do 2 eexists. split; [reflexivity|]. split; [reflexivity|].
    split; reflexivity.
Qed.


Lemma holiday_payout_rounds_the_sum_witness :
  exists r,
    In r (fst (Holiday.calculateHolidaySplitTips
                 (fun _ _ => 0%Z) [annHalf] [annHalf] 0.5 0.5))
    /\ Holiday.s_wholeDollarPayout r
       = Holiday.wholeDollarRound (Holiday.normalTip r + Holiday.holidayTip r).
Proof.
  eexists. split; [left; reflexivity|].
  exact (proj2 (proj2 (proj1 holiday_payout_rounds_the_sum
                         (fun _ _ => 0%Z) [annHalf] [annHalf] 0.5 0.5 _
                         (or_introl eq_refl)))).
Defined.


(** ** Text normalisation *)

Module RegexFacts.

Import Regex.

(** Where the pattern matches nowhere, [replace] returns its input. *)
Lemma replaceLoop_no_match (ci : bool) (r : re) (by_ : string) (fuel : nat) :
  forall (pos : nat) (s : string),
    searchFrom ci r pos s = None ->
    replaceLoop fuel ci r by_ pos s = s.
Proof.
  induction fuel as [|fuel IH]; intros pos s Hs; simpl; [reflexivity|].
  destruct s as [|a s']; simpl in Hs.
  - destruct (execAt ci r pos "") as [[e c]|]; [discriminate | reflexivity].
  - destruct (execAt ci r pos (String a s')) as [[e c]|]; [discriminate|].
    now rewrite IH.
Qed.

Lemma replaceAll_no_match (ci : bool) (r : re) (by_ s : string) :
  test ci r s = false -> replaceAll ci r by_ s = s.
Proof.
  unfold test, replaceAll. intro H. apply replaceLoop_no_match.
  destruct (searchFrom ci r 0 s); [discriminate | reflexivity].
Qed.

Lemma spanLength_le (s : string) :
  (Whitespace.spanLength s <= String.length s)%nat.
Proof.
  induction s as [|a s IH]; simpl; [lia|].
  destruct (JsString.isSpace a); lia.
Qed.

(** The greedy star of [\s] takes the whole run of white space. *)
Lemma starLoop_spaces (R : Type) (k : cont R) (fuel : nat) :
  forall (pos : nat) (s : string) (c : caps),
    (Whitespace.spanLength s <= fuel)%nat ->
    (forall pos' s' c', k pos' s' c' <> None) ->
    starLoop true (matchRe false (R := R) space) k fuel pos s c
    = k (pos + Whitespace.spanLength s)%nat
        (drop (Whitespace.spanLength s) s) c.
Proof.
  unfold space.
  induction fuel as [|fuel IH]; intros pos s c Hlen Hk;
    cbn [starLoop matchRe inSet inItem].
  - destruct s as [|a s']; cbn [Whitespace.spanLength drop] in *.
    + now rewrite Nat.add_0_r.
    + destruct (JsString.isSpace a); [lia|]. now rewrite Nat.add_0_r.
  - destruct s as [|a s']; cbn [Whitespace.spanLength drop] in *.
    + now rewrite Nat.add_0_r.
    + destruct (JsString.isSpace a) eqn:Ea.
      * replace (Nat.eqb (S pos) pos) with false
          by (symmetry; apply Nat.eqb_neq; lia).
        rewrite IH by (assumption || lia).
        replace (pos + S (Whitespace.spanLength s'))%nat
          with (S pos + Whitespace.spanLength s')%nat by lia.
        destruct (k _ _ c) eqn:Ek; [reflexivity|].
        exfalso. now apply (Hk _ _ _ Ek).
      * now rewrite Nat.add_0_r.
Qed.

Lemma execAt_spaces (pos : nat) (s : string) :
  execAt false Ocr.reSpaces pos s
  = match Whitespace.spanLength s with
    | O => None
    | S n => Some ((pos + S n)%nat, [])
    end.
Proof.
  unfold execAt, Ocr.reSpaces, plus.
  cbn [matchRe]. fold (star space). unfold space at 1.
  cbn [matchRe inSet inItem].
  destruct s as [|a s']; cbn [Whitespace.spanLength]; [reflexivity|].
  destruct (JsString.isSpace a); [|reflexivity].
  unfold star. cbn [matchRe].
  rewrite starLoop_spaces; [|apply spanLength_le|discriminate].
  f_equal. f_equal. lia.
Qed.

Lemma drop_length (n : nat) (s : string) :
  (String.length (drop n s) <= String.length s - n)%nat.
Proof.
  revert s. induction n as [|n IH]; intros [|a s]; simpl; try lia.
  apply IH.
Qed.

Lemma collapseFrom_run (s : string) :
  Whitespace.collapseFrom true s
  = Whitespace.collapseFrom false (drop (Whitespace.spanLength s) s).
Proof.
  induction s as [|a s IH]; [reflexivity|].
  cbn [Whitespace.collapseFrom Whitespace.spanLength].
  destruct (JsString.isSpace a) eqn:Ea; cbn [drop].
  - exact IH.
  - cbn [Whitespace.collapseFrom]. now rewrite Ea.
Qed.

(** [replace(/\s+/g, ' ')] is [collapse]. *)
Lemma replaceLoop_spaces (fuel : nat) :
  forall (pos : nat) (s : string),
    (String.length s < fuel)%nat ->
    replaceLoop fuel false Ocr.reSpaces " " pos s = Whitespace.collapse s.
Proof.
  unfold Whitespace.collapse.
  induction fuel as [|fuel IH]; intros pos s Hlen; [lia|].
  cbn [replaceLoop]. rewrite execAt_spaces.
  destruct s as [|a s']; [reflexivity|].
  cbn [Whitespace.spanLength Whitespace.collapseFrom].
  destruct (JsString.isSpace a) eqn:Ea.
  - replace (Nat.eqb (pos + S (Whitespace.spanLength s')) pos) with false
      by (symmetry; apply Nat.eqb_neq; lia).
    replace (pos + S (Whitespace.spanLength s') - pos)%nat
      with (S (Whitespace.spanLength s')) by lia.
    cbn [drop append]. rewrite collapseFrom_run. f_equal.
    apply IH. pose proof (drop_length (Whitespace.spanLength s') s').
    simpl in Hlen. lia.
  - f_equal. apply IH. simpl in Hlen. lia.
Qed.

(** [replace(/[^a-z]/g, '')] keeps the letters a-z and nothing else, as
    the name keys of the two-period calculators do. *)
Lemma replaceLoop_non_letters (fuel : nat) :
  forall (pos : nat) (s : string),
    (String.length s < fuel)%nat ->
    replaceLoop fuel false Ocr.reNotLowerLetter "" pos s
    = JsString.filter JsString.isLowerAZ s.
Proof.
  induction fuel as [|fuel IH]; intros pos s Hlen; [lia|].
  destruct s as [|a s']; [reflexivity|].
  cbn [replaceLoop JsString.filter]. unfold execAt, Ocr.reNotLowerLetter.
  cbn [matchRe inSet existsb inItem]. unfold inRange.
  change (JsString.code "a") with 97%N. change (JsString.code "z") with 122%N.
  unfold JsString.isLowerAZ. simpl in Hlen.
  destruct ((97 <=? JsString.code a) && (JsString.code a <=? 122))%N;
    cbn [andb orb negb].
  - f_equal. apply IH. lia.
  - replace (Nat.eqb (S pos) pos) with false
      by (symmetry; apply Nat.eqb_neq; lia).
    replace (S pos - pos)%nat with 1%nat by lia.
    cbn [drop append]. apply IH. lia.
Qed.

Lemma lettersOnly_filter (tok : string) :
  Ocr.lettersOnly tok
  = JsString.filter JsString.isLowerAZ (JsString.toLowerCase tok).
Proof.
  unfold Ocr.lettersOnly, replaceAll. apply replaceLoop_non_letters. lia.
Qed.

Lemma replaceAll_spaces (s : string) :
  replaceAll false Ocr.reSpaces " " s = Whitespace.collapse s.
Proof. unfold replaceAll. apply replaceLoop_spaces. lia. Qed.

End RegexFacts.

Module WhitespaceFacts.

Import Whitespace.

Lemma collapseFrom_tidy (s : string) :
  forall b, tidyFrom b (collapseFrom b s) = true.
Proof.
  induction s as [|a s IH]; intro b; [reflexivity|].
  cbn [collapseFrom]. destruct (JsString.isSpace a) eqn:Ea.
  - destruct b; [apply IH|].
    cbn [tidyFrom]. change (JsString.isSpace " ") with true.
    cbn. apply IH.
  - cbn [tidyFrom]. rewrite Ea. apply IH.
Qed.

Lemma tidy_collapse (s : string) :
  forall b, tidyFrom b s = true -> collapseFrom b s = s.
Proof.
  induction s as [|a s IH]; intros b H; [reflexivity|].
  cbn [tidyFrom collapseFrom] in *. destruct (JsString.isSpace a).
  - apply andb_true_iff in H. destruct H as [H Hs].
    apply andb_true_iff in H. destruct H as [Ha Hb].
    apply Ascii.eqb_eq in Ha. apply negb_true_iff in Hb. subst a b.
    f_equal. now apply IH.
  - f_equal. now apply IH.
Qed.

(** A tidy string stays tidy whatever came before, once it starts with
    something that is not white space. *)
Lemma tidy_weaken (s : string) (b : bool) :
  tidyFrom b s = true -> tidyFrom false s = true.
Proof.
  destruct s as [|a s]; [reflexivity|]. cbn [tidyFrom].
  destruct (JsString.isSpace a); [|auto].
  intro H. apply andb_true_iff in H. destruct H as [H Hs].
  apply andb_true_iff in H. destruct H as [Ha _].
  now rewrite Ha, Hs.
Qed.

Lemma trimStart_tidy (s : string) :
  forall b, tidyFrom b s = true -> tidyFrom false (JsString.trimStart s) = true.
Proof.
  induction s as [|a s IH]; intros b H; [reflexivity|].
  cbn [JsString.trimStart]. destruct (JsString.isSpace a) eqn:Ea.
  - cbn [tidyFrom] in H. rewrite Ea in H.
    apply andb_true_iff in H. destruct H as [_ Hs]. now apply (IH true).
  - now apply (tidy_weaken _ b).
Qed.

Lemma trimEnd_tidy (s : string) :
  forall b, tidyFrom b s = true -> tidyFrom b (JsString.trimEnd s) = true.
Proof.
  induction s as [|a s IH]; intros b H; [reflexivity|].
  cbn [JsString.trimEnd]. cbn [tidyFrom] in H.
  destruct (JsString.isSpace a) eqn:Ea.
  - apply andb_true_iff in H. destruct H as [H Hs].
    specialize (IH true Hs).
    destruct (JsString.trimEnd s) as [|c t]; [reflexivity|].
    cbn [tidyFrom] in *. now rewrite Ea, H, IH.
  - specialize (IH false H).
    destruct (JsString.trimEnd s) as [|c t].
    + cbn [tidyFrom]. now rewrite Ea.
    + cbn [tidyFrom] in *. now rewrite Ea, IH.
Qed.

Lemma trimEnd_idem (s : string) :
  JsString.trimEnd (JsString.trimEnd s) = JsString.trimEnd s.
Proof.
  induction s as [|a s IH]; [reflexivity|].
  cbn [JsString.trimEnd].
  destruct (JsString.trimEnd s) as [|c t] eqn:E.
  - destruct (JsString.isSpace a) eqn:Ea; [reflexivity|].
    cbn [JsString.trimEnd]. now rewrite Ea.
  - change (JsString.trimEnd (String a (String c t)))
      with (match JsString.trimEnd (String c t) with
            | EmptyString => if JsString.isSpace a then EmptyString
                             else String a EmptyString
            | u => String a u
            end).
    now rewrite IH.
Qed.

(** What [trimStart] returns starts with no white space. *)
Lemma trimStart_head (s : string) :
  match JsString.trimStart s with
  | String a _ => JsString.isSpace a = false
  | EmptyString => True
  end.
Proof.
  induction s as [|a s IH]; [exact I|].
  cbn [JsString.trimStart]. destruct (JsString.isSpace a) eqn:Ea; [exact IH|].
  exact Ea.
Qed.

Lemma trimStart_fixed (s : string) :
  match s with
  | String a _ => JsString.isSpace a = false
  | EmptyString => True
  end ->
  JsString.trimStart s = s.
Proof. destruct s as [|a s]; [reflexivity|]. simpl. now intros ->. Qed.

(** [trimEnd] keeps the first character of a string that does not start
    with white space. *)
Lemma trimEnd_head (s : string) :
  match s with
  | String a _ => JsString.isSpace a = false
  | EmptyString => True
  end ->
  match JsString.trimEnd s with
  | String a _ => JsString.isSpace a = false
  | EmptyString => True
  end.
Proof.
  destruct s as [|a s]; [auto|]. intro Ha. cbn [JsString.trimEnd].
  destruct (JsString.trimEnd s); [now rewrite Ha | exact Ha].
Qed.

Lemma trim_idem (s : string) : JsString.trim (JsString.trim s) = JsString.trim s.
Proof.
  unfold JsString.trim.
  rewrite (trimStart_fixed (JsString.trimEnd (JsString.trimStart s))).
  - apply trimEnd_idem.
  - apply trimEnd_head, trimStart_head.
Qed.

Lemma trim_tidy (s : string) (b : bool) :
  tidyFrom b s = true -> tidyFrom false (JsString.trim s) = true.
Proof.
  intro H. unfold JsString.trim. apply trimEnd_tidy.
  now apply (trimStart_tidy _ b).
Qed.

(** White-space normalisation is idempotent. *)
Lemma normalizeWhitespace_idem (s : string) :
  Ocr.normalizeWhitespace (Ocr.normalizeWhitespace s)
  = Ocr.normalizeWhitespace s.
Proof.
  unfold Ocr.normalizeWhitespace. rewrite !RegexFacts.replaceAll_spaces.
  unfold collapse.
  rewrite (tidy_collapse (JsString.trim (collapseFrom false s)) false).
  - apply trim_idem.
  - apply (trim_tidy _ false), collapseFrom_tidy.
Qed.

End WhitespaceFacts.


Module StripFacts.

Import Regex Ocr.

Lemma fold_replace_no_match (patterns : list re) (t : string) :
  (forall pattern, In pattern patterns -> test true pattern t = false) ->
  fold_left (fun cleaned pattern => replaceAll true pattern " " cleaned)
            patterns t = t.
Proof.
  induction patterns as [|p l IH]; intro H; simpl; [reflexivity|].
  rewrite RegexFacts.replaceAll_no_match by (apply H; now left).
  apply IH. intros q Hq. apply H. now right.
Qed.

Lemma stripMetadataTokens_normal (text : string) :
  normalizeWhitespace (stripMetadataTokens text) = stripMetadataTokens text.
Proof.
  unfold stripMetadataTokens. destruct (negb (JsString.truthy text)).
  - reflexivity.
  - apply WhitespaceFacts.normalizeWhitespace_idem.
Qed.

End StripFacts.

(** C5, as stated, fails: a second pass finds the token that the first pass
    put together. *)
Lemma stripMetadataTokens_not_idempotent :
  Ocr.stripMetadataTokens nestedStoreNumber = "Store Number 2"%string
  /\ Ocr.stripMetadataTokens (Ocr.stripMetadataTokens nestedStoreNumber)
     = ""%string
  /\ Ocr.stripMetadataTokens (Ocr.stripMetadataTokens nestedStoreNumber)
     <> Ocr.stripMetadataTokens nestedStoreNumber.
Proof.
  split; [vm_compute; reflexivity|]. split; [vm_compute; reflexivity|].
  vm_compute. discriminate.
Qed.

(** C5, amended.  For every string [s] in whose normal form
    [normalize(s)] no metadata pattern matches,
    [normalize(normalize(s)) = normalize(s)]; and for every string the
    normal form is white-space normalised already. *)
Theorem stripMetadataTokens_idempotent_once_settled (text : string) :
  (forall pattern, In pattern Ocr.METADATA_PATTERNS ->
                   Regex.test true pattern (Ocr.stripMetadataTokens text) = false) ->
  Ocr.stripMetadataTokens (Ocr.stripMetadataTokens text)
  = Ocr.stripMetadataTokens text
  /\ Ocr.normalizeWhitespace (Ocr.stripMetadataTokens text)
     = Ocr.stripMetadataTokens text.
Proof.
  intro Hclean. split; [|apply StripFacts.stripMetadataTokens_normal].
  set (t := Ocr.stripMetadataTokens text) in *.
  unfold Ocr.stripMetadataTokens at 1.
  destruct (negb (JsString.truthy t)) eqn:Et.
  - destruct t; [reflexivity | discriminate].
  - rewrite StripFacts.fold_replace_no_match by assumption.
    apply StripFacts.stripMetadataTokens_normal.
Qed.

Lemma stripMetadataTokens_idempotent_once_settled_witness :
  Ocr.stripMetadataTokens headedLine = "John Doe 5.0"%string
  /\ Ocr.stripMetadataTokens (Ocr.stripMetadataTokens headedLine)
     = Ocr.stripMetadataTokens headedLine.
Proof.
  split; [vm_compute; reflexivity|].
  refine (proj1 (stripMetadataTokens_idempotent_once_settled headedLine _)).
  intros pattern Hin. unfold Ocr.METADATA_PATTERNS in Hin.
  repeat (destruct Hin as [<-|Hin]; [vm_compute; reflexivity|]). destruct Hin.
Defined.

(** ** The bound on extracted hours *)

Module HoursFacts.

Import Regex Ocr.

Lemma plausibleHours_spec (h : Q) :
  plausibleHours h = true -> 0 < h /\ h < 200.
Proof.
  unfold plausibleHours, JsMath.gtb, JsMath.ltb. intro H.
  apply andb_true_iff in H. destruct H as [H1 H2].
  apply negb_true_iff in H1, H2.
  split; apply Qnot_le_lt; intro Hle; apply Qle_bool_iff in Hle; congruence.
Qed.

Lemma Forall_snoc (A : Type) (P : A -> Prop) (l : list A) (x : A) :
  Forall P l -> P x -> Forall P (l ++ [x]).
Proof. intros Hl Hx. apply Forall_app. split; [assumption | now constructor]. Qed.

Lemma storeGroup_plausible (lines : list string) (i : nat)
      (entries entries' : list OcrPartner) :
  Forall plausible entries ->
  storeGroup lines i entries = Some entries' -> Forall plausible entries'.
Proof.
  intro H. unfold storeGroup.
  destruct (_ && _); [|discriminate].
  destruct (_ && _ && _); [|discriminate].
  destruct (JsParse.parseFloat _) as [hours|]; [|now intros [= <-]].
  destruct (plausibleHours hours) eqn:E; intros [= <-]; [|assumption].
  apply Forall_snoc; [assumption|]. now apply plausibleHours_spec.
Qed.

Lemma nameGroup_plausible (lines : list string) (i : nat)
      (entries entries' : list OcrPartner) :
  Forall plausible entries ->
  nameGroup lines i entries = Some entries' -> Forall plausible entries'.
Proof.
  intro H. unfold nameGroup.
  destruct (_ && (i + 2 <? _)%nat); [|discriminate].
  destruct (_ && _); [|discriminate].
  destruct (JsParse.parseFloat _) as [hours|]; [|discriminate].
  destruct (plausibleHours hours) eqn:E; intros [= <-].
  apply Forall_snoc; [assumption|]. now apply plausibleHours_spec.
Qed.

Lemma columnarLoop_plausible (fuel : nat) (lines : list string) :
  forall (i : nat) (entries : list OcrPartner),
    Forall plausible entries ->
    Forall plausible (columnarLoop fuel lines i entries).
Proof.
  induction fuel as [|fuel IH]; intros i entries H; simpl; [assumption|].
  destruct (i <? _)%nat; [|assumption].
  destruct (test true summaryPattern _); [assumption|].
  destruct (isHeaderLine _); [now apply IH|].
  destruct (storeGroup lines i entries) as [e1|] eqn:E1.
  - apply IH. eapply storeGroup_plausible; eauto.
  - destruct (nameGroup lines i entries) as [e2|] eqn:E2.
    + apply IH. eapply nameGroup_plausible; eauto.
    + now apply IH.
Qed.

(** The columnar parser keeps the bound. *)
Lemma parseColumnarFormat_plausible (text : string) :
  Forall plausible (parseColumnarFormat text).
Proof.
  unfold parseColumnarFormat. destruct (negb _); [constructor|].
  apply columnarLoop_plausible. constructor.
Qed.

Lemma bucketStep_plausible (tokensToSkip : list string)
      (st : list OcrPartner * CurrentEntry) (token : string) :
  Forall plausible (fst st) ->
  Forall plausible (fst (bucketStep tokensToSkip st token)).
Proof.
  destruct st as [entries currentEntry]. intro H. unfold bucketStep.
  cbn [fst] in H.
  destruct (setHas _ _); [exact H|].
  destruct (isPartnerNumber token); [exact H|].
  assert (Hrest : Forall plausible
            (fst (if test false reFiveDigits token
                  then (entries, currentEntry)
                  else if (0 <? String.length token)%nat
                          && negb (test false reDigits token)
                       then (entries,
                             mkCurrentEntry (nameTokens currentEntry ++ [token])
                                            (ce_number currentEntry)
                                            (ce_hours currentEntry))
                       else (entries, currentEntry)))).
  { destruct (test false reFiveDigits token); [exact H|].
    destruct (_ && _); exact H. }
  destruct (test false reDecimal token); [|exact Hrest].
  destruct (JsParse.parseFloat token) as [hours|]; [|exact Hrest].
  destruct (plausibleHours hours) eqn:E; [|exact Hrest].
  clear Hrest. cbn [fst].
  destruct (0 <? List.length (nameTokens currentEntry))%nat; [|exact H].
  destruct (_ && _ && _); [|exact H].
  apply Forall_snoc; [exact H|]. now apply plausibleHours_spec.
Qed.

(** The token-bucket fallback keeps the bound. *)
Lemma parseByTokenBuckets_plausible (text : string) (tokensToSkip : list string) :
  Forall plausible (parseByTokenBuckets text tokensToSkip).
Proof.
  unfold parseByTokenBuckets. destruct (negb _); [constructor|].
  assert (H : forall tokens st,
             Forall plausible (fst st) ->
             Forall plausible
               (fst (fold_left (bucketStep tokensToSkip) tokens st))).
  { induction tokens as [|t l IH]; intros st Hst; simpl; [assumption|].
    apply IH. now apply bucketStep_plausible. }
  apply H. constructor.
Qed.

End HoursFacts.


Module TableFacts.

Import Table.

Lemma parseHoursValue_range (hoursStr : string) :
  0 <= parseHoursValue hoursStr /\ parseHoursValue hoursStr < 200.
Proof.
  unfold parseHoursValue.
  destruct (negb _); [split; [apply Qle_refl | reflexivity]|].
  destruct (JsParse.parseFloat _) as [hours|];
    [|split; [apply Qle_refl | reflexivity]].
  destruct (JsMath.leb 0 hours && JsMath.ltb hours 200) eqn:E;
    [|split; [apply Qle_refl | reflexivity]].
  apply andb_true_iff in E. destruct E as [E1 E2]. split.
  - now apply Qle_bool_iff.
  - unfold JsMath.ltb in E2. apply negb_true_iff in E2.
    apply Qnot_le_lt. intro Hle. apply Qle_bool_iff in Hle. congruence.
Qed.

Lemma isValidPartnerEntry_hours (partner : Row) :
  isValidPartnerEntry partner = true -> 0 < t_hours partner.
Proof.
  unfold isValidPartnerEntry.
  repeat match goal with
         | |- (if ?b then false else _) = true -> _ =>
             destruct b eqn:?; [discriminate|]
         end.
  intros _.
  match goal with
  | H : (_ || JsMath.leb (t_hours partner) 0) = false |- _ =>
      apply orb_false_iff in H; destruct H as [_ H]
  end.
  now apply leb_false_lt.
Qed.

End TableFacts.

(** The two line formats without a partner number keep the bound too. *)
Lemma addEntry_plausible (parsed : list OcrPartner) (entry : OcrPartner) :
  Forall Ocr.plausible parsed -> Ocr.plausible entry ->
  Forall Ocr.plausible (Ocr.addEntry parsed entry).
Proof.
  intros Hp He. unfold Ocr.addEntry.
  destruct (_ || _); [exact Hp|].
  destruct (existsb _ parsed); [exact Hp|].
  now apply HoursFacts.Forall_snoc.
Qed.

Lemma pattern5_plausible (parsed : list OcrPartner) (cleanedLine : string) :
  Forall Ocr.plausible parsed ->
  Forall Ocr.plausible (Ocr.pattern5 parsed cleanedLine).
Proof.
  intro Hp. unfold Ocr.pattern5.
  destruct (2 <=? _)%nat; [|exact Hp].
  destruct (Regex.test false Ocr.reNumber _); [|exact Hp].
  destruct (JsParse.parseFloat _) as [hours|]; [|exact Hp].
  destruct (Ocr.plausibleHours hours) eqn:E; [|exact Hp].
  destruct (if (0 <? _)%nat then _ else _) as [number nameTokens].
  destruct (_ && _ && _ && _); [|exact Hp].
  apply addEntry_plausible; [exact Hp|].
  now apply HoursFacts.plausibleHours_spec.
Qed.

Lemma fromPattern4_plausible (parsed : list OcrPartner) (cleanedLine : string) :
  Forall Ocr.plausible parsed ->
  Forall Ocr.plausible (Ocr.fromPattern4 parsed cleanedLine).
Proof.
  intro Hp. unfold Ocr.fromPattern4.
  pose proof (pattern5_plausible parsed cleanedLine Hp) as Hnext.
  destruct (Regex.matchOf false Ocr.pattern4 cleanedLine) as [m|];
    [|exact Hnext].
  destruct (JsParse.parseFloat _) as [hours|]; [|exact Hnext].
  destruct (_ && _ && Ocr.plausibleHours hours) eqn:E; [|exact Hnext].
  apply andb_true_iff in E. destruct E as [_ E].
  apply addEntry_plausible; [exact Hp|].
  now apply HoursFacts.plausibleHours_spec.
Qed.

(** The two extraction examples of the specification. *)
Example extraction_of_a_full_line :
  Ocr.parseOcrToPartners "69600 Ailuogwemhe, Jodie O US37008498 9.22"
  = [ mkOcrPartner "Ailuogwemhe, Jodie O" "US37008498" 9.22 ].
Proof. vm_compute. reflexivity. Qed.

Example extraction_rejects_a_date_range :
  Ocr.parseOcrToPartners "08/01/2025 - 08/07/2025" = [].
Proof. vm_compute. reflexivity. Qed.

(** A row that passes [isValidPartnerEntry] with hours read by
    [parseHoursValue] is within the bound. *)
Lemma table_row_plausible (name number hoursStr store : string) :
  Table.isValidPartnerEntry
    (Table.mkRow name number (Table.parseHoursValue hoursStr) store) = true ->
  0 < Table.parseHoursValue hoursStr /\ Table.parseHoursValue hoursStr < 200.
Proof.
  intro H. apply TableFacts.isValidPartnerEntry_hours in H. split.
  - exact H.
  - apply TableFacts.parseHoursValue_range.
Qed.

(** C4.  Every record returned by extraction is specified to have hours
    above 0 and below 200.  The three numbered line formats of
    [parseOcrToPartners] do not keep to that: a line with a store number and
    a US partner number is accepted with 250.5 hours and with 0 hours, one
    with a US partner number alone with 250.5 hours, one with a numeric
    identifier with 999 hours. *)
Theorem numbered_formats_accept_implausible_hours :
  (exists p,
      Ocr.parseOcrToPartners implausibleLine = [p]
      /\ o_name p = "Doe, Jane"%string /\ o_number p = "US37008498"%string
      /\ o_hours p == 250.5 /\ ~ Ocr.plausible p)
  /\ (exists p,
         Ocr.parseOcrToPartners zeroHoursLine = [p]
         /\ o_hours p == 0 /\ ~ Ocr.plausible p)
  /\ (exists p,
         Ocr.parseOcrToPartners noStoreLine = [p]
         /\ o_hours p == 250.5 /\ ~ Ocr.plausible p)
  /\ (exists p,
         Ocr.parseOcrToPartners numericIdLine = [p]
         /\ o_number p = "1234567"%string
         /\ o_hours p == 999 /\ ~ Ocr.plausible p).
Proof.
  repeat split;
    (eexists; split; [vm_compute; reflexivity|]);
    repeat split; try reflexivity;
    unfold Ocr.plausible; cbn [o_hours]; intros [H0 H200];
    try discriminate H0; discriminate H200.
Qed.

(** ** The examples in binary64

    The amounts of the worked example, of the two whole-dollar policies and
    of the over-allocating rate come out the same when every operation is
    the one of the machine. *)

Example binary64_worked_example :
  let hours := [Binary64.decimal 922 100; Binary64.decimal 1848 100] in
  Binary64.allocate (Binary64.ofZ 40) hours
  = (Binary64.decimal 144 100,
     [ (Binary64.decimal 1328 100, Binary64.ofZ 13);
       (Binary64.decimal 2661 100, Binary64.ofZ 27) ])
  /\ (exists total,
         Binary64.toQ (Binary64.sumHours hours) = Some total
         /\ 27.695 < total < 27.705).
Proof.
  split; [vm_compute; reflexivity|].
  eexists. split; [vm_compute; reflexivity|]. split; reflexivity.
Qed.

Example binary64_policies_differ :
  Binary64.wholeDollarNearest (Binary64.decimal 1328 100) = Binary64.ofZ 13
  /\ Binary64.wholeDollarUp (Binary64.decimal 1328 100) = Binary64.ofZ 14.
Proof. split; vm_compute; reflexivity. Qed.

Example binary64_rate_over_allocates :
  let tips := Binary64.decimal 99999999995 100000000000 in
  let '(rate, _) := Binary64.allocate tips [Binary64.ofZ 1] in
  rate = Binary64.ofZ 1
  /\ PrimFloat.ltb tips (PrimFloat.mul rate (Binary64.ofZ 1)) = true.
Proof. vm_compute. split; reflexivity. Qed.

(** The rounding of [Float64] is the one of the machine: literals, the four
    operations with their ties, a spacing that changes within the operation,
    and the finest doubles come out as the floats of the machine do. *)
Example float64_rounds_as_the_machine :
  option_map Qred (Binary64.toQ (Binary64.decimal 1 100000000))
  = Some Float64.eps
  /\ option_map Qred (Binary64.toQ (Binary64.decimal 3 10))
     = Some (Float64.literal 0.3)
  /\ option_map Qred
       (Binary64.toQ (PrimFloat.div (Binary64.decimal 3 10) (Binary64.ofZ 3)))
     = Float64.div (Float64.literal 0.3) 3
  /\ option_map Qred
       (Binary64.toQ (PrimFloat.mul (Binary64.decimal 1 10) (Binary64.ofZ 3)))
     = Float64.mul (Float64.literal 0.1) 3
  /\ option_map Qred
       (Binary64.toQ (PrimFloat.add (Binary64.decimal 1 10)
                                    (Binary64.decimal 2 10)))
     = Float64.add (Float64.literal 0.1) (Float64.literal 0.2)
  /\ option_map Qred
       (Binary64.toQ (PrimFloat.sub (Binary64.ofZ 1) (Binary64.decimal 9 10)))
     = Float64.sub 1 (Float64.literal 0.9)
  /\ option_map Qred
       (Binary64.toQ (PrimFloat.add (Binary64.ofZ (2 ^ 53)) (Binary64.ofZ 1)))
     = Float64.add (inject_Z (2 ^ 53)) 1
  /\ option_map Qred
       (Binary64.toQ (PrimFloat.add (Binary64.ofZ (2 ^ 53)) (Binary64.ofZ 3)))
     = Float64.add (inject_Z (2 ^ 53)) 3
  /\ option_map Qred
       (Binary64.toQ
          (PrimFloat.div
             (PrimFloat.div (PrimFloat.div (Binary64.ofZ 3) (Binary64.ofZ 2))
                            twoTo1023Float)
             (Binary64.ofZ (2 ^ 51))))
     = Float64.bind
         (Float64.div 3 2)
         (fun a => Float64.bind (Float64.div a (Float64.pow2 1023))
                                (fun b => Float64.div b (inject_Z (2 ^ 51))))
  /\ option_map Qred
       (Binary64.toQ
          (PrimFloat.div
             (PrimFloat.div (PrimFloat.div (Binary64.ofZ 1) (Binary64.ofZ 3))
                            twoTo1023Float)
             (Binary64.ofZ (2 ^ 50))))
     = Float64.bind
         (Float64.div 1 3)
         (fun a => Float64.bind (Float64.div a (Float64.pow2 1023))
                                (fun b => Float64.div b (inject_Z (2 ^ 50))))
  /\ option_map Qred
       (Binary64.toQ (Binary64.truncateToTwoDecimals
                        (PrimFloat.div (Binary64.decimal 3 10)
                                       (Binary64.ofZ 3))))
     = Float64.bind (Float64.div (Float64.literal 0.3) 3)
                    Float64.truncateToTwoDecimals
  /\ option_map Qred (Binary64.toQ twoTo1023Float)
     = Some (Qred (Float64.pow2 1023))
  /\ Binary64.toQ (PrimFloat.mul twoTo1023Float (Binary64.ofZ 2)) = None
  /\ Float64.mul (Float64.pow2 1023) 2 = None.
Proof. repeat split; vm_compute; reflexivity. Qed.

(** Thirty cents over three hours on the machine: the rate is the double of
    0.1, and three times the rate is above the cash.  Three cents over the
    hours 1.5 and 1.5: two tips of two cents. *)
Example binary64_rate_without_carry :
  (let tips := Binary64.decimal 3 10 in
   let '(rate, _) := Binary64.allocate tips [Binary64.ofZ 3] in
   rate = Binary64.decimal 1 10
   /\ PrimFloat.ltb tips (PrimFloat.mul rate (Binary64.ofZ 3)) = true)
  /\ (let tips := Binary64.decimal 3 100 in
      let hours := [Binary64.decimal 15 10; Binary64.decimal 15 10] in
      let '(_, results) := Binary64.allocate tips hours in
      map fst results = [Binary64.decimal 2 100; Binary64.decimal 2 100]
      /\ PrimFloat.ltb tips (fold_left PrimFloat.add (map fst results)
                                       (Binary64.ofZ 0)) = true).
Proof. vm_compute. repeat split; reflexivity. Qed.
(** * Further properties of the code *)

Local Open Scope Q_scope.



(** ** Redistribution, partner by partner *)

Module RedistributeExact.

Import Redistribute.
Local Open Scope Z_scope.

Lemma takeLoop_nonneg (fuel : nat) (denom remaining avail taken : Z) :
  0 < denom -> 0 <= remaining ->
  let '(remaining', _, _) := takeLoop fuel denom remaining avail taken in
  0 <= remaining'.
Proof.
  intro Hd. revert remaining avail taken.
  induction fuel as [|fuel IH]; intros remaining avail taken Hr; simpl.
  - exact Hr.
  - destruct ((denom <=? remaining) && (0 <? avail)) eqn:E; [|exact Hr].
    apply andb_true_iff in E. destruct E as [E1 _]. apply Z.leb_le in E1.
    apply IH. lia.
Qed.

(** What one [while] loop takes: as many notes as fit into what remains to
    be paid, or all there are. *)
Lemma takeNotes_exact (denom remaining avail : Z) :
  0 < denom -> 0 <= remaining -> 0 <= avail ->
  takeNotes denom remaining avail
  = (remaining - denom * Z.min avail (remaining / denom),
     avail - Z.min avail (remaining / denom),
     Z.min avail (remaining / denom)).
Proof.
  intros Hd Hr Ha.
  pose proof (RedistributeFacts.takeNotes_spec denom remaining avail) as H.
  pose proof (takeLoop_nonneg (Z.to_nat avail) denom remaining avail 0 Hd Hr)
    as Hnn.
  unfold takeNotes in *.
  destruct (takeLoop (Z.to_nat avail) denom remaining avail 0) as [[r a] t].
  destruct H as (Ht & Hav & Hrem & Hav0 & Hexit).
  specialize (Hav0 Ha).
  assert (Hmin : t = Z.min avail (remaining / denom)).
  { apply andb_false_iff in Hexit.
    assert (Hq : t <= remaining / denom)
      by (apply Z.div_le_lower_bound; lia).
    destruct Hexit as [E|E].
    - apply Z.leb_gt in E.
      assert (remaining / denom <= t).
      { apply Z.lt_succ_r. apply Z.div_lt_upper_bound; lia. }
      lia.
    - apply Z.ltb_ge in E. lia. }
  subst t. now rewrite Hav, Hrem.
Qed.

(** A partner whose greedy notes are all in the inventory gets exactly
    them. *)
Lemma allocatePartner_stocked (rb : Bills) (partner : CalcResult) :
  0 <= wholeDollarPayout partner ->
  breakdown partner = breakdownBills (inject_Z (wholeDollarPayout partner)) ->
  nonNegBills rb -> leBills (breakdown partner) rb ->
  allocatePartner rb partner
  = (mkBills (twenties rb - twenties (breakdown partner))
             (tens rb - tens (breakdown partner))
             (fives rb - fives (breakdown partner))
             (ones rb - ones (breakdown partner)),
     mkRedistributed partner (breakdown partner) (wholeDollarPayout partner)).
Proof.
  intros Hn Hb (N20 & N10 & N5 & N1). rewrite Hb.
  rewrite breakdownBills_closed_form, Qfloor_Z, Z.max_r by lia.
  set (n := wholeDollarPayout partner) in *.
  unfold leBills; cbn [twenties tens fives ones].
  intros (L20 & L10 & L5 & L1).
  unfold allocatePartner. fold n.
  rewrite (takeNotes_exact 20 n (twenties rb)) by lia.
  rewrite (Z.min_r _ _ L20).
  replace (n - 20 * (n / 20)) with (n mod 20)
    by (Z.div_mod_to_equations; lia).
  rewrite (takeNotes_exact 10 (n mod 20) (tens rb))
    by (try apply Z.mod_pos_bound; lia).
  rewrite (Z.min_r _ _ L10).
  replace (n mod 20 - 10 * (n mod 20 / 10)) with (n mod 10)
    by (Z.div_mod_to_equations; lia).
  rewrite (takeNotes_exact 5 (n mod 10) (fives rb))
    by (try apply Z.mod_pos_bound; lia).
  rewrite (Z.min_r _ _ L5).
  replace (n mod 10 - 5 * (n mod 10 / 5)) with (n mod 5)
    by (Z.div_mod_to_equations; lia).
  rewrite (takeNotes_exact 1 (n mod 5) (ones rb))
    by (try apply Z.mod_pos_bound; lia).
  rewrite Z.div_1_r, (Z.min_r _ _ L1).
  replace (n mod 5 - 1 * (n mod 5)) with 0 by lia.
  cbn. f_equal. f_equal. lia.
Qed.

Lemma addBills_comm (a b : Bills) : addBills a b = addBills b a.
Proof. unfold addBills. f_equal; lia. Qed.

Lemma addBills_assoc (a b c : Bills) :
  addBills a (addBills b c) = addBills (addBills a b) c.
Proof. unfold addBills; cbn. f_equal; lia. Qed.

Lemma sumBills_perm (l l' : list Bills) :
  Permutation l l' -> sumBills l = sumBills l'.
Proof.
  induction 1; cbn.
  - reflexivity.
  - now f_equal.
  - rewrite !addBills_assoc. f_equal. apply addBills_comm.
  - congruence.
Qed.

Lemma fold_addBills (l : list CalcResult) (t : Bills) :
  fold_left (fun t r => addBills t (breakdown r)) l t
  = addBills t (sumBills (map breakdown l)).
Proof.
  revert t. induction l as [|r l IH]; intro t; cbn.
  - destruct t; unfold addBills, zeroBills; cbn. f_equal; lia.
  - rewrite IH. now rewrite addBills_assoc.
Qed.

Lemma fold_step_stocked (l : list CalcResult) (st : RedistributeRun) :
  Forall (fun r => 0 <= wholeDollarPayout r
                   /\ breakdown r = breakdownBills (inject_Z (wholeDollarPayout r))
                   /\ nonNegBills (breakdown r)) l ->
  nonNegBills (remainingBills st) ->
  leBills (sumBills (map breakdown l)) (remainingBills st) ->
  Forall servedInFull (updatedResults st) ->
  let st' := fold_left step l st in
  Forall servedInFull (updatedResults st')
  /\ addBills (remainingBills st') (sumBills (map breakdown l))
     = remainingBills st
  /\ usedBills st' = addBills (usedBills st) (sumBills (map breakdown l)).
Proof.
  intro Hall. revert st.
  induction Hall as [|r l (Hn & Hb & Hnn) Hall IH]; intros st Hrb Hle Hdone.
  - cbn. repeat split; [exact Hdone| |];
      destruct (remainingBills st), (usedBills st);
      unfold addBills, zeroBills; cbn; f_equal; lia.
  - cbn [fold_left map sumBills fold_right] in *.
    fold (sumBills (map breakdown l)) in *.
    set (rest := sumBills (map breakdown l)) in *.
    assert (Hrest : nonNegBills rest).
    { unfold rest. clear - Hall. induction Hall as [|x l (_ & _ & Hx) _ IH].
      - unfold nonNegBills; cbn; lia.
      - cbn. fold (sumBills (map breakdown l)).
        destruct Hx as (? & ? & ? & ?), IH as (? & ? & ? & ?).
        unfold nonNegBills, addBills; cbn. lia. }
    destruct Hrb as (R20 & R10 & R5 & R1), Hle as (L20 & L10 & L5 & L1),
             Hnn as (B20 & B10 & B5 & B1), Hrest as (S20 & S10 & S5 & S1).
    cbn [addBills twenties tens fives ones] in L20, L10, L5, L1.
    assert (Hstep : step st r
                    = mkRedistributeRun
                        (updatedResults st
                         ++ [mkRedistributed r (breakdown r) (wholeDollarPayout r)])
                        (mkBills (twenties (remainingBills st) - twenties (breakdown r))
                                 (tens (remainingBills st) - tens (breakdown r))
                                 (fives (remainingBills st) - fives (breakdown r))
                                 (ones (remainingBills st) - ones (breakdown r)))
                        (addBills (usedBills st) (breakdown r))).
    { unfold step. rewrite allocatePartner_stocked; try assumption.
      - reflexivity.
      - unfold nonNegBills. lia.
      - unfold leBills. lia. }
    rewrite Hstep.
    match goal with |- context [fold_left step l ?s] => specialize (IH s) end.
    cbn [remainingBills updatedResults usedBills twenties tens fives ones] in IH.
    destruct IH as (I1 & I2 & I3).
    + unfold nonNegBills; cbn. lia.
    + unfold leBills; cbn. fold rest. lia.
    + apply Forall_app. split; [exact Hdone|].
      constructor; [split; reflexivity|constructor].
    + split; [exact I1|]. split.
      * rewrite addBills_assoc.
        rewrite (addBills_comm _ (breakdown r)), <- addBills_assoc.
        fold rest in I2. rewrite I2.
        destruct (remainingBills st), (breakdown r).
        unfold addBills; cbn. f_equal; lia.
      * rewrite I3. fold rest. now rewrite addBills_assoc.
Qed.

End RedistributeExact.

Module RedistributeBounds.

Import Redistribute.
Local Open Scope Z_scope.




End RedistributeBounds.




(** ** Name keys *)

Module KeyFacts.











Lemma lowerChar_idem (c : ascii) :
  JsString.lowerChar (JsString.lowerChar c) = JsString.lowerChar c.
Proof.
  unfold JsString.lowerChar, JsString.code.
  destruct c as [[] [] [] [] [] [] [] []]; reflexivity.
Qed.



End KeyFacts.


(** ** What extraction guarantees *)

(** X3.  Whatever the text, the records that the columnar parser
    [parseColumnarFormat] and the token fallback [parseByTokenBuckets]
    return have hours above 0 and below 200; and when the columnar parser
    finds any record, [parseOcrToPartners] returns exactly its records. *)
Theorem columnar_records_come_first_and_are_plausible (text : string) :
  Forall Ocr.plausible (Ocr.parseColumnarFormat text)
  /\ (forall tokensToSkip,
         Forall Ocr.plausible (Ocr.parseByTokenBuckets text tokensToSkip))
  /\ (Ocr.parseColumnarFormat text <> [] ->
      Ocr.parseOcrToPartners text = Ocr.parseColumnarFormat text).
Proof.
  split; [apply HoursFacts.parseColumnarFormat_plausible|].
  split; [intro; apply HoursFacts.parseByTokenBuckets_plausible|].
  intro Hne. unfold Ocr.parseOcrToPartners.
  destruct (Ocr.parseColumnarFormat text); [congruence|reflexivity].
Qed.

Module DistinctFacts.

Import Ocr.

Lemma addEntry_distinct (parsed : list OcrPartner) (entry : OcrPartner) :
  distinctEntries parsed -> distinctEntries (addEntry parsed entry).
Proof.
  intros [Hnd Hlen]. unfold addEntry.
  destruct (negb (JsString.truthy (o_name entry))
            || (String.length (o_name entry) <? 2)%nat) eqn:E;
    [split; assumption|].
  apply orb_false_iff in E. destruct E as [_ E]. apply Nat.ltb_ge in E.
  destruct (existsb _ parsed) eqn:Ex; [split; assumption|].
  split.
  - rewrite map_app. cbn.
    assert (Hfresh : ~ In (entryKey entry) (map entryKey parsed)).
    { intro Hin. apply in_map_iff in Hin. destruct Hin as [p [Hk Hp]].
      assert (existsb (fun p => String.eqb
                 (JsString.trim (JsString.toLowerCase (o_name p)))
                 (JsString.trim (JsString.toLowerCase (o_name entry))))
                parsed = true).
      { apply existsb_exists. exists p. split; [exact Hp|].
        apply String.eqb_eq. exact Hk. }
      congruence. }
    apply (Permutation_NoDup (Permutation_cons_append _ _)).
    now constructor.
  - apply Forall_app. split; [exact Hlen|]. constructor; [exact E|constructor].
Qed.

Lemma pattern5_distinct (parsed : list OcrPartner) (cleanedLine : string) :
  distinctEntries parsed -> distinctEntries (pattern5 parsed cleanedLine).
Proof.
  intro Hp. unfold pattern5.
  destruct (2 <=? _)%nat; [|exact Hp].
  destruct (Regex.test false reNumber _); [|exact Hp].
  destruct (JsParse.parseFloat _) as [hours|]; [|exact Hp].
  destruct (plausibleHours hours); [|exact Hp].
  destruct (if (0 <? _)%nat then _ else _) as [number nameTokens].
  destruct (_ && _ && _ && _); [|exact Hp].
  now apply addEntry_distinct.
Qed.

Lemma fromPattern1_distinct (parsed : list OcrPartner) (cleanedLine : string) :
  distinctEntries parsed -> distinctEntries (fromPattern1 parsed cleanedLine).
Proof.
  intro Hp.
  pose proof (pattern5_distinct parsed cleanedLine Hp) as H5.
  assert (H4 : distinctEntries (fromPattern4 parsed cleanedLine)).
  { unfold fromPattern4.
    destruct (Regex.matchOf false pattern4 cleanedLine); [|exact H5].
    destruct (JsParse.parseFloat _); [|exact H5].
    destruct (_ && _ && _); [now apply addEntry_distinct|exact H5]. }
  assert (H3 : distinctEntries (fromPattern3 parsed cleanedLine)).
  { unfold fromPattern3.
    destruct (Regex.matchOf false pattern3 cleanedLine); [|exact H4].
    destruct (JsParse.parseFloat _); [|exact H4].
    destruct (JsString.truthy _); [now apply addEntry_distinct|exact H4]. }
  assert (H2 : distinctEntries (fromPattern2 parsed cleanedLine)).
  { unfold fromPattern2.
    destruct (Regex.matchOf true pattern2 cleanedLine); [|exact H3].
    destruct (JsParse.parseFloat _); [|exact H3].
    destruct (_ && _); [now apply addEntry_distinct|exact H3]. }
  unfold fromPattern1.
  destruct (Regex.matchOf true pattern1 cleanedLine); [|exact H2].
  destruct (JsParse.parseFloat _); [|exact H2].
  destruct (JsString.truthy _); [now apply addEntry_distinct|exact H2].
Qed.

Lemma lineStep_distinct (parsed : list OcrPartner) (rawLine : string) :
  distinctEntries parsed -> distinctEntries (lineStep parsed rawLine).
Proof.
  intro Hp. unfold lineStep.
  repeat match goal with
         | |- distinctEntries (if ?b then parsed else _) =>
             destruct b; [exact Hp|]
         end.
  now apply fromPattern1_distinct.
Qed.

Lemma fold_distinct (A : Type) (f : list OcrPartner -> A -> list OcrPartner)
      (l : list A) (parsed : list OcrPartner) :
  (forall parsed x, distinctEntries parsed -> distinctEntries (f parsed x)) ->
  distinctEntries parsed -> distinctEntries (fold_left f l parsed).
Proof.
  intro Hf. revert parsed.
  induction l as [|x l IH]; intros parsed Hp; cbn; [exact Hp|].
  apply IH. now apply Hf.
Qed.

End DistinctFacts.

(** X4.  When the columnar parser finds nothing, the records that
    [parseOcrToPartners] returns (from the five line patterns or from the
    token fallback) all went through [addEntry]: no two of them have the
    same name up to case and surrounding white space, and every name has at
    least two characters. *)
Theorem line_records_are_distinct (text : string) :
  Ocr.parseColumnarFormat text = [] ->
  distinctEntries (Ocr.parseOcrToPartners text).
Proof.
  intro Hcol. unfold Ocr.parseOcrToPartners. rewrite Hcol. cbn [List.length Nat.ltb Nat.leb].
  assert (Hnil : distinctEntries []) by (split; constructor).
  assert (Hparsed : distinctEntries
            (fold_left Ocr.lineStep
               (Regex.split false Ocr.reLineBreak (Ocr.stripMetadataTokens text))
               [])).
  { apply DistinctFacts.fold_distinct;
      [apply DistinctFacts.lineStep_distinct|exact Hnil]. }
  match goal with
  | |- distinctEntries (if ?b then _ else _) => destruct b; [|exact Hparsed]
  end.
  match goal with
  | |- distinctEntries (if ?b then _ else _) => destruct b; [|exact Hparsed]
  end.
  apply DistinctFacts.fold_distinct;
    [apply DistinctFacts.addEntry_distinct|exact Hparsed].
Qed.

Lemma line_records_are_distinct_witness :
  Ocr.parseOcrToPartners "Jane Doe 12.5 jane doe 30.0 end"
  = [ mkOcrPartner "Jane Doe" "" 12.5 ]
  /\ distinctEntries
       (Ocr.parseOcrToPartners "Jane Doe 12.5 jane doe 30.0 end").
Proof.
  split; [vm_compute; reflexivity|].
  apply line_records_are_distinct. vm_compute. reflexivity.
Defined.

(** ** The line patterns see a single line *)

Module OneLineFacts.

Import Regex Ocr Whitespace.

Lemma stripMetadataTokens_tidy (text : string) :
  tidyFrom false (stripMetadataTokens text) = true.
Proof.
  unfold stripMetadataTokens. destruct (negb _); [reflexivity|].
  unfold normalizeWhitespace. rewrite RegexFacts.replaceAll_spaces.
  apply (WhitespaceFacts.trim_tidy _ false).
  apply WhitespaceFacts.collapseFrom_tidy.
Qed.

Lemma tidy_no_line_feed (s : string) :
  forall b, tidyFrom b s = true ->
            allChars (fun c => negb (Ascii.eqb c lf)) s = true.
Proof.
  induction s as [|a s IH]; intros b H; [reflexivity|].
  cbn [tidyFrom allChars] in *.
  destruct (JsString.isSpace a) eqn:Ea.
  - apply andb_true_iff in H. destruct H as [H Hs].
    apply andb_true_iff in H. destruct H as [Ha _].
    apply Ascii.eqb_eq in Ha. subst a. cbn. now apply (IH true).
  - rewrite (IH false H), andb_true_r.
    destruct (Ascii.eqb_spec a lf) as [->|]; [discriminate|reflexivity].
Qed.

Lemma execAt_lineBreak_none (pos : nat) (s : string) :
  allChars (fun c => negb (Ascii.eqb c lf)) s = true ->
  execAt false reLineBreak pos s = None.
Proof.
  unfold execAt, reLineBreak, opt. cbn [matchRe inSet inItem canon].
  destruct s as [|a s]; [reflexivity|]. cbn [allChars].
  intro H. apply andb_true_iff in H. destruct H as [Ha Hs].
  apply negb_true_iff in Ha. rewrite Ha.
  destruct (Ascii.eqb a cr); [|reflexivity].
  destruct s as [|b s]; [reflexivity|]. cbn [allChars] in Hs.
  apply andb_true_iff in Hs. destruct Hs as [Hb _].
  apply negb_true_iff in Hb. now rewrite Hb.
Qed.

Lemma append_nil_r (s : string) : (s ++ "")%string = s.
Proof. induction s as [|a s IH]; cbn; [reflexivity|now rewrite IH]. Qed.

Lemma append_assoc (a b c : string) :
  ((a ++ b) ++ c)%string = (a ++ (b ++ c))%string.
Proof. induction a as [|x a IH]; cbn; [reflexivity|now rewrite IH]. Qed.

Lemma splitLoop_no_line_break (fuel : nat) :
  forall (p q : nat) (cur rest : string),
    allChars (fun c => negb (Ascii.eqb c lf)) rest = true ->
    splitLoop fuel false reLineBreak p q cur rest = [(cur ++ rest)%string].
Proof.
  induction fuel as [|fuel IH]; intros p q cur rest H; cbn [splitLoop];
    [reflexivity|].
  destruct rest as [|a rest]; [now rewrite append_nil_r|].
  rewrite (execAt_lineBreak_none q _ H).
  cbn [allChars] in H. apply andb_true_iff in H. destruct H as [_ H].
  rewrite (IH _ _ _ _ H). now rewrite append_assoc.
Qed.

Lemma split_no_line_break (s : string) :
  allChars (fun c => negb (Ascii.eqb c lf)) s = true ->
  split false reLineBreak s = [s].
Proof.
  intro H. unfold split. destruct s as [|a s]; [reflexivity|].
  now rewrite splitLoop_no_line_break.
Qed.

Lemma addEntry_length (parsed : list OcrPartner) (entry : OcrPartner) :
  (List.length (addEntry parsed entry) <= S (List.length parsed))%nat.
Proof.
  unfold addEntry. destruct (_ || _); [lia|].
  destruct (existsb _ parsed); [lia|]. rewrite length_app. cbn. lia.
Qed.

Lemma lineStep_length (parsed : list OcrPartner) (rawLine : string) :
  (List.length (lineStep parsed rawLine) <= S (List.length parsed))%nat.
Proof.
  pose proof (addEntry_length parsed) as Ha.
  assert (H5 : forall l, (List.length (pattern5 parsed l)
                          <= S (List.length parsed))%nat).
  { intro l. unfold pattern5.
    destruct (2 <=? _)%nat; [|lia].
    destruct (test false reNumber _); [|lia].
    destruct (JsParse.parseFloat _); [|lia].
    destruct (plausibleHours _); [|lia].
    destruct (if (0 <? _)%nat then _ else _) as [number nameTokens].
    destruct (_ && _ && _ && _); [apply Ha|lia]. }
  assert (H4 : forall l, (List.length (fromPattern4 parsed l)
                          <= S (List.length parsed))%nat).
  { intro l. unfold fromPattern4.
    destruct (matchOf false pattern4 l); [|apply H5].
    destruct (JsParse.parseFloat _); [|apply H5].
    destruct (_ && _ && _); [apply Ha|apply H5]. }
  assert (H3 : forall l, (List.length (fromPattern3 parsed l)
                          <= S (List.length parsed))%nat).
  { intro l. unfold fromPattern3.
    destruct (matchOf false pattern3 l); [|apply H4].
    destruct (JsParse.parseFloat _); [|apply H4].
    destruct (JsString.truthy _); [apply Ha|apply H4]. }
  assert (H2 : forall l, (List.length (fromPattern2 parsed l)
                          <= S (List.length parsed))%nat).
  { intro l. unfold fromPattern2.
    destruct (matchOf true pattern2 l); [|apply H3].
    destruct (JsParse.parseFloat _); [|apply H3].
    destruct (_ && _); [apply Ha|apply H3]. }
  assert (H1 : forall l, (List.length (fromPattern1 parsed l)
                          <= S (List.length parsed))%nat).
  { intro l. unfold fromPattern1.
    destruct (matchOf true pattern1 l); [|apply H2].
    destruct (JsParse.parseFloat _); [|apply H2].
    destruct (JsString.truthy _); [apply Ha|apply H2]. }
  unfold lineStep.
  repeat match goal with
         | |- (List.length (if ?b then parsed else _) <= _)%nat =>
             destruct b; [lia|]
         end.
  apply H1.
Qed.

End OneLineFacts.

(** X5.  [parseOcrToPartners] splits into lines the text that
    [stripMetadataTokens] returns, in which every line break has become a
    space already: the split gives that text back as one line, whatever the
    input.  So when the columnar parser finds nothing, the five line
    patterns are tried once, on the whole text, and yield at most one
    record; the token fallback runs when they yield none.  A report of two
    lines for two partners comes out as one record whose name holds the
    first line. *)
Theorem line_patterns_see_the_text_as_one_line (text : string) :
  let metadataStrip := Ocr.stripMetadataTokens text in
  let parsed := Ocr.lineStep [] metadataStrip in
  Regex.split false Ocr.reLineBreak metadataStrip = [metadataStrip]
  /\ (List.length parsed <= 1)%nat
  /\ (Ocr.parseColumnarFormat text = [] ->
      Ocr.parseOcrToPartners text
      = match parsed with
        | [] => fold_left Ocr.addEntry
                          (Ocr.parseByTokenBuckets metadataStrip
                                                   Ocr.metadataTokens) []
        | _ => parsed
        end)
  /\ Ocr.parseOcrToPartners
       ("Doe, Jane US37008498 12.5"
        ++ String Ocr.lf "Roe, Rick US37008499 30.0")
     = [ mkOcrPartner "Doe, Jane US37008498 12.5 Roe, Rick" "US37008499" 30.0 ].
Proof.
  intros metadataStrip parsed.
  assert (Hsplit : Regex.split false Ocr.reLineBreak metadataStrip
                   = [metadataStrip]).
  { apply OneLineFacts.split_no_line_break.
    apply (OneLineFacts.tidy_no_line_feed _ false).
    apply OneLineFacts.stripMetadataTokens_tidy. }
  split; [exact Hsplit|].
  split; [apply (OneLineFacts.lineStep_length [] metadataStrip)|].
  split; [|vm_compute; reflexivity].
  intro Hcol. unfold Ocr.parseOcrToPartners. rewrite Hcol.
  cbn [List.length Nat.ltb Nat.leb].
  fold metadataStrip. rewrite Hsplit. cbn [fold_left]. fold parsed.
  destruct parsed as [|p l]; cbn [List.length Nat.eqb]; [|reflexivity].
  destruct (Ocr.parseByTokenBuckets metadataStrip Ocr.metadataTokens);
    reflexivity.
Qed.

(** ** The partner table *)

Module PartnerTableFacts.

Import PartnerTable.
Local Open Scope Z_scope.


Lemma wellFormed_weaken (rows : list Partner) (n m : Z) :
  n <= m -> wellFormed (mkState rows n) -> wellFormed (mkState rows m).
Proof.
  intros Hnm [Hnd Hall]. split; [exact Hnd|]. cbn in *.
  eapply Forall_impl; [|exact Hall]. cbn. intros p [Hp Hh].
  split; [lia|exact Hh].
Qed.





End PartnerTableFacts.


Module PartnerTableTargets.

Import PartnerTable.
Local Open Scope Z_scope.



Lemma hoursOfInput_nonneg (v : option Q) : (0 <= hoursOfInput v)%Q.
Proof.
  unfold hoursOfInput. destruct v as [x|]; [|apply Qle_refl].
  destruct (JsMath.leb 0 x) eqn:E; [|apply Qle_refl].
  now apply Qle_bool_iff.
Qed.

End PartnerTableTargets.




(** ** HTML escaping *)

Module HtmlFacts.

Import Regex Html.

Lemma replaceLoop_char (c : ascii) (by_ : string) (fuel : nat) :
  forall (pos : nat) (s : string),
    (String.length s < fuel)%nat ->
    replaceLoop fuel false (Chr (One (IChar c))) by_ pos s
    = concatMap (fun a => if Ascii.eqb a c then by_ else String a "") s.
Proof.
  induction fuel as [|fuel IH]; intros pos s Hlen; [lia|].
  destruct s as [|a s']; [reflexivity|].
  cbn [replaceLoop concatMap]. unfold execAt.
  cbn [matchRe inSet inItem canon]. simpl in Hlen.
  destruct (Ascii.eqb a c).
  - replace (Nat.eqb (S pos) pos) with false
      by (symmetry; apply Nat.eqb_neq; lia).
    replace (S pos - pos)%nat with 1%nat by lia.
    cbn [drop]. f_equal. apply IH. lia.
  - cbn [append]. f_equal. apply IH. lia.
Qed.

Lemma replaceChar_concatMap (c : ascii) (by_ s : string) :
  replaceChar c by_ s
  = concatMap (fun a => if Ascii.eqb a c then by_ else String a "") s.
Proof. unfold replaceChar, replaceAll. apply replaceLoop_char. lia. Qed.

Lemma concatMap_app (f : ascii -> string) (a b : string) :
  concatMap f (a ++ b) = (concatMap f a ++ concatMap f b)%string.
Proof.
  induction a as [|x a IH]; cbn; [reflexivity|].
  now rewrite IH, OneLineFacts.append_assoc.
Qed.

Lemma replaceChar_app (c : ascii) (by_ a b : string) :
  replaceChar c by_ (a ++ b)
  = (replaceChar c by_ a ++ replaceChar c by_ b)%string.
Proof. rewrite !replaceChar_concatMap. apply concatMap_app. Qed.

(** The five passes on a single character. *)
Lemma escapeHtml_char (c : ascii) :
  escapeHtml (Some (String c "")) = escapeChar c.
Proof.
  destruct c as [[] [] [] [] [] [] [] []]; vm_compute; reflexivity.
Qed.

(** The five passes amount to one pass that escapes each character on its
    own: a pass never touches what an earlier pass has written. *)
Lemma escapeHtml_one_pass (s : string) :
  escapeHtml (Some s) = concatMap escapeChar s.
Proof.
  induction s as [|c s IH]; [reflexivity|].
  cbn [concatMap]. rewrite <- IH, <- escapeHtml_char.
  transitivity (escapeHtml (Some (String c "" ++ s)%string)); [reflexivity|].
  unfold escapeHtml. now rewrite !replaceChar_app.
Qed.

Lemma escapeChar_cases (c : ascii) :
  (isMarkup c = false /\ c <> "&"%char /\ escapeChar c = String c "")
  \/ escapeChar c = "&amp;"%string /\ c = "&"%char
  \/ escapeChar c = "&lt;"%string /\ c = "<"%char
  \/ escapeChar c = "&gt;"%string /\ c = ">"%char
  \/ escapeChar c = "&quot;"%string /\ c = quot
  \/ escapeChar c = "&#039;"%string /\ c = apos.
Proof.
  destruct c as [[] [] [] [] [] [] [] []];
    first [ left; split; [reflexivity|split; [discriminate|reflexivity]]
          | right; left; split; reflexivity
          | right; right; left; split; reflexivity
          | right; right; right; left; split; reflexivity
          | right; right; right; right; left; split; reflexivity
          | right; right; right; right; right; split; reflexivity ].
Qed.

Lemma allChars_app (f : ascii -> bool) (a b : string) :
  allChars f (a ++ b) = allChars f a && allChars f b.
Proof.
  induction a as [|x a IH]; cbn; [reflexivity|].
  now rewrite IH, andb_assoc.
Qed.

Lemma escapeChar_safe (c : ascii) :
  allChars (fun a => negb (isMarkup a)) (escapeChar c) = true.
Proof.
  destruct (escapeChar_cases c)
    as [(H & _ & ->)|[[-> _]|[[-> _]|[[-> _]|[[-> _]|[-> _]]]]]];
    try reflexivity.
  cbn. now rewrite H.
Qed.

Lemma escapeChar_injective (x y : ascii) (r1 r2 : string) :
  (escapeChar x ++ r1)%string = (escapeChar y ++ r2)%string ->
  x = y /\ r1 = r2.
Proof.
  destruct (escapeChar_cases x)
    as [(_ & Hx & ->)|[[-> ->]|[[-> ->]|[[-> ->]|[[-> ->]|[-> ->]]]]]];
    destruct (escapeChar_cases y)
      as [(_ & Hy & ->)|[[-> ->]|[[-> ->]|[[-> ->]|[[-> ->]|[-> ->]]]]]];
    cbn; intro H; try discriminate H;
    try (injection H as -> ->; split; reflexivity);
    try (injection H as -> _; congruence);
    try (injection H as <- _; congruence);
    try (injection H as ->; split; reflexivity).
Qed.

End HtmlFacts.

(** X9.  The text that [escapeHtml] returns holds none of the
    characters that end text or an attribute value in HTML: no [<], no [>],
    no double and no single quote.  So the second replacement of the double
    quote in [escapeHtmlAttr] finds nothing: the two functions return the
    same.  A text without any of the five special characters is returned
    as it is, and [null] gives the empty text. *)
Theorem escaped_text_holds_no_markup (str : option string) :
  allChars (fun c => negb (Html.isMarkup c)) (Html.escapeHtml str) = true
  /\ Html.escapeHtmlAttr str = Html.escapeHtml str
  /\ (forall s, str = Some s ->
        allChars (fun c => negb (Html.isMarkup c || Ascii.eqb c "&")) s = true ->
        Html.escapeHtml str = s)
  /\ Html.escapeHtml None = ""%string.
Proof.
  assert (Hsafe : allChars (fun c => negb (Html.isMarkup c))
                           (Html.escapeHtml str) = true).
  { destruct str as [s|]; [|reflexivity].
    rewrite HtmlFacts.escapeHtml_one_pass.
    induction s as [|c s IH]; [reflexivity|]. cbn [Html.concatMap].
    now rewrite HtmlFacts.allChars_app, HtmlFacts.escapeChar_safe, IH. }
  split; [exact Hsafe|]. split; [|split; [|reflexivity]].
  - unfold Html.escapeHtmlAttr. rewrite HtmlFacts.replaceChar_concatMap.
    induction (Html.escapeHtml str) as [|c s IH]; [reflexivity|].
    cbn [allChars Html.concatMap] in *.
    apply andb_true_iff in Hsafe. destruct Hsafe as [Hc Hs].
    rewrite (IH Hs).
    destruct (Ascii.eqb_spec c Html.quot) as [->|]; [discriminate|reflexivity].
  - intros s -> Hs. rewrite HtmlFacts.escapeHtml_one_pass. clear Hsafe.
    induction s as [|c s IH]; [reflexivity|].
    cbn [allChars Html.concatMap] in *.
    apply andb_true_iff in Hs. destruct Hs as [Hc Hs].
    rewrite (IH Hs). apply negb_true_iff, orb_false_iff in Hc.
    destruct Hc as [Hm Ha].
    destruct (HtmlFacts.escapeChar_cases c)
      as [(_ & _ & ->)|[[_ ->]|[[_ ->]|[[_ ->]|[[_ ->]|[_ ->]]]]]];
      try reflexivity; discriminate.
Qed.

(** X10.  [escapeHtml] loses nothing: two different texts are
    never escaped to the same text. *)
Theorem escapeHtml_is_injective (s1 s2 : string) :
  Html.escapeHtml (Some s1) = Html.escapeHtml (Some s2) -> s1 = s2.
Proof.
  rewrite !HtmlFacts.escapeHtml_one_pass. revert s2.
  induction s1 as [|x s1 IH]; intros [|y s2]; cbn [Html.concatMap]; intro H.
  - reflexivity.
  - exfalso.
    destruct (HtmlFacts.escapeChar_cases y)
      as [(_ & _ & E)|[[E _]|[[E _]|[[E _]|[[E _]|[E _]]]]]];
      rewrite E in H; discriminate H.
  - exfalso.
    destruct (HtmlFacts.escapeChar_cases x)
      as [(_ & _ & E)|[[E _]|[[E _]|[[E _]|[[E _]|[E _]]]]]];
      rewrite E in H; discriminate H.
  - apply HtmlFacts.escapeChar_injective in H. destruct H as [-> H].
    f_equal. now apply IH.
Qed.

Lemma escapeHtml_is_injective_witness :
  Html.escapeHtml (Some "a<b & c"%string) = "a&lt;b &amp; c"%string
  /\ "a<b & c"%string = "a<b & c"%string.
Proof.
  split; [vm_compute; reflexivity|].
  apply escapeHtml_is_injective. reflexivity.
Defined.

(** ** Name cleaning and extraction in the two-period dashboard *)

Module CleanFacts.

Import Regex RegexFirst.












End CleanFacts.



Module DashboardFacts.

Import Regex RegexFirst Dashboard.








End DashboardFacts.


(** ** Extraction in the module that pairs the records *)

Module AutomationFacts.

Import Regex RegexFirst Automation.







End AutomationFacts.


(** ** Extraction from layout tables in the main script *)

Module TableExtractFacts.

Import Regex RegexFirst TableExtract.





End TableExtractFacts.


(** ** Where a match comes from *)

Module MatchFrom.

Import Regex.

Lemma starLoop_cont (R : Type) (greedy : bool)
      (step : nat -> string -> caps -> cont R -> option R) (k : cont R) :
  fromCont step ->
  forall fuel pos s c x,
    starLoop greedy step k fuel pos s c = Some x ->
    exists pos' s' c', (pos <= pos')%nat /\ k pos' s' c' = Some x.
Proof.
  intro Hstep. induction fuel as [|fuel IH]; intros pos s c x H;
    cbn [starLoop] in H.
  - exists pos, s, c. split; [lia|exact H].
  - assert (Hiter : forall x,
               step pos s c
                 (fun pos' s' c' =>
                    if Nat.eqb pos' pos then None
                    else starLoop greedy step k fuel pos' s' c') = Some x ->
               exists pos' s' c', (pos <= pos')%nat /\ k pos' s' c' = Some x).
    { intros y Hy. apply Hstep in Hy.
      destruct Hy as (p1 & s1 & c1 & Hle & Hy).
      destruct (Nat.eqb p1 pos); [discriminate|].
      apply IH in Hy. destruct Hy as (p2 & s2 & c2 & Hle2 & Hy).
      exists p2, s2, c2. split; [lia|exact Hy]. }
    destruct greedy.
    + destruct (step pos s c _) as [y|] eqn:E.
      * injection H as <-. now apply Hiter.
      * exists pos, s, c. split; [lia|exact H].
    + destruct (k pos s c) as [y|] eqn:E.
      * injection H as <-. exists pos, s, c. split; [lia|exact E].
      * now apply Hiter.
Qed.

Lemma matchRe_fromCont (ci : bool) (R : Type) (r : re) :
  fromCont (matchRe ci (R := R) r).
Proof.
  induction r as [|cs|r1 IH1 r2 IH2|r1 IH1 r2 IH2|greedy r1 IH1|i r1 IH1| |];
    intros pos s c k x H; cbn [matchRe] in H.
  - exists pos, s, c. split; [lia|exact H].
  - destruct s as [|a s']; [discriminate|].
    destruct (inSet ci a cs); [|discriminate].
    exists (S pos), s', c. split; [lia|exact H].
  - apply IH1 in H. destruct H as (p1 & s1 & c1 & Hle & H).
    apply IH2 in H. destruct H as (p2 & s2 & c2 & Hle2 & H).
    exists p2, s2, c2. split; [lia|exact H].
  - destruct (matchRe ci r1 pos s c k) as [y|] eqn:E.
    + injection H as <-. now apply IH1 in E.
    + now apply IH2 in H.
  - now apply (starLoop_cont R greedy (matchRe ci r1) k IH1) in H.
  - apply IH1 in H. destruct H as (p1 & s1 & c1 & Hle & H).
    exists p1, s1, ((i, substring 0 (p1 - pos) s) :: c1).
    split; [lia|exact H].
  - destruct (Nat.eqb pos 0); [|discriminate].
    exists pos, s, c. split; [lia|exact H].
  - destruct s; [|discriminate].
    exists pos, EmptyString, c. split; [lia|exact H].
Qed.

(** A match of a sequence ends with a match of its second part. *)
Lemma seq_tail (ci : bool) (R : Type) (r1 r2 : re) (pos : nat) (s : string)
      (c : caps) (k : cont R) (x : R) :
  matchRe ci (Seq r1 r2) pos s c k = Some x ->
  exists pos' s' c', matchRe ci r2 pos' s' c' k = Some x.
Proof.
  cbn [matchRe]. intro H. apply matchRe_fromCont in H.
  destruct H as (p & s' & c' & _ & H). eauto.
Qed.

End MatchFrom.

(** ** Hours read by the numbered line patterns are never negative *)

Module HoursSign.

Import Regex Ocr.

Lemma readDigits_nonneg (s : string) :
  forall acc count,
    (0 <= acc)%Z ->
    let '(n, _, _) := JsParse.readDigits acc count s in (0 <= n)%Z.
Proof.
  induction s as [|a s IH]; intros acc count Hacc; cbn [JsParse.readDigits];
    [exact Hacc|].
  destruct (JsString.isDigit a) eqn:Ea; [|exact Hacc].
  apply IH. unfold JsParse.digitValue.
  unfold JsString.isDigit in Ea. apply andb_true_iff in Ea.
  destruct Ea as [E1 _]. apply N.leb_le in E1. lia.
Qed.

Lemma unsignedDecimal_nonneg (s : string) (h : Q) :
  JsParse.unsignedDecimal s = Some h -> 0 <= h.
Proof.
  unfold JsParse.unsignedDecimal.
  pose proof (readDigits_nonneg s 0%Z 0%nat ltac:(lia)) as H1.
  destruct (JsParse.readDigits 0 0 s) as [[intPart intCount] rest].
  assert (Hint : forall x, Some (inject_Z intPart) = Some x -> 0 <= x).
  { intros x [= <-]. change 0 with (inject_Z 0). now rewrite <- Zle_Qle. }
  assert (Hother : (if Nat.eqb intCount 0 then None
                    else Some (inject_Z intPart)) = Some h -> 0 <= h).
  { destruct (Nat.eqb intCount 0); [discriminate|apply Hint]. }
  destruct rest as [|a rest']; [exact Hother|].
  destruct (Ascii.eqb_spec a ".") as [->|Hne].
  - pose proof (readDigits_nonneg rest' intPart 0%nat H1) as H2.
    destruct (JsParse.readDigits intPart 0 rest') as [[allDigits fracCount] r].
    destruct fracCount as [|n]; [exact Hother|].
    intros [= <-]. unfold Qle. cbn. lia.
  - destruct a as [[] [] [] [] [] [] [] []]; try exact Hother.
    now elim Hne.
Qed.

Lemma unsignedNumber_nonneg (s : string) (h : Q) :
  JsParse.unsignedNumber s = Some h -> 0 <= h.
Proof.
  unfold JsParse.unsignedNumber, JsParse.finiteDecimal.
  destruct (JsParse.unsignedDecimal s) as [q|] eqn:E; [|discriminate].
  destruct (Qle_bool _ q); [discriminate|].
  intros [= <-]. now apply (unsignedDecimal_nonneg s).
Qed.

(** A text that starts with a digit is read as a number that is not
    negative. *)
Lemma parseFloat_digitFirst (s : string) (h : Q) :
  digitFirst s = true -> JsParse.parseFloat s = Some h -> 0 <= h.
Proof.
  destruct s as [|a s]; [discriminate|]. cbn [digitFirst]. intro Ha.
  unfold JsParse.parseFloat. cbn [JsString.trimStart].
  assert (Hs : JsString.isSpace a = false).
  { revert Ha. unfold JsString.isDigit, JsString.isSpace, JsString.code.
    destruct a as [[] [] [] [] [] [] [] []]; cbn; congruence. }
  rewrite Hs.
  assert (Hm : a <> "-"%char /\ a <> "+"%char).
  { split; intros ->; discriminate. }
  destruct Hm as [Hm Hp].
  destruct a as [[] [] [] [] [] [] [] []];
    try apply unsignedNumber_nonneg; congruence.
Qed.

Lemma digit_then (ci : bool) (R : Type) (k : cont R) (pos : nat) (s : string)
      (c : caps) (x : R) :
  matchRe ci digit pos s c k = Some x ->
  exists a s1, s = String a s1 /\ JsString.isDigit a = true
               /\ k (S pos) s1 c = Some x.
Proof.
  unfold digit. cbn [matchRe inSet inItem].
  destruct s as [|a s1]; [discriminate|].
  destruct (JsString.isDigit a) eqn:E; [|discriminate].
  intro H. exists a, s1. auto.
Qed.

(** The hours group, which ends the numbered patterns, captures a text
    that starts with a digit, and is the first capture in the result. *)
Lemma hoursGroup_tail (ci : bool) (i : nat) (pos : nat) (s : string)
      (c : caps) (e : nat) (cf : caps) :
  matchRe ci (Seq (hoursGroup i) Eol) pos s c (fun e _ c => Some (e, c))
  = Some (e, cf) ->
  exists v rest, cf = (i, v) :: rest /\ digitFirst v = true.
Proof.
  intro H.
  change (matchRe ci digit pos s c
            (fun p1 s1 c1 =>
               matchRe ci (Star true digit) p1 s1 c1
                 (fun p2 s2 c2 =>
                    matchRe ci (Seq (opt (lit ".")) (star digit)) p2 s2 c2
                      (fun pos' s' c' =>
                         matchRe ci Eol pos' s'
                           ((i, substring 0 (pos' - pos) s) :: c')
                           (fun e _ c => Some (e, c)))))
          = Some (e, cf)) in H.
  apply digit_then in H. destruct H as (a & s1 & -> & Ha & H).
  apply MatchFrom.matchRe_fromCont in H.
  destruct H as (p2 & s2 & c2 & Hle2 & H).
  apply MatchFrom.matchRe_fromCont in H.
  destruct H as (p3 & s3 & c3 & Hle3 & H).
  cbn [matchRe] in H. destruct s3; [|discriminate].
  injection H as _ <-.
  destruct (p3 - pos)%nat as [|n] eqn:En; [lia|].
  eexists. eexists. split; [reflexivity|]. cbn. exact Ha.
Qed.

End HoursSign.

Module HoursSignPatterns.

Import Regex Ocr.

Lemma searchFrom_execAt (ci : bool) (r : re) (s : string) :
  forall pos start e c,
    searchFrom ci r pos s = Some (start, e, c) ->
    exists pos' s', execAt ci r pos' s' = Some (e, c).
Proof.
  induction s as [|a s IH]; intros pos start e c H; cbn [searchFrom] in H.
  - destruct (execAt ci r pos "") as [[e' c']|] eqn:E; [|discriminate].
    injection H as _ <- <-. eauto.
  - destruct (execAt ci r pos (String a s)) as [[e' c']|] eqn:E.
    + injection H as _ <- <-. eauto.
    + eapply IH; eauto.
Qed.

(** In a match of one of the three numbered patterns the hours group is a
    text that starts with a digit. *)
Lemma numbered_pattern_hours (ci : bool) (line : string) (m : caps) :
  (matchOf ci pattern1 line = Some m -> digitFirst (groupOf 4 m) = true)
  /\ (matchOf ci pattern2 line = Some m -> digitFirst (groupOf 3 m) = true)
  /\ (matchOf ci pattern3 line = Some m -> digitFirst (groupOf 3 m) = true).
Proof.
  unfold matchOf. split; [|split]; intro H.
  - destruct (searchFrom ci pattern1 0 line) as [[[st e] c]|] eqn:E;
      [|discriminate]. injection H as ->.
    apply searchFrom_execAt in E. destruct E as (pos & s & E).
    unfold execAt, pattern1 in E. cbn [Cat] in E.
    do 7 (apply MatchFrom.seq_tail in E; destruct E as (? & ? & ? & E)).
    apply HoursSign.hoursGroup_tail in E. destruct E as (v & rest & -> & Hv).
    exact Hv.
  - destruct (searchFrom ci pattern2 0 line) as [[[st e] c]|] eqn:E;
      [|discriminate]. injection H as ->.
    apply searchFrom_execAt in E. destruct E as (pos & s & E).
    unfold execAt, pattern2 in E. cbn [Cat] in E.
    do 5 (apply MatchFrom.seq_tail in E; destruct E as (? & ? & ? & E)).
    apply HoursSign.hoursGroup_tail in E. destruct E as (v & rest & -> & Hv).
    exact Hv.
  - destruct (searchFrom ci pattern3 0 line) as [[[st e] c]|] eqn:E;
      [|discriminate]. injection H as ->.
    apply searchFrom_execAt in E. destruct E as (pos & s & E).
    unfold execAt, pattern3 in E. cbn [Cat] in E.
    do 5 (apply MatchFrom.seq_tail in E; destruct E as (? & ? & ? & E)).
    apply HoursSign.hoursGroup_tail in E. destruct E as (v & rest & -> & Hv).
    exact Hv.
Qed.

Lemma plausible_nonneg (p : OcrPartner) : plausible p -> 0 <= o_hours p.
Proof. intros [H _]. now apply Qlt_le_weak. Qed.

Lemma addEntry_nonneg (parsed : list OcrPartner) (entry : OcrPartner) :
  Forall (fun p => 0 <= o_hours p) parsed -> 0 <= o_hours entry ->
  Forall (fun p => 0 <= o_hours p) (addEntry parsed entry).
Proof.
  intros Hp He. unfold addEntry.
  destruct (_ || _); [exact Hp|].
  destruct (existsb _ parsed); [exact Hp|].
  now apply HoursFacts.Forall_snoc.
Qed.

Lemma fromPattern1_nonneg (parsed : list OcrPartner) (cleanedLine : string) :
  Forall (fun p => 0 <= o_hours p) parsed ->
  Forall (fun p => 0 <= o_hours p) (fromPattern1 parsed cleanedLine).
Proof.
  intro Hp.
  assert (Hplaus : forall h, plausibleHours h = true -> 0 <= h).
  { intros h E. apply HoursFacts.plausibleHours_spec in E.
    destruct E as [E _]. now apply Qlt_le_weak. }
  assert (H5 : Forall (fun p => 0 <= o_hours p) (pattern5 parsed cleanedLine)).
  { unfold pattern5.
    destruct (2 <=? _)%nat; [|exact Hp].
    destruct (test false reNumber _); [|exact Hp].
    destruct (JsParse.parseFloat _) as [hours|]; [|exact Hp].
    destruct (plausibleHours hours) eqn:E; [|exact Hp].
    destruct (if (0 <? _)%nat then _ else _) as [number nameTokens].
    destruct (_ && _ && _ && _); [|exact Hp].
    apply addEntry_nonneg; [exact Hp|]. now apply Hplaus. }
  assert (H4 : Forall (fun p => 0 <= o_hours p)
                      (fromPattern4 parsed cleanedLine)).
  { unfold fromPattern4.
    destruct (matchOf false pattern4 cleanedLine); [|exact H5].
    destruct (JsParse.parseFloat _) as [hours|]; [|exact H5].
    destruct (_ && _ && plausibleHours hours) eqn:E; [|exact H5].
    apply andb_true_iff in E. destruct E as [_ E].
    apply addEntry_nonneg; [exact Hp|]. now apply Hplaus. }
  assert (H3 : Forall (fun p => 0 <= o_hours p)
                      (fromPattern3 parsed cleanedLine)).
  { unfold fromPattern3.
    destruct (matchOf false pattern3 cleanedLine) as [m|] eqn:Em; [|exact H4].
    destruct (JsParse.parseFloat _) as [hours|] eqn:Eh; [|exact H4].
    destruct (JsString.truthy _); [|exact H4].
    apply addEntry_nonneg; [exact Hp|]. cbn [o_hours].
    apply (HoursSign.parseFloat_digitFirst _ _
             (proj2 (proj2 (numbered_pattern_hours false cleanedLine m)) Em) Eh). }
  assert (H2 : Forall (fun p => 0 <= o_hours p)
                      (fromPattern2 parsed cleanedLine)).
  { unfold fromPattern2.
    destruct (matchOf true pattern2 cleanedLine) as [m|] eqn:Em; [|exact H3].
    destruct (JsParse.parseFloat _) as [hours|] eqn:Eh; [|exact H3].
    destruct (_ && _); [|exact H3].
    apply addEntry_nonneg; [exact Hp|]. cbn [o_hours].
    apply (HoursSign.parseFloat_digitFirst _ _
             (proj1 (proj2 (numbered_pattern_hours true cleanedLine m)) Em) Eh). }
  unfold fromPattern1.
  destruct (matchOf true pattern1 cleanedLine) as [m|] eqn:Em; [|exact H2].
  destruct (JsParse.parseFloat _) as [hours|] eqn:Eh; [|exact H2].
  destruct (JsString.truthy _); [|exact H2].
  apply addEntry_nonneg; [exact Hp|]. cbn [o_hours].
  apply (HoursSign.parseFloat_digitFirst _ _
           (proj1 (numbered_pattern_hours true cleanedLine m) Em) Eh).
Qed.

Lemma lineStep_nonneg (parsed : list OcrPartner) (rawLine : string) :
  Forall (fun p => 0 <= o_hours p) parsed ->
  Forall (fun p => 0 <= o_hours p) (lineStep parsed rawLine).
Proof.
  intro Hp. unfold lineStep.
  repeat match goal with
         | |- Forall _ (if ?b then parsed else _) => destruct b; [exact Hp|]
         end.
  now apply fromPattern1_nonneg.
Qed.

Lemma parseOcrToPartners_nonneg (text : string) :
  Forall (fun p => 0 <= o_hours p) (parseOcrToPartners text).
Proof.
  assert (Hcol : Forall (fun p => 0 <= o_hours p) (parseColumnarFormat text)).
  { eapply Forall_impl; [|apply HoursFacts.parseColumnarFormat_plausible].
    apply plausible_nonneg. }
  unfold parseOcrToPartners.
  destruct (0 <? _)%nat; [exact Hcol|].
  assert (Hparsed : forall lines parsed,
             Forall (fun p => 0 <= o_hours p) parsed ->
             Forall (fun p => 0 <= o_hours p) (fold_left lineStep lines parsed)).
  { induction lines as [|l ls IH]; intros parsed Hp; cbn [fold_left];
      [exact Hp|].
    apply IH. now apply lineStep_nonneg. }
  specialize (Hparsed (split false reLineBreak (stripMetadataTokens text)) []
                      (Forall_nil _)).
  destruct (Nat.eqb _ 0); [|exact Hparsed].
  destruct (0 <? _)%nat; [|exact Hparsed].
  pose proof (HoursFacts.parseByTokenBuckets_plausible
                (stripMetadataTokens text) metadataTokens) as Hb.
  revert Hparsed Hb.
  generalize (fold_left lineStep
                (split false reLineBreak (stripMetadataTokens text)) []).
  generalize (parseByTokenBuckets (stripMetadataTokens text) metadataTokens).
  intro fallback. induction fallback as [|f fs IH]; intros parsed Hp Hb;
    cbn [fold_left]; [exact Hp|].
  inversion Hb as [|? ? Hf Hfs]; subst.
  apply IH; [|exact Hfs].
  apply addEntry_nonneg; [exact Hp|now apply plausible_nonneg].
Qed.

End HoursSignPatterns.

(** X15.  [parseOcrToPartners] never returns a record with negative
    hours, whatever the text: the columnar parser, the two line patterns
    without a partner number and the token fallback only accept hours above
    0, and the three numbered line patterns read the hours from a text that
    starts with a digit. *)
Theorem extracted_hours_are_never_negative (text : string) :
  Forall (fun p => 0 <= o_hours p) (Ocr.parseOcrToPartners text)
  /\ (forall ci line m,
         (Regex.matchOf ci Ocr.pattern1 line = Some m ->
          digitFirst (Regex.groupOf 4 m) = true)
         /\ (Regex.matchOf ci Ocr.pattern2 line = Some m ->
             digitFirst (Regex.groupOf 3 m) = true)
         /\ (Regex.matchOf ci Ocr.pattern3 line = Some m ->
             digitFirst (Regex.groupOf 3 m) = true)).
Proof.
  split; [apply HoursSignPatterns.parseOcrToPartners_nonneg|].
  intros ci line m. apply HoursSignPatterns.numbered_pattern_hours.
Qed.

Module TableHours.

Import PartnerTable.

Lemma assignIds_hours (parsed : list OcrPartner) :
  forall next,
    Forall (fun p => 0 <= o_hours p) parsed ->
    Forall hoursNotNegative (fst (assignIds parsed next)).
Proof.
  induction parsed as [|p rest IH]; intros next Hall; cbn [assignIds].
  - constructor.
  - inversion Hall as [|? ? Hp Hrest]; subst.
    specialize (IH (next + 1)%Z Hrest).
    destruct (assignIds rest (next + 1)) as [rows next'].
    cbn [fst] in *. constructor; [|exact IH].
    exists (o_hours p). split; [reflexivity|exact Hp].
Qed.

Lemma step_hours (st : State) (a : Action) :
  loadsFromOcr a ->
  Forall hoursNotNegative (partners st) ->
  Forall hoursNotNegative (partners (step st a)).
Proof.
  intros Ha Hall. destruct a as [| |id|id e|parsed]; cbn [step].
  - cbn. apply Forall_app. split; [exact Hall|].
    constructor; [|constructor]. exists 0. split; [reflexivity|apply Qle_refl].
  - constructor.
  - cbn. apply Forall_forall. intros p Hp. apply filter_In in Hp.
    exact (proj1 (Forall_forall _ _) Hall p (proj1 Hp)).
  - cbn. induction Hall as [|p rest Hp Hall IH]; cbn; [constructor|].
    destruct (p_id p =? id)%Z.
    + constructor; [|exact Hall]. destruct e; cbn; try exact Hp.
      exists (hoursOfInput v). split; [reflexivity|].
      apply PartnerTableTargets.hoursOfInput_nonneg.
    + constructor; [exact Hp|exact IH].
  - cbn in Ha. destruct Ha as [text ->]. unfold loadParsed.
    destruct (Ocr.parseOcrToPartners text) as [|p0 rest] eqn:E; [exact Hall|].
    rewrite <- E.
    pose proof (assignIds_hours (Ocr.parseOcrToPartners text)
                  (nextPartnerId st)
                  (HoursSignPatterns.parseOcrToPartners_nonneg text)) as H.
    destruct (assignIds _ _) as [rows next]. exact H.
Qed.

Lemma safeHours_kept (p : Partner) :
  hoursNotNegative p -> exists h, p_hours p = Some h /\ safeHoursOf p == h.
Proof.
  intros [h [Hp Hh]]. exists h. split; [exact Hp|].
  unfold safeHoursOf. rewrite Hp. unfold JsMath.gtb.
  destruct (Qle_bool h 0) eqn:E; cbn [negb]; [|reflexivity].
  apply Qle_bool_iff in E. now apply Qle_antisym.
Qed.

End TableHours.

(** X16.  A table that was filled by the OCR and by hand (rows
    added, removed, typed into, records of [parseOcrToPartners] loaded)
    never holds hours that are negative or not a finite number.  So when
    [runCalculations] runs on it, no row is set to 0 hours for being
    negative: the hours it pays every row for are the hours of the row. *)
Theorem tables_hold_no_negative_hours
        (actions : list PartnerTable.Action) :
  Forall loadsFromOcr actions ->
  let table := PartnerTable.partners (PartnerTable.run actions) in
  Forall hoursNotNegative table
  /\ Forall (fun p => exists h, p_hours p = Some h /\ safeHoursOf p == h)
            table.
Proof.
  intros Hocr table.
  assert (Hall : Forall hoursNotNegative table).
  { unfold table, PartnerTable.run.
    assert (H : forall st,
               Forall hoursNotNegative (PartnerTable.partners st) ->
               Forall hoursNotNegative
                 (PartnerTable.partners (fold_left PartnerTable.step actions st))).
    { induction Hocr as [|a l Ha Hl IH]; intros st Hst; cbn [fold_left];
        [exact Hst|].
      apply IH. now apply TableHours.step_hours. }
    apply H. cbn. constructor; [|constructor].
    exists 0. split; [reflexivity|apply Qle_refl]. }
  split; [exact Hall|].
  eapply Forall_impl; [|exact Hall]. apply TableHours.safeHours_kept.
Qed.

Lemma tables_hold_no_negative_hours_witness :
  Forall hoursNotNegative
         (PartnerTable.partners
            (PartnerTable.run
               [ PartnerTable.LoadParsed
                   (Ocr.parseOcrToPartners "Doe, Jane US37008498 12.5");
                 PartnerTable.AddRow;
                 PartnerTable.ChangeInput 3 (PartnerTable.EditHours None) ])).
Proof.
  apply (tables_hold_no_negative_hours
           [ PartnerTable.LoadParsed
               (Ocr.parseOcrToPartners "Doe, Jane US37008498 12.5");
             PartnerTable.AddRow;
             PartnerTable.ChangeInput 3 (PartnerTable.EditHours None) ]).
  constructor; [exists "Doe, Jane US37008498 12.5"%string; reflexivity|].
  constructor; [exact I|]. constructor; [exact I|]. constructor.
Defined.

